(** * volume_maker: merging chapter folders into one CBZ archive

    A shallow embedding of [volume_maker.py] and the properties of its
    chapter locator, page enumerator, renumbering loop, archive step,
    command-line parsing and exit status.

    Conventions.
    - A Python [str] is a [string]; its characters are the code points
      below 256, with Python's classification of them ([\d], [isdigit],
      [lower], white space).
    - A Python [int] is a [Z]; the page counters, which start at 1 and only
      grow, are [nat].
    - The file system is an association list from path strings to nodes.
      The order of the list stands for the order in which the operating
      system enumerates directory entries, which is arbitrary.  A new
      entry is put last.  This place is a convention: where the files
      after a step are given as a list, the entries and what they are
      bound to are meant, and the members of the archive of a whole run
      are stated up to their order.
    - A path denotes the node the list binds it to, string for string:
      "/m/./x" and "/m/x/." are not resolved to "/m/x".  The statements
      that depend on what the operating system would resolve are made
      for paths in resolved form ([Spec.normal_path]) or for output names
      whose last component is a name of its own ([Spec.own_folder]).
    - [input], failing copies and failing archive writes come from an
      environment record; [print] is kept as a log of structured events.
    - [main] takes the script's directory and [os.path.abspath] from a
      record of the process; the lines it prints itself are not logged.

    Left out of the model: symbolic links and permissions other than
    through the injected failures, the refusal of [os.rmdir] to remove a
    path that ends in "." or "..", the size of the archive
    ([os.path.getsize]), the interpreter's limit on the digits [int]
    accepts, and code points from 256 on. *)

From Stdlib Require Import String Ascii List ZArith Bool Arith Lia.
From Stdlib Require Import Permutation Sorted.
From Stdlib Require Import DecimalString DecimalNat DecimalPos DecimalFacts.
Import ListNotations.

Open Scope list_scope.
Open Scope string_scope.

(** ** Python strings *)

Module PyStr.

(** Code point of a character. *)
Definition ord (c : ascii) : nat := nat_of_ascii c.

(** [\d] of the [re] module on [str] patterns: the decimal digits.  Below
    code point 256 these are '0'..'9'. *)
Definition is_decimal (c : ascii) : bool :=
  ((48 <=? ord c) && (ord c <=? 57))%nat.

(** [str.isdigit] on one character: decimal digits and the characters with
    a digit value, which below 256 adds the superscripts two, three
    and one. *)
Definition char_isdigit (c : ascii) : bool :=
  is_decimal c || ((ord c =? 178) || (ord c =? 179) || (ord c =? 185))%nat.

(** The white space [int()] skips around a literal: tab to carriage
    return and the space, and above 127 what [str.isspace] accepts there,
    U+0085 and U+00A0.  The separators U+001C to U+001F are white space
    for [str.isspace] but not for [int()], which raises [ValueError] on
    them. *)
Definition is_space (c : ascii) : bool :=
  (((9 <=? ord c) && (ord c <=? 13)) || (ord c =? 32)
   || (ord c =? 133) || (ord c =? 160))%nat.

(** [str.lower] on one character: 'A'..'Z' and the upper-case letters of
    0xC0..0xDE (0xD7, the multiplication sign, is not a letter). *)
Definition lower_char (c : ascii) : ascii :=
  let n := ord c in
  if (((65 <=? n) && (n <=? 90))
      || ((192 <=? n) && (n <=? 222) && negb (n =? 215)))%nat
  then ascii_of_nat (n + 32) else c.

Fixpoint map_str (f : ascii -> ascii) (s : string) : string :=
  match s with
  | EmptyString => EmptyString
  | String c s' => String (f c) (map_str f s')
  end.

Definition lower (s : string) : string := map_str lower_char s.

Fixpoint forallb_str (p : ascii -> bool) (s : string) : bool :=
  match s with
  | EmptyString => true
  | String c s' => p c && forallb_str p s'
  end.

(** [s.isdigit()]: non-empty and every character is a digit. *)
Definition isdigit (s : string) : bool :=
  match s with
  | EmptyString => false
  | _ => forallb_str char_isdigit s
  end.

(** [s.startswith(p)] with the rest of [s] when it does. *)
Fixpoint strip_prefix (p s : string) : option string :=
  match p, s with
  | EmptyString, _ => Some s
  | String a p', String b s' =>
      if Ascii.eqb a b then strip_prefix p' s' else None
  | String _ _, EmptyString => None
  end.

Definition startswith (s p : string) : bool :=
  match strip_prefix p s with Some _ => true | None => false end.

Fixpoint endswith_char (s : string) (c : ascii) : bool :=
  match s with
  | EmptyString => false
  | String a EmptyString => Ascii.eqb a c
  | String _ s' => endswith_char s' c
  end.

(** The longest run of decimal digits at the start of [s]: a greedy
    [\d*]. *)
Fixpoint take_digits (s : string) : string :=
  match s with
  | EmptyString => EmptyString
  | String c s' =>
      if is_decimal c then String c (take_digits s') else EmptyString
  end.

Definition digit_value (c : ascii) : Z := Z.of_nat (ord c) - 48.

Fixpoint int_digits_from (acc : Z) (s : string) : Z :=
  match s with
  | EmptyString => acc
  | String c s' => int_digits_from (10 * acc + digit_value c) s'
  end.

(** [int(ds)] for a non-empty string of decimal digits. *)
Definition int_digits (ds : string) : Z := int_digits_from 0 ds.

(** [s.rfind(c)]: the last index of [c], or -1. *)
Fixpoint rfind (c : ascii) (s : string) : Z :=
  match s with
  | EmptyString => (-1)%Z
  | String a s' =>
      let r := rfind c s' in
      if (0 <=? r)%Z then (r + 1)%Z
      else if Ascii.eqb a c then 0%Z else (-1)%Z
  end.

(** [str(n)] and [f"{n}"] for an integer. *)
Definition str_of_Z (n : Z) : string := NilEmpty.string_of_int (Z.to_int n).

Definition str_of_nat (n : nat) : string :=
  NilEmpty.string_of_uint (Nat.to_uint n).

Fixpoint zeros (n : nat) : string :=
  match n with O => EmptyString | S n' => String "0" (zeros n') end.

(** [f"{n:03d}"] for a counter [n >= 0]: decimal, padded with zeros on
    the left to a width of at least three. *)
Definition fmt03d (n : nat) : string :=
  let d := str_of_nat n in
  zeros (3 - String.length d) ++ d.

End PyStr.

(** ** [re] patterns of the program *)

Module Re.
Import PyStr.

(** [re.match(r'Chapter (\d+)', item)]: the match is anchored at the start
    of [item] only; the result is group 1. *)
Definition match_chapter (item : string) : option string :=
  match strip_prefix "Chapter " item with
  | Some rest =>
      match take_digits rest with
      | EmptyString => None
      | ds => Some ds
      end
  | None => None
  end.

(** [re.search(r'(\d+)', filename)]: the leftmost digit, extended greedily;
    the result is group 1. *)
Fixpoint search_digits (s : string) : option string :=
  match s with
  | EmptyString => None
  | String c s' =>
      if is_decimal c then Some (take_digits s) else search_digits s'
  end.

End Re.

(** ** [os.path] on POSIX *)

Module OsPath.
Import PyStr.

Definition sep : ascii := "/"%char.
Definition extsep : ascii := "."%char.

(** [os.path.join(a, b)]. *)
Definition join (a b : string) : string :=
  if startswith b (String sep EmptyString) then b
  else if String.eqb a EmptyString || endswith_char a sep then a ++ b
  else a ++ String sep b.

(** The loop of [genericpath._splitext] that skips leading dots: [true]
    when some character of [p] in positions [i], [i+1], ..., below [i + n]
    is not a dot. *)
Fixpoint has_non_dot (p : string) (i n : nat) : bool :=
  match n with
  | O => false
  | S n' =>
      match String.get i p with
      | Some c => if Ascii.eqb c extsep then has_non_dot p (S i) n' else true
      | None => true
      end
  end.

(** [os.path.splitext(p)]: the extension starts at the last dot of the
    last path component, unless that component has only dots before it. *)
Definition splitext (p : string) : string * string :=
  let sepIndex := rfind sep p in
  let dotIndex := rfind extsep p in
  if (sepIndex <? dotIndex)%Z
     && has_non_dot p (Z.to_nat (sepIndex + 1))
                      (Z.to_nat (dotIndex - (sepIndex + 1)))
  then (String.substring 0 (Z.to_nat dotIndex) p,
        String.substring (Z.to_nat dotIndex)
                         (String.length p - Z.to_nat dotIndex) p)
  else (p, EmptyString).

(** [os.path.basename(p)]: what follows the last separator. *)
Definition basename (p : string) : string :=
  let i := Z.to_nat (rfind sep p + 1) in
  String.substring i (String.length p - i) p.

End OsPath.

(** ** The file system *)

Module Fs.
Import PyStr OsPath.

(** What a regular file holds: bytes, or a ZIP archive given by its
    members (archive name and content) in the order they were written. *)
Unset Elimination Schemes.
Inductive content : Type :=
| Bytes (b : string)
| Cbz (members : list (string * content)).
Set Elimination Schemes.

Inductive node : Type :=
| File (c : content)
| Dir.

(** Paths are the strings the program builds; a path denotes the node the
    list binds it to.  Nothing is resolved: a file system is meant to bind
    absolute paths in resolved form, and a string that is not one, such
    as "/m/./x", is a key of its own. *)
Definition t : Type := list (string * node).

Fixpoint lookup (p : string) (fs : t) : option node :=
  match fs with
  | [] => None
  | (q, n) :: fs' => if String.eqb q p then Some n else lookup p fs'
  end.

Definition exists_ (p : string) (fs : t) : bool :=
  match lookup p fs with Some _ => true | None => false end.

Definition isdir (p : string) (fs : t) : bool :=
  match lookup p fs with Some Dir => true | _ => false end.

Definition isfile (p : string) (fs : t) : bool :=
  match lookup p fs with Some (File _) => true | _ => false end.

(** Binds [p] to [n]: in place when [p] is bound, as the last entry
    otherwise.  The place of a new entry is a choice of the model: the
    operating system lists a new file where it pleases, so [os.walk]
    need not meet the files of a directory in the order of their
    creation. *)
Fixpoint write (p : string) (n : node) (fs : t) : t :=
  match fs with
  | [] => [(p, n)]
  | (q, m) :: fs' =>
      if String.eqb q p then (q, n) :: fs' else (q, m) :: write p n fs'
  end.

Definition remove (p : string) (fs : t) : t :=
  filter (fun kv => negb (String.eqb (fst kv) p)) fs.

(** The prefix shared by every path inside directory [d]. *)
Definition dir_prefix (d : string) : string := join d "".

(** [p] lies inside directory [d]. *)
Definition below (d p : string) : bool := startswith p (dir_prefix d).

(** The tree at [d] removed: [d] and every path inside it. *)
Definition remove_tree (d : string) (fs : t) : t :=
  filter (fun kv => negb (String.eqb (fst kv) d) && negb (below d (fst kv))) fs.

Fixpoint has_sep (s : string) : bool :=
  match s with
  | EmptyString => false
  | String c s' => Ascii.eqb c sep || has_sep s'
  end.

(** The name of [p] as an entry of directory [d], when it is one. *)
Definition entry_name (d p : string) : option string :=
  match strip_prefix (dir_prefix d) p with
  | Some EmptyString => None
  | Some name => if has_sep name then None else Some name
  | None => None
  end.

Fixpoint filter_map {A B : Type} (f : A -> option B) (l : list A) : list B :=
  match l with
  | [] => []
  | x :: l' =>
      match f x with
      | Some y => y :: filter_map f l'
      | None => filter_map f l'
      end
  end.

(** The entry names of directory [d], in enumeration order. *)
Definition entries (d : string) (fs : t) : list string :=
  filter_map (fun kv => entry_name d (fst kv)) fs.

(** The regular files inside [d] at any depth, as [os.walk] meets them:
    path and path relative to [d]. *)
Definition walk_files (d : string) (fs : t) : list (string * string) :=
  filter_map
    (fun kv =>
       match snd kv, strip_prefix (dir_prefix d) (fst kv) with
       | File _, Some (String c rel) => Some (fst kv, String c rel)
       | _, _ => None
       end) fs.

(** The proper ancestors of a path: its non-empty prefixes that end just
    before a separator, shortest first. *)
Fixpoint ancestors_from (pre s : string) : list string :=
  match s with
  | EmptyString => []
  | String c s' =>
      (if Ascii.eqb c sep && negb (String.eqb pre EmptyString)
       then [pre] else [])
      ++ ancestors_from (pre ++ String c EmptyString) s'
  end.

Definition ancestors (p : string) : list string := ancestors_from "" p.

End Fs.

(** ** Effects: state, early [return], exceptions *)

Module Run.

Inductive exn : Type :=
| FileNotFoundError
| IsADirectoryError
| NotADirectoryError
| FileExistsError
| SameFileError
| OSError.

(** What the program prints, with the values its f-strings interpolate,
    and the prompt of [input].  [EvPlaced] is the line "original ->
    new_name" of a successful copy, with the counter that numbered it. *)
Inductive event : Type :=
| EvPrompt (cbz_filename : string)
| EvCancelled
| EvCoverNotFound (cover_image_path : string)
| EvCoverBadFormat (ext : string)
| EvUsingCover (cover_image_path : string)
| EvCreatedTemp (output_path : string)
| EvNoChapters (start_chapter end_chapter : Z)
| EvFound (chapter_nums : list Z)
| EvPlaced (original : string) (page_counter : nat) (new_name : string)
    (is_cover : bool)
| EvCoverCopyError
| EvCopyError (original_name : string)
| EvReadError (folder_path : string)
| EvNoImages (chapter_num : Z)
| EvCreatingCbz (cbz_filename : string)
| EvAdded (arcname : string)
| EvSuccess (total_pages : nat)
| EvCleanup
| EvCbzError.

(** What can go wrong in an archive write from outside the program. *)
Inductive zip_fault : Type :=
| NoFault
| OpenFails
| WriteFails (k : nat).

(** The outside world of one run: the answer typed at the prompt, and the
    failures of the operating system that the file system model does not
    decide.  [copy_fault src dst = Some partial] makes [shutil.copy2 src dst]
    raise, leaving [partial] at [dst] when it is [Some]. *)
Record env : Type := {
  response : string;
  listdir_fault : string -> bool;
  copy_fault : string -> string -> option (option Fs.content);
  archive_fault : zip_fault
}.

Record world : Type := {
  files : Fs.t;
  log : list event
}.

(** How a block of statements of a function ends: it falls through with
    a value, it executes [return r], or it raises. *)
Inductive result (R A : Type) : Type :=
| Normal (a : A)
| Return (r : R)
| Raise (e : exn).
Arguments Normal {R A} a.
Arguments Return {R A} r.
Arguments Raise {R A} e.

(** Statements inside a function that returns an [R]. *)
Definition M (R A : Type) : Type := world -> result R A * world.

Definition ret {R A : Type} (a : A) : M R A := fun w => (Normal a, w).

Definition bind {R A B : Type} (m : M R A) (k : A -> M R B) : M R B :=
  fun w =>
    match m w with
    | (Normal a, w') => k a w'
    | (Return r, w') => (Return r, w')
    | (Raise e, w') => (Raise e, w')
    end.

(** [return r]. *)
Definition return_ {R A : Type} (r : R) : M R A := fun w => (Return r, w).

Definition raise {R A : Type} (e : exn) : M R A := fun w => (Raise e, w).

(** [try: m except Exception: h]. *)
Definition try_except {R A : Type} (m : M R A) (h : exn -> M R A) : M R A :=
  fun w =>
    match m w with
    | (Raise e, w') => h e w'
    | r => r
    end.

(** A call of the function whose body is [body], the value of the body
    being what its last statement returns: the call evaluates to the
    returned value, or raises. *)
Definition call {R R' : Type} (body : M R R) : M R' R :=
  fun w =>
    match body w with
    | (Normal r, w') => (Normal r, w')
    | (Return r, w') => (Normal r, w')
    | (Raise e, w') => (Raise e, w')
    end.

(** [wp m N Rt Ex w]: run from [w], [m] ends in a world that satisfies
    [N], [Rt] or [Ex] according to how it ends. *)
Definition wp {R A : Type} (m : M R A) (N : A -> world -> Prop)
    (Rt : R -> world -> Prop) (Ex : exn -> world -> Prop) (w : world) : Prop :=
  match m w with
  | (Normal a, w') => N a w'
  | (Return r, w') => Rt r w'
  | (Raise e, w') => Ex e w'
  end.

Definition get_files {R : Type} : M R Fs.t := fun w => (Normal (files w), w).

Definition put_files {R : Type} (fs : Fs.t) : M R unit :=
  fun w => (Normal tt, {| files := fs; log := log w |}).

Definition print {R : Type} (ev : event) : M R unit :=
  fun w => (Normal tt, {| files := files w; log := (log w ++ [ev])%list |}).

End Run.

Declare Scope run_scope.
Delimit Scope run_scope with run.
Notation "x <- m ;; k" := (Run.bind m (fun x => k))
  (at level 100, m at next level, right associativity) : run_scope.
Notation "m ;; k" := (Run.bind m (fun _ => k))
  (at level 100, right associativity) : run_scope.

(** ** Operating system calls *)

Module Os.
Import PyStr OsPath Run.
Local Open Scope run_scope.

Section WithEnv.
Variable E : env.
Context {R : Type}.

(** [input(prompt)]. *)
Definition input (cbz_filename : string) : M R string :=
  print (EvPrompt cbz_filename) ;; ret (response E).

Definition path_exists (p : string) : M R bool :=
  fs <- get_files ;; ret (Fs.exists_ p fs).

(** [os.remove(p)]. *)
Definition remove (p : string) : M R unit :=
  fs <- get_files ;;
  match Fs.lookup p fs with
  | Some (Fs.File _) => put_files (Fs.remove p fs)
  | Some Fs.Dir => raise IsADirectoryError
  | None => raise FileNotFoundError
  end.

(** [shutil.rmtree(p)] on a path whose last component names the
    directory.  On a path that ends in "." or ".." the function empties
    the directory and then raises, since [os.rmdir] refuses the path;
    this is not modelled, and the statements about runs that remove a
    staging directory named by the caller assume [Spec.own_folder]. *)
Definition rmtree (p : string) : M R unit :=
  fs <- get_files ;;
  match Fs.lookup p fs with
  | Some Fs.Dir => put_files (Fs.remove_tree p fs)
  | Some (Fs.File _) => raise NotADirectoryError
  | None => raise FileNotFoundError
  end.

(** One [os.mkdir] of [os.makedirs] for a parent: nothing to do when the
    directory is there. *)
Definition mkdir_parent (p : string) : M R unit :=
  fs <- get_files ;;
  match Fs.lookup p fs with
  | None => put_files (Fs.write p Fs.Dir fs)
  | Some Fs.Dir => ret tt
  | Some (Fs.File _) => raise NotADirectoryError
  end.

Fixpoint mkdir_parents (ps : list string) : M R unit :=
  match ps with
  | [] => ret tt
  | p :: ps' => mkdir_parent p ;; mkdir_parents ps'
  end.

(** [os.makedirs(p)]: the missing parents, then [p], which must not
    exist. *)
Definition makedirs (p : string) : M R unit :=
  mkdir_parents (Fs.ancestors p) ;;
  fs <- get_files ;;
  match Fs.lookup p fs with
  | None => put_files (Fs.write p Fs.Dir fs)
  | Some _ => raise FileExistsError
  end.

(** [os.listdir(p)]. *)
Definition listdir (p : string) : M R (list string) :=
  fs <- get_files ;;
  match Fs.lookup p fs with
  | Some Fs.Dir =>
      if listdir_fault E p then raise OSError else ret (Fs.entries p fs)
  | Some (Fs.File _) => raise NotADirectoryError
  | None => raise FileNotFoundError
  end.

(** [shutil.copy2(src, dst)]: a destination that is a directory receives
    the file under the source's base name. *)
Definition copy2 (src dst : string) : M R unit :=
  fs <- get_files ;;
  match copy_fault E src dst with
  | Some partial =>
      match partial with
      | Some c => put_files (Fs.write dst (Fs.File c) fs)
      | None => ret tt
      end ;;
      raise OSError
  | None =>
      match Fs.lookup src fs with
      | Some (Fs.File c) =>
          let dst' :=
            if Fs.isdir dst fs then join dst (basename src) else dst in
          if String.eqb src dst' then raise SameFileError
          else put_files (Fs.write dst' (Fs.File c) fs)
      | Some Fs.Dir => raise IsADirectoryError
      | None => raise FileNotFoundError
      end
  end.

(** [zipfile.ZipFile(p, 'w', ...)]: the file is created empty, or
    truncated. *)
Definition zip_open (p : string) : M R unit :=
  fs <- get_files ;;
  match archive_fault E with
  | OpenFails => raise OSError
  | _ =>
      if Fs.isdir p fs then raise IsADirectoryError
      else put_files (Fs.write p (Fs.File (Fs.Cbz [])) fs)
  end.

(** [cbz_file.write(file_path, arcname)] for the member number [i] of the
    archive at [p]. *)
Definition zip_write (p : string) (i : nat) (file_path arcname : string)
    : M R unit :=
  fs <- get_files ;;
  match archive_fault E with
  | WriteFails k =>
      if Nat.eqb k i then raise OSError else ret tt
  | _ => ret tt
  end ;;
  match Fs.lookup file_path fs, Fs.lookup p fs with
  | Some (Fs.File c), Some (Fs.File (Fs.Cbz ms)) =>
      put_files (Fs.write p (Fs.File (Fs.Cbz (ms ++ [(arcname, c)]))) fs)
  | Some Fs.Dir, _ => raise IsADirectoryError
  | _, _ => raise FileNotFoundError
  end.

End WithEnv.
End Os.

(** ** The program *)

Module VolumeMaker.
Import PyStr OsPath Run.
Local Open Scope run_scope.

(** [list.sort(key=...)]: a stable sort by an integer key.  Insertion from
    the right puts an element before the first one whose key is not
    smaller, so equal keys keep their order. *)
Section Sort.
Context {A : Type} (key : A -> Z).

Fixpoint insert_by (x : A) (l : list A) : list A :=
  match l with
  | [] => [x]
  | y :: l' => if (key x <=? key y)%Z then x :: y :: l' else y :: insert_by x l'
  end.

Fixpoint sort_by (l : list A) : list A :=
  match l with
  | [] => []
  | x :: l' => insert_by x (sort_by l')
  end.

End Sort.

Definition image_extensions : list string :=
  [".jpg"; ".jpeg"; ".png"; ".gif"; ".bmp"; ".webp"].

(** [ext in image_extensions]. *)
Definition is_image_extension (ext : string) : bool :=
  existsb (String.eqb ext) image_extensions.

(** The sort key of [get_image_files]. *)
Definition extract_number (filename : string) : Z :=
  match Re.search_digits filename with
  | Some g => int_digits g
  | None => 0%Z
  end.

(** The page counters of [merge_chapters]. *)
Record counters : Type := {
  page_counter : nat;
  total_pages : nat
}.

Definition advance (st : counters) : counters :=
  {| page_counter := page_counter st + 1; total_pages := total_pages st + 1 |}.

(** [if cover_image_path:] is false for [None] and for the empty string. *)
Definition given (cover_image_path : option string) : option string :=
  match cover_image_path with
  | Some EmptyString => None
  | c => c
  end.

Section WithEnv.
Variable E : env.

(** The body of the loop of [find_chapter_folders] for one entry. *)
Definition chapter_of (fs : Fs.t) (base_path : string)
    (start_chapter end_chapter : Z) (item : string) : option (Z * string) :=
  let item_path := join base_path item in
  if Fs.isdir item_path fs then
    match Re.match_chapter item with
    | Some g =>
        let chapter_num := int_digits g in
        if ((start_chapter <=? chapter_num) && (chapter_num <=? end_chapter))%Z
        then Some (chapter_num, item_path)
        else None
    | None => None
    end
  else None.

Definition find_chapter_folders {R : Type} (base_path : string)
    (start_chapter end_chapter : Z) : M R (list (Z * string)) :=
  call
    (items <- Os.listdir E base_path ;;
     fs <- get_files ;;
     let chapter_folders :=
       Fs.filter_map (chapter_of fs base_path start_chapter end_chapter) items in
     ret (sort_by fst chapter_folders)).

(** The body of the loop of [get_image_files] for one entry. *)
Definition image_of (fs : Fs.t) (folder_path file : string)
    : option (string * string) :=
  let file_path := join folder_path file in
  if Fs.isfile file_path fs then
    let ext := snd (splitext (lower file)) in
    if is_image_extension ext then Some (file, file_path) else None
  else None.

Definition get_image_files {R : Type} (folder_path : string)
    : M R (list (string * string)) :=
  call
    (image_files <-
       try_except
         (items <- Os.listdir E folder_path ;;
          fs <- get_files ;;
          ret (Fs.filter_map (image_of fs folder_path) items))
         (fun _ => print (EvReadError folder_path) ;; return_ []) ;;
     ret (sort_by (fun x => extract_number (fst x)) image_files)).

(** A [for] loop over [l] whose body updates the local variables [s]. *)
Fixpoint for_each {R S X : Type} (body : S -> X -> M R S) (l : list X) (s : S)
    : M R S :=
  match l with
  | [] => ret s
  | x :: l' => s' <- body s x ;; for_each body l' s'
  end.

Definition default_output_folder (start_chapter end_chapter : Z) : string :=
  if (start_chapter =? end_chapter)%Z
  then "Chapter_" ++ str_of_Z start_chapter ++ "_merged"
  else "Chapters_" ++ str_of_Z start_chapter ++ "-" ++ str_of_Z end_chapter
       ++ "_merged".

(** Lines 85-91: an archive already at the target path. *)
Definition confirm_overwrite (cbz_filename cbz_path : string) : M bool unit :=
  found <- Os.path_exists cbz_path ;;
  if found then
    answer <- Os.input E cbz_filename ;;
    if negb (String.eqb (lower answer) "y")
    then print EvCancelled ;; return_ false
    else Os.remove cbz_path
  else ret tt.

(** Lines 93-106: the cover image, when one is given. *)
Definition validate_cover (cover_image_path : option string) : M bool unit :=
  match given cover_image_path with
  | Some cover =>
      found <- Os.path_exists cover ;;
      if negb found then print (EvCoverNotFound cover) ;; return_ false
      else
        let ext := snd (splitext (lower cover)) in
        if negb (is_image_extension ext)
        then print (EvCoverBadFormat ext) ;; return_ false
        else print (EvUsingCover cover)
  | None => ret tt
  end.

(** Lines 108-113: the temporary output directory. *)
Definition create_staging (output_path : string) : M bool unit :=
  found <- Os.path_exists output_path ;;
  (if found then Os.rmtree output_path else ret tt) ;;
  Os.makedirs output_path ;;
  print (EvCreatedTemp output_path).

(** Lines 115-125: the chapters of the range. *)
Definition locate_chapters (base_path : string) (start_chapter end_chapter : Z)
    : M bool (list (Z * string)) :=
  chapter_folders <- find_chapter_folders base_path start_chapter end_chapter ;;
  match chapter_folders with
  | [] => print (EvNoChapters start_chapter end_chapter) ;; return_ false
  | _ => print (EvFound (map fst chapter_folders)) ;; ret chapter_folders
  end.

(** Lines 127-144: the cover becomes the first page. *)
Definition place_cover (output_path : string) (cover_image_path : option string)
    (st : counters) : M bool counters :=
  match given cover_image_path with
  | Some cover =>
      let ext := snd (splitext (lower cover)) in
      let cover_name := fmt03d (page_counter st) ++ ext in
      let cover_dest := join output_path cover_name in
      try_except
        (Os.copy2 E cover cover_dest ;;
         print (EvPlaced cover (page_counter st) cover_name true) ;;
         ret (advance st))
        (fun _ => print EvCoverCopyError ;; return_ false)
  | None => ret st
  end.

(** Lines 160-174: one page of a chapter. *)
Definition copy_page (output_path : string) (st : counters)
    (image : string * string) : M bool counters :=
  let original_name := fst image in
  let original_path := snd image in
  let ext := snd (splitext (lower original_name)) in
  let new_name := fmt03d (page_counter st) ++ ext in
  let new_path := join output_path new_name in
  try_except
    (Os.copy2 E original_path new_path ;;
     print (EvPlaced original_name (page_counter st) new_name false) ;;
     ret (advance st))
    (fun _ => print (EvCopyError original_name) ;; ret st).

(** Lines 147-174: one chapter. *)
Definition process_chapter (output_path : string) (st : counters)
    (chapter : Z * string) : M bool counters :=
  let chapter_num := fst chapter in
  let folder_path := snd chapter in
  image_files <- get_image_files folder_path ;;
  match image_files with
  | [] => print (EvNoImages chapter_num) ;; ret st
  | _ => for_each (copy_page output_path) image_files st
  end.

(** Lines 127-175: the cover, then the pages of every chapter, numbered
    from 1. *)
Definition place_pages (output_path : string) (cover_image_path : option string)
    (chapter_folders : list (Z * string)) : M bool counters :=
  st <- place_cover output_path cover_image_path
          {| page_counter := 1; total_pages := 0 |} ;;
  for_each (process_chapter output_path) chapter_folders st.

(** Lines 180-185: one file found by [os.walk]; the local variable is the
    number of members written so far. *)
Definition add_member (cbz_path : string) (i : nat) (f : string * string)
    : M bool nat :=
  Os.zip_write E cbz_path i (fst f) (snd f) ;;
  print (EvAdded (snd f)) ;;
  ret (S i).

(** Lines 176-209: the archive and the removal of the temporary
    directory.  An exception inside [with] closes the archive file, which
    keeps the members written until then. *)
Definition create_cbz (output_path cbz_filename cbz_path : string)
    (st : counters) : M bool bool :=
  print (EvCreatingCbz cbz_filename) ;;
  try_except
    (Os.zip_open E cbz_path ;;
     fs <- get_files ;;
     for_each (add_member cbz_path) (Fs.walk_files output_path fs) 0 ;;
     print (EvSuccess (total_pages st)) ;;
     print EvCleanup ;;
     Os.rmtree output_path ;;
     ret true)
    (fun _ =>
       print EvCbzError ;;
       found <- Os.path_exists output_path ;;
       (if found then Os.rmtree output_path else ret tt) ;;
       ret false).

Definition merge_chapters_body (base_path : string)
    (start_chapter end_chapter : Z) (output_folder : option string)
    (cover_image_path : option string) : M bool bool :=
  let output_folder :=
    match output_folder with
    | None => default_output_folder start_chapter end_chapter
    | Some name => name
    end in
  let output_path := join base_path output_folder in
  let cbz_filename := output_folder ++ ".cbz" in
  let cbz_path := join base_path cbz_filename in
  confirm_overwrite cbz_filename cbz_path ;;
  validate_cover cover_image_path ;;
  create_staging output_path ;;
  chapter_folders <- locate_chapters base_path start_chapter end_chapter ;;
  st <- place_pages output_path cover_image_path chapter_folders ;;
  create_cbz output_path cbz_filename cbz_path st.

Definition merge_chapters {R : Type} (base_path : string)
    (start_chapter end_chapter : Z) (output_folder : option string)
    (cover_image_path : option string) : M R bool :=
  call (merge_chapters_body base_path start_chapter end_chapter
          output_folder cover_image_path).

End WithEnv.

(** *** The command line *)

Fixpoint lstrip (s : string) : string :=
  match s with
  | EmptyString => EmptyString
  | String c s' => if is_space c then lstrip s' else s
  end.

Fixpoint rstrip (s : string) : string :=
  match s with
  | EmptyString => EmptyString
  | String c s' =>
      match rstrip s' with
      | EmptyString => if is_space c then EmptyString else String c EmptyString
      | r => String c r
      end
  end.

(** Decimal digits with single underscores between them. *)
Fixpoint int_body (after_digit : bool) (acc : Z) (s : string) : option Z :=
  match s with
  | EmptyString => if after_digit then Some acc else None
  | String c s' =>
      if is_decimal c then int_body true (10 * acc + digit_value c) s'
      else if Ascii.eqb c "_" && after_digit then int_body false acc s'
      else None
  end.

(** [int(s)] for a string: [None] stands for [ValueError].  White space
    around the literal, a sign, and underscores between digits are
    accepted.  The interpreter's limit on the number of digits is left
    out. *)
Definition py_int (s : string) : option Z :=
  match rstrip (lstrip s) with
  | String "-" s' => option_map Z.opp (int_body false 0 s')
  | String "+" s' => int_body false 0 s'
  | s' => int_body false 0 s'
  end.

(** The local variables of [main] that hold the arguments. *)
Record arguments : Type := {
  cover_image_path : option string;
  start_chapter : option Z;
  end_chapter : option Z;
  output_folder : option string
}.

(** How the argument handling of [main] ends (lines 215-256). *)
Inductive parsed : Type :=
| ExitUsage
| ExitNotEnough
| ExitEndRequired
| ExitNotIntegers
| ExitStartAfterEnd
| CallMerge.

Definition no_arguments : arguments :=
  {| cover_image_path := None; start_chapter := None;
     end_chapter := None; output_folder := None |}.

(** The chapter numbers and the output name read from [rest]: the
    assignments of lines 242-244 and 247-252, [int] raising [ValueError]
    where it cannot parse. *)
Definition read_range (cover : option string) (first second : string)
    (name : option string) : arguments * parsed :=
  match py_int first with
  | None =>
      ({| cover_image_path := cover; start_chapter := None;
          end_chapter := None; output_folder := None |}, ExitNotIntegers)
  | Some s =>
      match py_int second with
      | None =>
          ({| cover_image_path := cover; start_chapter := Some s;
              end_chapter := None; output_folder := None |}, ExitNotIntegers)
      | Some e =>
          ({| cover_image_path := cover; start_chapter := Some s;
              end_chapter := Some e; output_folder := name |},
           if (e <? s)%Z then ExitStartAfterEnd else CallMerge)
      end
  end.

(** Lines 215-256 of [main] on [sys.argv[1:]]: the values of the local
    variables when the argument handling ends, and how it ends. *)
Definition main_arguments (args : list string) : arguments * parsed :=
  match args with
  | [] | [_] => (no_arguments, ExitUsage)
  | first :: rest =>
      if negb (isdigit first) then
        match rest with
        | a1 :: a2 :: rest' => read_range (Some first) a1 a2 (nth_error rest' 0)
        | _ =>
            ({| cover_image_path := Some first; start_chapter := None;
                end_chapter := None; output_folder := None |}, ExitNotEnough)
        end
      else
        match rest with
        | a1 :: rest' => read_range None first a1 (nth_error rest' 0)
        | [] =>
            match py_int first with
            | None => (no_arguments, ExitNotIntegers)
            | Some s =>
                ({| cover_image_path := None; start_chapter := Some s;
                    end_chapter := None; output_folder := None |},
                 ExitEndRequired)
            end
        end
  end.

End VolumeMaker.

(** ** Vocabulary of the statements *)

Module Spec.
Import PyStr OsPath Run VolumeMaker.

(** The head of a string is what [s[:1]] sees. *)
Definition head_is (p : ascii -> bool) (s : string) : bool :=
  match s with
  | EmptyString => false
  | String c _ => p c
  end.

(** What [re.match(r'Chapter (\d+)', item)] accepts, spelled out: the
    literal prefix, one or more decimal digits, then anything that does
    not continue the digits. *)
Definition chapter_name (item : string) (ds : string) : Prop :=
  exists rest, item = "Chapter " ++ ds ++ rest
               /\ ds <> "" /\ forallb_str is_decimal ds = true
               /\ head_is is_decimal rest = false.

(** Ascending order of the sort keys. *)
Definition key_le {A : Type} (key : A -> Z) (a b : A) : Prop :=
  (key a <= key b)%Z.

(** A directory that [os.listdir] can read. *)
Definition readable (E : env) (d : string) (fs : Fs.t) : bool :=
  Fs.isdir d fs && negb (listdir_fault E d).

(** The entries of [base_path] that are chapters of the range: a
    directory whose name starts with "Chapter ", then digits, the number
    they spell being [n]. *)
Definition is_chapter (fs : Fs.t) (base_path : string) (s e : Z)
    (n : Z) (p : string) : Prop :=
  exists item ds,
    In item (Fs.entries base_path fs)
    /\ Fs.isdir (join base_path item) fs = true
    /\ chapter_name item ds
    /\ n = int_digits ds /\ (s <= n <= e)%Z
    /\ p = join base_path item.

(** The extension of a file name, compared without regard to case. *)
Definition has_image_extension (name : string) : bool :=
  existsb (String.eqb (lower (snd (splitext name)))) image_extensions.

(** An entry of [folder] that is a page: a regular file with an image
    extension. *)
Definition page_ok (fs : Fs.t) (folder name : string) : bool :=
  Fs.isfile (join folder name) fs && has_image_extension name.

(** The pages of [folder] in the order the directory enumerates them. *)
Definition listed_pages (fs : Fs.t) (folder : string)
    : list (string * string) :=
  map (fun name => (name, join folder name))
      (filter (page_ok fs folder) (Fs.entries folder fs)).

(** A path that lies strictly inside directory [d]. *)
Definition inside (d q : string) : bool :=
  Fs.below d q && negb (String.eqb q d).

(** A path where [merge_chapters] stages a page of the output directory
    [d]: inside [d], the part after the directory starting with a digit. *)
Definition staged (d q : string) : bool :=
  match strip_prefix (Fs.dir_prefix d) q with
  | Some (String c _) => is_decimal c
  | _ => false
  end.

(** [q] is a prefix of [p]. *)
Definition is_prefix (q p : string) : bool := startswith p q.

(** An output name that is not empty and does not end with a separator:
    the archive path is then the staging path with ".cbz" appended. *)
Definition plain_name (name : string) : bool :=
  negb (String.eqb name "") && negb (endswith_char name sep).

(** A path component that names a directory entry: not empty, and neither
    "." nor "..". *)
Definition names_entry (c : string) : bool :=
  negb (String.eqb c "") && negb (String.eqb c ".") && negb (String.eqb c "..").

(** An output name whose last component names a folder of its own.  Under
    such a name the staging directory is an entry of its parent, which
    [shutil.rmtree] can remove, and the archive is its sibling.  Under a
    name such as "x/." the archive would lie inside the staging directory
    and [os.rmdir] would refuse the path. *)
Definition own_folder (name : string) : bool := names_entry (basename name).

(** The components of a path: the strings between its separators. *)
Fixpoint components (p : string) : list string :=
  match p with
  | EmptyString => [EmptyString]
  | String c p' =>
      if Ascii.eqb c sep then EmptyString :: components p'
      else
        match components p' with
        | x :: l => String c x :: l
        | [] => [String c EmptyString]
        end
  end.

(** An absolute path in resolved form, as [os.path.abspath] returns it:
    the root, or a separator before each of its components, all of which
    name entries.  The file system binds such paths, and for them the
    string is the place. *)
Definition normal_path (p : string) : bool :=
  match components p with
  | EmptyString :: c :: l =>
      forallb names_entry (c :: l) || String.eqb p (String sep EmptyString)
  | _ => false
  end.

(** The output name [merge_chapters] works with. *)
Definition output_name (output_folder : option string)
    (start_chapter end_chapter : Z) : string :=
  match output_folder with
  | None => default_output_folder start_chapter end_chapter
  | Some name => name
  end.

(** Nothing lies inside a directory that does not exist. *)
Definition no_orphans (d : string) (fs : Fs.t) : Prop :=
  Fs.lookup d fs = None ->
  forall q, Fs.below d q = true -> Fs.lookup q fs = None.

(** The page numbers of the successful copies, in the order they were
    made. *)
Definition placed_index (ev : event) : option nat :=
  match ev with
  | EvPlaced _ i _ _ => Some i
  | _ => None
  end.

Definition placed_indices (evs : list event) : list nat :=
  Fs.filter_map placed_index evs.

(** An attempt to copy a file, successful or not. *)
Definition is_copy_event (ev : event) : bool :=
  match ev with
  | EvPlaced _ _ _ _ | EvCopyError _ | EvCoverCopyError => true
  | _ => false
  end.

(** The events of lines 85-125, before any page is handled. *)
Definition pre_event (ev : event) : Prop :=
  match ev with
  | EvPrompt _ | EvCancelled | EvCoverNotFound _ | EvCoverBadFormat _
  | EvUsingCover _ | EvCreatedTemp _ | EvNoChapters _ _ | EvFound _ => True
  | _ => False
  end.

(** The same without the list of the chapters found. *)
Definition early_event (ev : event) : Prop :=
  match ev with
  | EvPrompt _ | EvCancelled | EvCoverNotFound _ | EvCoverBadFormat _
  | EvUsingCover _ | EvCreatedTemp _ | EvNoChapters _ _ => True
  | _ => False
  end.

(** The events of lines 127-175; a placed file is named by its page
    number and the lower-cased extension of the original, and the cover
    is page 1. *)
Definition place_event (ev : event) : Prop :=
  match ev with
  | EvPlaced original i new_name is_cover =>
      new_name = fmt03d i ++ lower (snd (splitext original))
      /\ (is_cover = true -> i = 1)
  | EvCoverCopyError | EvCopyError _ | EvReadError _ | EvNoImages _ => True
  | _ => False
  end.

(** The events of lines 176-209. *)
Definition cbz_event (ev : event) : Prop :=
  match ev with
  | EvCreatingCbz _ | EvAdded _ | EvSuccess _ | EvCleanup | EvCbzError => True
  | _ => False
  end.

(** The state of the page loop after [n] successful copies, seen from the
    world [w0] in which it started: the events logged since then, the
    numbers given to the copies, and the files, which differ from those of
    [w0] at staged paths only and not at all before the first attempt to
    copy. *)
Definition placing (d : string) (w0 : world) (n : nat) (w : world) : Prop :=
  exists evs,
    log w = (log w0 ++ evs)%list
    /\ Forall place_event evs
    /\ placed_indices evs = seq 1 n
    /\ (forall q, staged d q = false ->
                  Fs.lookup q (files w) = Fs.lookup q (files w0))
    /\ (existsb is_copy_event evs = false -> files w = files w0).

(** What [os.makedirs d] does to the files: every path denotes what it
    did, or is a prefix of [d] that was missing and is now a directory. *)
Definition made (d : string) (fs fs' : Fs.t) : Prop :=
  forall q,
    Fs.lookup q fs' = Fs.lookup q fs
    \/ (Fs.lookup q fs = None /\ Fs.lookup q fs' = Some Fs.Dir
        /\ is_prefix q d = true).

(** The files once an existing staging directory has been removed. *)
Definition staging_base (d : string) (fs : Fs.t) : Fs.t :=
  if Fs.exists_ d fs then Fs.remove_tree d fs else fs.

(** Lines 85-175 of [merge_chapters]: everything before the archive. *)
Definition prepare (E : env) (base_path : string)
    (start_chapter end_chapter : Z) (name : string)
    (cover_image_path : option string) : M bool counters :=
  Run.bind
    (confirm_overwrite E (name ++ ".cbz") (join base_path (name ++ ".cbz")))
    (fun _ => Run.bind (validate_cover cover_image_path)
    (fun _ => Run.bind (create_staging (join base_path name))
    (fun _ => Run.bind (locate_chapters E base_path start_chapter end_chapter)
    (fun chapter_folders =>
       place_pages E (join base_path name) cover_image_path chapter_folders)))).

(** The files after the question about an existing archive was passed:
    there was no archive, or it was a file, the answer was yes and it is
    removed. *)
Definition confirmed (E : env) (cbz : string) (fs0 fs1 : Fs.t) : Prop :=
  (Fs.lookup cbz fs0 = None /\ fs1 = fs0)
  \/ (exists c, Fs.lookup cbz fs0 = Some (Fs.File c)
                /\ lower (response E) = "y" /\ fs1 = Fs.remove cbz fs0).

(** A path that denoted nothing still does, unless it is a staged page or
    a prefix of the staging path. *)
Definition absent_kept (d : string) (fs fs' : Fs.t) : Prop :=
  forall q, Fs.lookup q fs = None -> staged d q = false ->
            is_prefix q d = false -> Fs.lookup q fs' = None.

(** The run reached the archive step with counters [st] in world [w]. *)
Definition ready (E : env) (d cbz : string) (w0 : world) (st : counters)
    (w : world) : Prop :=
  exists fs1 fs2 pre pages,
    confirmed E cbz (files w0) fs1
    /\ made d (staging_base d fs1) fs2
    /\ Fs.lookup d fs2 = Some Fs.Dir
    /\ log w = (log w0 ++ pre ++ pages)%list
    /\ Forall pre_event pre /\ Forall place_event pages
    /\ placed_indices pages = seq 1 (total_pages st)
    /\ (forall q, staged d q = false -> Fs.lookup q (files w) = Fs.lookup q fs2)
    /\ (existsb is_copy_event pages = false -> files w = fs2).

(** The run ended before the archive step, in world [w]. *)
Definition stopped (E : env) (d cbz : string) (w0 w : world) : Prop :=
  exists pre pages,
    log w = (log w0 ++ pre ++ pages)%list
    /\ Forall pre_event pre /\ Forall place_event pages
    /\ placed_indices pages = []
    /\ (Forall early_event pre \/ existsb is_copy_event pages = true)
    /\ ((files w = files w0
         /\ Fs.lookup cbz (files w0) <> None
         /\ (lower (response E) <> "y"
             \/ Fs.lookup cbz (files w0) = Some Fs.Dir))
        \/ (exists fs1, confirmed E cbz (files w0) fs1
                        /\ absent_kept d fs1 (files w))).

(** The names of the members the archive step reports as added. *)
Definition added_name (ev : event) : option string :=
  match ev with
  | EvAdded arcname => Some arcname
  | _ => None
  end.

Definition added_names (evs : list event) : list string :=
  Fs.filter_map added_name evs.

(** The key of a page in the sort of [get_image_files]. *)
Definition page_key (x : string * string) : Z := extract_number (fst x).

End Spec.

(** ** Sample runs *)

Module Samples.
Import Run.

(** An outside world in which nothing fails and the prompt is answered
    with "y". *)
Definition calm : env :=
  {| response := "y";
     listdir_fault := fun _ => false;
     copy_fault := fun _ _ => None;
     archive_fault := NoFault |}.

(** A library with two chapters, a stray file and a cover. *)
Definition library : Fs.t :=
  [ ("/m", Fs.Dir);
    ("/m/Chapter 10", Fs.Dir);
    ("/m/Chapter 2", Fs.Dir);
    ("/m/Chapter 3", Fs.File (Fs.Bytes "not a folder"));
    ("/m/Notes", Fs.Dir);
    ("/m/Chapter 2/p2.PNG", Fs.File (Fs.Bytes "b"));
    ("/m/Chapter 2/p1.jpg", Fs.File (Fs.Bytes "a"));
    ("/m/Chapter 2/notes.txt", Fs.File (Fs.Bytes "n"));
    ("/m/Chapter 2/extras", Fs.Dir);
    ("/m/Chapter 10/10.jpg", Fs.File (Fs.Bytes "d"));
    ("/m/Chapter 10/9.jpg", Fs.File (Fs.Bytes "c"));
    ("/c.jpg", Fs.File (Fs.Bytes "cover")) ].

Definition start (fs : Fs.t) : world := {| files := fs; log := [] |}.

(** The library with the leftovers of an earlier run at the staging path
    of the output name "vol". *)
Definition library_with_leftovers : Fs.t :=
  (library ++ [ ("/m/vol", Fs.Dir);
                ("/m/vol/001.jpg", Fs.File (Fs.Bytes "old"));
                ("/m/vol/keep", Fs.Dir);
                ("/m/vol/keep/me.txt", Fs.File (Fs.Bytes "mine")) ])%list.

(** The library with an archive of an earlier run. *)
Definition library_with_archive : Fs.t :=
  (library
   ++ [ ("/m/vol.cbz", Fs.File (Fs.Cbz [("001.jpg", Fs.Bytes "old")])) ])%list.

(** A base directory whose only chapter has no image. *)
Definition empty_chapter : Fs.t :=
  [ ("/m", Fs.Dir);
    ("/m/Chapter 1", Fs.Dir);
    ("/m/Chapter 1/readme.txt", Fs.File (Fs.Bytes "soon")) ].

(** An outside world in which the second member of the archive cannot be
    written. *)
Definition disk_full : env :=
  {| response := "y";
     listdir_fault := fun _ => false;
     copy_fault := fun _ _ => None;
     archive_fault := WriteFails 1 |}.

(** An outside world in which the cover cannot be copied. *)
Definition cover_unreadable : env :=
  {| response := "y";
     listdir_fault := fun _ => false;
     copy_fault :=
       fun src _ => if String.eqb src "/c.jpg" then Some None else None;
     archive_fault := NoFault |}.

End Samples.

(** ** The entry point *)

Module EntryPoint.
Import PyStr OsPath Run VolumeMaker.

(** What [main] takes from the process it runs in: the directory of the
    script, [os.path.dirname(os.path.abspath(__file__))], and
    [os.path.abspath], which resolves a path against the working
    directory. *)
Record process : Type := {
  script_dir : string;
  abspath : string -> string
}.

(** [os.path.isabs(p)]. *)
Definition isabs (p : string) : bool := startswith p (String sep EmptyString).

(** Lines 258-261: a cover path that is given and relative is made
    absolute. *)
Definition resolve_cover (P : process) (cover_image_path : option string)
    : option string :=
  match cover_image_path with
  | Some c =>
      if negb (String.eqb c "") && negb (isabs c) then Some (abspath P c)
      else Some c
  | None => None
  end.

(** [main] on [sys.argv[1:]]: the exit status of the process and the world
    it leaves.  Every [sys.exit] of the argument handling has status 1;
    an exception out of [merge_chapters] is caught by [except Exception],
    which exits with 1 as well.  The lines [main] prints itself are not
    logged. *)
Definition main (P : process) (E : env) (args : list string)
    : world -> Z * world :=
  fun w =>
    match main_arguments args with
    | (a, CallMerge) =>
        match start_chapter a, end_chapter a with
        | Some s, Some e =>
            match @merge_chapters E unit (script_dir P) s e (output_folder a)
                    (resolve_cover P (cover_image_path a)) w with
            | (Normal true, w') => (0%Z, w')
            | (_, w') => (1%Z, w')
            end
        | _, _ => (1%Z, w)
        end
    | (_, _) => (1%Z, w)
    end.

End EntryPoint.

(** ** Vocabulary of the statements about a finished volume *)

Module Volume.
Import PyStr OsPath Run VolumeMaker Spec.

(** The names given to the successful copies, in the order they were
    made. *)
Definition placed_name (ev : event) : option string :=
  match ev with
  | EvPlaced _ _ new_name _ => Some new_name
  | _ => None
  end.

Definition placed_names (evs : list event) : list string :=
  Fs.filter_map placed_name evs.

(** The names "001" ++ ext1, "002" ++ ext2, ... for a list of
    extensions. *)
Definition numbered (exts : list string) : list string :=
  map (fun ie => fmt03d (fst ie) ++ snd ie)
      (combine (seq 1 (length exts)) exts).

(** A placed file is named by its page number and one of the image
    extensions. *)
Definition image_named (ev : event) : Prop :=
  match ev with
  | EvPlaced _ i new_name _ =>
      exists ext, In ext image_extensions /\ new_name = fmt03d i ++ ext
  | _ => True
  end.

(** A copy that fails leaves nothing at its destination. *)
Definition no_partial_copies (E : env) : Prop :=
  forall src dst c, copy_fault E src dst <> Some (Some c).

(** The cover, when one is given, has passed the check of its
    extension. *)
Definition cover_valid (cover_image_path : option string) : Prop :=
  forall c, given cover_image_path = Some c ->
            is_image_extension (snd (splitext (lower c))) = true.

(** The state of the page loop after [n] successful copies into a staging
    directory [d] that was empty in [w0]: the regular files inside [d] are
    the copies, in the order they were made, and no staged path is a
    directory. *)
Definition shelved (d : string) (w0 : world) (n : nat) (w : world) : Prop :=
  exists evs,
    log w = (log w0 ++ evs)%list
    /\ Forall image_named evs
    /\ placed_indices evs = seq 1 n
    /\ map snd (Fs.walk_files d (files w)) = placed_names evs
    /\ (forall q, staged d q = true -> Fs.isdir q (files w) = false).


(** The events of lines 93-125, after the question about an existing
    archive. *)
Definition later_event (ev : event) : Prop :=
  match ev with
  | EvCoverNotFound _ | EvCoverBadFormat _ | EvUsingCover _
  | EvCreatedTemp _ | EvNoChapters _ _ | EvFound _ => True
  | _ => False
  end.

(** Any line but the prompt. *)
Definition unprompted (ev : event) : Prop :=
  match ev with
  | EvPrompt _ => False
  | _ => True
  end.

(** The prompt of line 87, issued when something is at the archive
    path. *)
Definition asked (cbz_filename cbz_path : string) (fs : Fs.t) : list event :=
  if Fs.exists_ cbz_path fs then [EvPrompt cbz_filename] else [].

(** A run that ended before the page loop.  Its files are those of the
    start, less the archive when its overwrite was confirmed, and with the
    staging directory cleared and made anew when the run got that far; its
    log is the prompt, if it was issued, and lines that are not prompts. *)
Definition halted (f d cbz : string) (w0 w : world) : Prop :=
  exists fs1 later,
    (fs1 = files w0 \/ fs1 = Fs.remove cbz (files w0))
    /\ (files w = fs1 \/ made d (staging_base d fs1) (files w))
    /\ log w = (log w0 ++ asked f cbz (files w0) ++ later)%list
    /\ Forall unprompted later.

(** The pages [get_image_files] returns for a folder. *)
Definition pages_of (E : env) (fs : Fs.t) (folder : string)
    : list (string * string) :=
  if readable E folder fs then sort_by page_key (listed_pages fs folder)
  else [].

(** The plan of the page loop: the cover, then the pages of each chapter,
    each with its name and its path. *)
Definition plan (E : env) (fs : Fs.t) (cover_image_path : option string)
    (chapter_folders : list (Z * string)) : list (string * string) :=
  (match given cover_image_path with Some c => [(c, c)] | None => [] end
   ++ concat (map (fun chapter => pages_of E fs (snd chapter)) chapter_folders))%list.

(** What a regular file holds. *)
Definition content_of (fs : Fs.t) (p : string) : Fs.content :=
  match Fs.lookup p fs with
  | Some (Fs.File c) => c
  | _ => Fs.Bytes ""
  end.

(** The copy of the file number [i] of a plan: its path in the staging
    directory and what it holds. *)
Definition staged_copy (d : string) (fs : Fs.t)
    (ix : nat * (string * string)) : string * Fs.node :=
  (join d (fmt03d (fst ix) ++ snd (splitext (lower (fst (snd ix))))),
   Fs.File (content_of fs (snd (snd ix)))).

(** The copies of a plan, numbered from 1. *)
Definition shelf (d : string) (fs : Fs.t) (l : list (string * string)) : Fs.t :=
  map (staged_copy d fs) (combine (seq 1 (length l)) l).

(** The names of the originals of the successful copies. *)
Definition placed_original (ev : event) : option string :=
  match ev with
  | EvPlaced original _ _ _ => Some original
  | _ => None
  end.

Definition placed_originals (evs : list event) : list string :=
  Fs.filter_map placed_original evs.

(** A line of the page loop that does not report a failure. *)
Definition no_failure (ev : event) : Prop :=
  match ev with
  | EvPlaced _ _ _ _ | EvNoImages _ | EvReadError _ => True
  | _ => False
  end.

(** The state of the page loop when the files of the plan [l] have been
    handled and every copy has succeeded, seen from the world [w0] in
    which the loop started. *)
Definition at_plan (d : string) (w0 : world) (l : list (string * string))
    (st : counters) (w : world) : Prop :=
  st = {| page_counter := S (length l); total_pages := length l |}
  /\ files w = (files w0 ++ shelf d (files w0) l)%list
  /\ exists evs,
       log w = (log w0 ++ evs)%list
       /\ placed_originals evs = map fst l
       /\ Forall no_failure evs.

(** The member of a volume made from the file number [i] of a plan: its
    name and what it holds. *)
Definition member_of (fs : Fs.t) (ix : nat * (string * string))
    : string * Fs.content :=
  (fmt03d (fst ix) ++ snd (splitext (lower (fst (snd ix)))),
   content_of fs (snd (snd ix))).

(** The members of the volume of a plan. *)
Definition volume (fs : Fs.t) (l : list (string * string))
    : list (string * Fs.content) :=
  map (member_of fs) (combine (seq 1 (length l)) l).

(** The members an archive gets from the files [os.walk] meets: the
    relative path and what the file holds. *)
Definition archived (fs : Fs.t) (walk : list (string * string))
    : list (string * Fs.content) :=
  map (fun pr => (snd pr, content_of fs (fst pr))) walk.

(** The chapters [find_chapter_folders] returns on a base directory it
    can read. *)
Definition found_chapters (fs : Fs.t) (base_path : string)
    (start_chapter end_chapter : Z) : list (Z * string) :=
  sort_by fst
    (Fs.filter_map (chapter_of fs base_path start_chapter end_chapter)
                   (Fs.entries base_path fs)).

(** A run on tidy ground, in an outside world where nothing fails: the
    output name is a single path component that does not look like a
    chapter folder; nothing is at the archive path, at the staging path or
    below it; the directories above the staging path are there and the
    base directory can be listed; the cover, if one is given, is a regular
    file with an image extension; the staging path is an absolute path in
    resolved form, so that the output name is neither "." nor "..". *)
Record tidy (E : env) (base_path name : string)
    (cover_image_path : option string) (fs : Fs.t) : Prop := {
  tidy_copies : forall src dst, copy_fault E src dst = None;
  tidy_archive : archive_fault E = NoFault;
  tidy_name : name <> "" /\ Fs.has_sep name = false;
  tidy_not_chapter : Re.match_chapter name = None;
  tidy_free : Fs.lookup (join base_path (name ++ ".cbz")) fs = None;
  tidy_absent : Fs.lookup (join base_path name) fs = None;
  tidy_nothing_below :
    forall q, Fs.below (join base_path name) q = true -> Fs.lookup q fs = None;
  tidy_parents :
    Forall (fun a => Fs.lookup a fs = Some Fs.Dir)
           (Fs.ancestors (join base_path name));
  tidy_listable : readable E base_path fs = true;
  tidy_cover :
    forall c, given cover_image_path = Some c ->
              Fs.isfile c fs = true
              /\ is_image_extension (snd (splitext (lower c))) = true;
  tidy_path : normal_path (join base_path name) = true
}.

(** The chapters of a narrower range among those found for a wider
    one. *)
Definition in_range (s e : Z) (chapter : Z * string) : bool :=
  ((s <=? fst chapter) && (fst chapter <=? e))%Z.

End Volume.

(** ** More sample runs *)

Module MoreSamples.
Import Run.

(** An outside world in which the prompt is answered with "n". *)
Definition refusing : env :=
  {| response := "n";
     listdir_fault := fun _ => false;
     copy_fault := fun _ _ => None;
     archive_fault := NoFault |}.

(** An outside world in which the first member of the archive cannot be
    written. *)
Definition first_write_fails : env :=
  {| response := "y";
     listdir_fault := fun _ => false;
     copy_fault := fun _ _ => None;
     archive_fault := WriteFails 0 |}.

(** A process started from the library, with "/home" as working
    directory; [abspath] is given for relative paths that have no "." or
    ".." component, which it has only to prefix. *)
Definition from_library : EntryPoint.process :=
  {| EntryPoint.script_dir := "/m";
     EntryPoint.abspath := fun p => OsPath.join "/home" p |}.

End MoreSamples.

(** * Properties *)

(** ** The string layer on examples *)

Module PyStrExamples.
Import PyStr Re OsPath.

Example lower_ex : lower "Page1.JPG" = "page1.jpg".
Proof. reflexivity. Qed.

Example fmt03d_ex :
  (fmt03d 1, fmt03d 42, fmt03d 100, fmt03d 1234) = ("001", "042", "100", "1234").
Proof. reflexivity. Qed.

Example str_of_Z_ex : (str_of_Z 26, str_of_Z (-3), str_of_Z 0) = ("26", "-3", "0").
Proof. reflexivity. Qed.

Example match_chapter_ex :
  (match_chapter "Chapter 26", match_chapter "Chapter 5 - Title",
   match_chapter "chapter 5", match_chapter "Chapter  5",
   match_chapter "Chapter 007x", match_chapter "Chapter")
  = (Some "26", Some "5", None, None, Some "007", None).
Proof. reflexivity. Qed.

Example search_digits_ex :
  (search_digits "page_3.png", search_digits "p12b7.jpg",
   search_digits "cover.png")
  = (Some "3", Some "12", None).
Proof. reflexivity. Qed.

Example join_ex :
  (join "/lib" "Chapter 1", join "/" "x", join "/lib" "/abs", join "/lib" "")
  = ("/lib/Chapter 1", "/x", "/abs", "/lib/").
Proof. reflexivity. Qed.

Example splitext_ex :
  (splitext "a.b/c", splitext "/x/001.jpg", splitext ".png",
   splitext "..png", splitext "a..png", splitext "x.tar.gz", splitext "d/.x.y")
  = (("a.b/c", ""), ("/x/001", ".jpg"), (".png", ""),
     ("..png", ""), ("a.", ".png"), ("x.tar", ".gz"), ("d/.x", ".y")).
Proof. reflexivity. Qed.

Example isdigit_ex :
  (isdigit "26", isdigit "-5", isdigit "", isdigit "cover.jpg")
  = (true, false, false, false).
Proof. reflexivity. Qed.

Example py_int_ex :
  (VolumeMaker.py_int "26", VolumeMaker.py_int "-5", VolumeMaker.py_int " +1_000 ",
   VolumeMaker.py_int "1__0", VolumeMaker.py_int "c.jpg", VolumeMaker.py_int "")
  = (Some 26%Z, Some (-5)%Z, Some 1000%Z, None, None, None).
Proof. reflexivity. Qed.

Example merge_chapters_ex :
  fst (@VolumeMaker.merge_chapters Samples.calm unit "/m" 2 10 (Some "vol")
         (Some "/c.jpg") (Samples.start Samples.library)) = Run.Normal true
  /\ Fs.lookup "/m/vol.cbz"
       (Run.files (snd (@VolumeMaker.merge_chapters Samples.calm unit "/m" 2 10
                          (Some "vol") (Some "/c.jpg")
                          (Samples.start Samples.library))))
     = Some (Fs.File (Fs.Cbz [("001.jpg", Fs.Bytes "cover");
                              ("002.jpg", Fs.Bytes "a");
                              ("003.png", Fs.Bytes "b");
                              ("004.jpg", Fs.Bytes "c");
                              ("005.jpg", Fs.Bytes "d")])).
Proof. vm_compute. auto. Qed.

End PyStrExamples.

(** ** Strings *)

Module StrFacts.
Import PyStr Re OsPath Spec.

Lemma append_nil_r (s : string) : s ++ "" = s.
Proof. induction s as [|c s IH]; simpl; [reflexivity | now rewrite IH]. Qed.

Lemma append_assoc (a b c : string) : (a ++ b) ++ c = a ++ (b ++ c).
Proof. induction a as [|x a IH]; simpl; [reflexivity | now rewrite IH]. Qed.

Lemma length_append (a b : string) :
  String.length (a ++ b) = String.length a + String.length b.
Proof. induction a as [|x a IH]; simpl; [reflexivity | now rewrite IH]. Qed.

Lemma append_inv_head (a b c : string) : a ++ b = a ++ c -> b = c.
Proof.
  induction a as [|x a IH]; simpl; intros H; [exact H|].
  injection H as H. now apply IH.
Qed.

Lemma strip_prefix_app (p s : string) : strip_prefix p (p ++ s) = Some s.
Proof.
  induction p as [|c p IH]; simpl; [reflexivity|].
  now rewrite Ascii.eqb_refl.
Qed.

Lemma strip_prefix_Some (p s r : string) :
  strip_prefix p s = Some r -> s = p ++ r.
Proof.
  revert s; induction p as [|c p IH]; intros s; simpl.
  - now intros [= ->].
  - destruct s as [|d s]; [discriminate|].
    destruct (Ascii.eqb_spec c d) as [->|]; [|discriminate].
    intros H. now rewrite (IH _ H).
Qed.

Lemma strip_prefix_cancel (a b s : string) :
  strip_prefix (a ++ b) (a ++ s) = strip_prefix b s.
Proof.
  induction a as [|c a IH]; simpl; [reflexivity|].
  now rewrite Ascii.eqb_refl.
Qed.

Lemma strip_prefix_length (p s r : string) :
  strip_prefix p s = Some r -> String.length s = String.length p + String.length r.
Proof. intros H. rewrite (strip_prefix_Some _ _ _ H). apply length_append. Qed.

Lemma strip_prefix_app_l (p s r t : string) :
  strip_prefix p s = Some r -> strip_prefix p (s ++ t) = Some (r ++ t).
Proof.
  intros H. rewrite (strip_prefix_Some _ _ _ H), append_assoc.
  apply strip_prefix_app.
Qed.

Lemma take_digits_split (s : string) :
  exists rest, s = take_digits s ++ rest
               /\ forallb_str is_decimal (take_digits s) = true
               /\ head_is is_decimal rest = false.
Proof.
  induction s as [|c s (rest & Hs & Hd & Hr)]; simpl.
  - exists ""; auto.
  - destruct (is_decimal c) eqn:Hc.
    + exists rest. simpl. rewrite Hc, Hd. repeat split; auto. now rewrite <- Hs.
    + exists (String c s). simpl. now rewrite Hc.
Qed.

Lemma take_digits_run (ds rest : string) :
  forallb_str is_decimal ds = true -> head_is is_decimal rest = false ->
  take_digits (ds ++ rest) = ds.
Proof.
  induction ds as [|c ds IH]; simpl; intros Hd Hr.
  - destruct rest as [|c r]; simpl in *; [reflexivity | now rewrite Hr].
  - apply andb_true_iff in Hd as [Hc Hd]. rewrite Hc. now rewrite IH.
Qed.

Lemma search_digits_none (s : string) :
  search_digits s = None <-> forallb_str (fun c => negb (is_decimal c)) s = true.
Proof.
  induction s as [|c s IH]; simpl; [tauto|].
  destruct (is_decimal c); simpl; [split; discriminate | exact IH].
Qed.

Lemma search_digits_run (pre ds rest : string) :
  forallb_str (fun c => negb (is_decimal c)) pre = true ->
  ds <> "" -> forallb_str is_decimal ds = true ->
  head_is is_decimal rest = false ->
  search_digits (pre ++ ds ++ rest) = Some ds.
Proof.
  intros Hpre Hne Hd Hr.
  induction pre as [|c pre IH]; simpl in *.
  - destruct ds as [|d ds]; [congruence|]. simpl in *.
    apply andb_true_iff in Hd as [Hc Hd]. rewrite Hc.
    now rewrite take_digits_run.
  - apply andb_true_iff in Hpre as [Hc Hpre].
    apply negb_true_iff in Hc. rewrite Hc. auto.
Qed.

Lemma match_chapter_spec (item ds : string) :
  match_chapter item = Some ds <-> chapter_name item ds.
Proof.
  unfold match_chapter, chapter_name. split.
  - destruct (strip_prefix "Chapter " item) as [r|] eqn:Hp; [|discriminate].
    apply strip_prefix_Some in Hp.
    destruct (take_digits_split r) as (rest & Hs & Hd & Hr).
    destruct (take_digits r) as [|c t] eqn:Ht; [discriminate|].
    intros [= <-]. exists rest. repeat split; auto; congruence.
  - intros (rest & -> & Hne & Hd & Hr).
    rewrite strip_prefix_app, take_digits_run by assumption.
    destruct ds; congruence.
Qed.

Section MapStr.
Variable f : ascii -> ascii.

Lemma length_map_str (s : string) : String.length (map_str f s) = String.length s.
Proof. induction s as [|c s IH]; simpl; [reflexivity | now rewrite IH]. Qed.

Lemma get_map_str (s : string) (i : nat) :
  String.get i (map_str f s) = option_map f (String.get i s).
Proof.
  revert i; induction s as [|c s IH]; intros i; simpl; [reflexivity|].
  destruct i; [reflexivity | apply IH].
Qed.

Lemma substring_map_str (s : string) (n m : nat) :
  String.substring n m (map_str f s) = map_str f (String.substring n m s).
Proof.
  revert n m; induction s as [|c s IH]; intros n m; simpl.
  - destruct n, m; reflexivity.
  - destruct n; [destruct m; simpl; [reflexivity | now rewrite IH] | apply IH].
Qed.

Lemma rfind_map_str (c : ascii) (s : string) :
  (forall x, Ascii.eqb (f x) c = Ascii.eqb x c) ->
  rfind c (map_str f s) = rfind c s.
Proof.
  intros Hf. induction s as [|a s IH]; simpl; [reflexivity|].
  now rewrite IH, Hf.
Qed.

Lemma has_non_dot_map_str (s : string) (i n : nat) :
  (forall x, Ascii.eqb (f x) extsep = Ascii.eqb x extsep) ->
  has_non_dot (map_str f s) i n = has_non_dot s i n.
Proof.
  intros Hf. revert i; induction n as [|n IH]; intros i; simpl; [reflexivity|].
  rewrite get_map_str. destruct (String.get i s) as [c|]; simpl; [|reflexivity].
  now rewrite Hf, IH.
Qed.

(** [splitext] commutes with a change of characters that keeps dots and
    separators apart from the rest. *)
Lemma splitext_map_str (p : string) :
  (forall x, Ascii.eqb (f x) extsep = Ascii.eqb x extsep) ->
  (forall x, Ascii.eqb (f x) sep = Ascii.eqb x sep) ->
  splitext (map_str f p)
  = (map_str f (fst (splitext p)), map_str f (snd (splitext p))).
Proof.
  intros Hdot Hsep. unfold splitext.
  rewrite !rfind_map_str, has_non_dot_map_str, length_map_str by assumption.
  destruct (_ && _); simpl; [|reflexivity].
  now rewrite !substring_map_str.
Qed.

End MapStr.

Lemma lower_char_keeps (c x : ascii) :
  c = extsep \/ c = sep -> Ascii.eqb (lower_char x) c = Ascii.eqb x c.
Proof.
  intros [-> | ->];
    destruct x as [[] [] [] [] [] [] [] []]; reflexivity.
Qed.

Lemma splitext_lower (p : string) :
  splitext (lower p) = (lower (fst (splitext p)), lower (snd (splitext p))).
Proof.
  apply splitext_map_str; intros x; apply lower_char_keeps; auto.
Qed.

Lemma extract_number_no_digit (name : string) :
  forallb_str (fun c => negb (is_decimal c)) name = true ->
  VolumeMaker.extract_number name = 0%Z.
Proof.
  intros H. unfold VolumeMaker.extract_number.
  apply search_digits_none in H. now rewrite H.
Qed.

Lemma extract_number_first_run (pre ds rest : string) :
  forallb_str (fun c => negb (is_decimal c)) pre = true ->
  ds <> "" -> forallb_str is_decimal ds = true ->
  head_is is_decimal rest = false ->
  VolumeMaker.extract_number (pre ++ ds ++ rest) = int_digits ds.
Proof.
  intros. unfold VolumeMaker.extract_number.
  now rewrite search_digits_run.
Qed.

Lemma to_uint_nonnil (n : nat) : Nat.to_uint n <> Decimal.Nil.
Proof.
  rewrite <- (DecimalNat.Unsigned.of_to n) at 1.
  rewrite DecimalNat.Unsigned.to_of. apply DecimalFacts.unorm_nonnil.
Qed.

(** A formatted page number starts with a digit. *)
Lemma fmt03d_head (n : nat) : head_is is_decimal (fmt03d n) = true.
Proof.
  unfold fmt03d, str_of_nat.
  destruct (3 - _) as [|k]; [|reflexivity].
  pose proof (to_uint_nonnil n) as H.
  destruct (Nat.to_uint n); try reflexivity. congruence.
Qed.

Lemma substring_all (s : string) : String.substring 0 (String.length s) s = s.
Proof. induction s as [|c s IH]; simpl; [reflexivity | now rewrite IH]. Qed.

Lemma rfind_lower_bound (c : ascii) (s : string) : (-1 <= rfind c s)%Z.
Proof.
  induction s as [|a s IH]; simpl; [lia|].
  destruct (Z.leb_spec 0 (rfind c s)); [lia|].
  destruct (Ascii.eqb a c); lia.
Qed.

Lemma rfind_sep_absent (s : string) :
  (rfind sep s < 0)%Z -> Fs.has_sep s = false.
Proof.
  induction s as [|a s IH]; simpl; [reflexivity|].
  destruct (Z.leb_spec 0 (rfind sep s)) as [H|H]; [lia|].
  destruct (Ascii.eqb a sep); [lia|]. intros _. now apply IH.
Qed.

Lemma basename_no_sep (p : string) : Fs.has_sep (basename p) = false.
Proof.
  unfold basename. induction p as [|a s IH]; [reflexivity|].
  cbn [rfind String.length]. pose proof (rfind_lower_bound sep s) as Hlb.
  destruct (Z.leb_spec 0 (rfind sep s)) as [H|H].
  - replace (Z.to_nat (rfind sep s + 1 + 1)) with (S (Z.to_nat (rfind sep s + 1)))
      by lia.
    cbn [String.substring Nat.sub]. exact IH.
  - pose proof (rfind_sep_absent s H) as Hs.
    destruct (Ascii.eqb a sep) eqn:Ha.
    + change (Z.to_nat (0 + 1)) with 1. cbn [String.substring Nat.sub].
      rewrite Nat.sub_0_r. now rewrite substring_all.
    + change (Z.to_nat (-1 + 1)) with 0. rewrite Nat.sub_0_r.
      cbn [String.substring]. rewrite substring_all.
      cbn [Fs.has_sep]. now rewrite Ha, Hs.
Qed.

Lemma no_sep_head (s : string) :
  Fs.has_sep s = false -> head_is (Ascii.eqb sep) s = false.
Proof.
  destruct s as [|c s]; [reflexivity|]. cbn [Fs.has_sep head_is].
  rewrite Ascii.eqb_sym. intros H. now apply orb_false_iff in H as [H _].
Qed.

Lemma decimal_head_not_sep (s : string) :
  head_is is_decimal s = true -> head_is (Ascii.eqb sep) s = false.
Proof.
  destruct s as [|c s]; [discriminate|]. cbn [head_is].
  destruct c as [[] [] [] [] [] [] [] []]; try discriminate; reflexivity.
Qed.

End StrFacts.

(** ** Sorting and lists *)

Module ListFacts.
Import VolumeMaker Spec.

Section FilterMap.
Context {A B : Type} (f : A -> option B).

Lemma in_filter_map (y : B) (l : list A) :
  In y (Fs.filter_map f l) <-> exists x, In x l /\ f x = Some y.
Proof.
  induction l as [|a l IH]; simpl.
  - split; [tauto | now intros (x & [] & _)].
  - destruct (f a) as [b|] eqn:Ha; simpl; rewrite IH; split.
    + intros [<- | (x & Hx & Hf)]; eauto.
    + intros (x & [<- | Hx] & Hf); [left; congruence | eauto].
    + intros (x & Hx & Hf); eauto.
    + intros (x & [<- | Hx] & Hf); [congruence | eauto].
Qed.

Lemma filter_map_perm (l l' : list A) :
  Permutation l l' -> Permutation (Fs.filter_map f l) (Fs.filter_map f l').
Proof.
  induction 1 as [| x l l' _ IH | x y l | l l' l'' _ IH1 _ IH2]; simpl.
  - constructor.
  - destruct (f x); auto.
  - destruct (f x), (f y); auto using perm_swap.
  - eapply perm_trans; eauto.
Qed.

Lemma filter_map_ext_in (g : A -> option B) (l : list A) :
  (forall x, In x l -> f x = g x) -> Fs.filter_map f l = Fs.filter_map g l.
Proof.
  induction l as [|a l IH]; simpl; intros H; [reflexivity|].
  rewrite <- (H a) by auto. rewrite IH by auto. reflexivity.
Qed.

Lemma filter_map_nil_iff (l : list A) :
  Fs.filter_map f l = [] <-> forall x, In x l -> f x = None.
Proof.
  induction l as [|a l IH]; simpl.
  - split; [intros _ x [] | reflexivity].
  - destruct (f a) eqn:Ha.
    + split; [discriminate|]. intros H. rewrite (H a) in Ha by auto. discriminate.
    + rewrite IH. split; [intros H x [<-|Hx]; auto | auto].
Qed.

End FilterMap.

Section SortBy.
Context {A : Type} (key : A -> Z).

Lemma insert_by_perm (x : A) (l : list A) :
  Permutation (insert_by key x l) (x :: l).
Proof.
  induction l as [|y l IH]; simpl; [reflexivity|].
  destruct (key x <=? key y)%Z; [reflexivity|].
  eapply perm_trans; [apply perm_skip, IH | apply perm_swap].
Qed.

Lemma sort_by_perm (l : list A) : Permutation (sort_by key l) l.
Proof.
  induction l as [|x l IH]; simpl; [constructor|].
  eapply perm_trans; [apply insert_by_perm | now apply perm_skip].
Qed.

Lemma in_sort_by (x : A) (l : list A) : In x (sort_by key l) <-> In x l.
Proof.
  split; apply Permutation_in;
    [apply sort_by_perm | apply Permutation_sym, sort_by_perm].
Qed.

Lemma sort_by_nil_iff (l : list A) : sort_by key l = [] <-> l = [].
Proof.
  split; [|now intros ->].
  intros H. apply Permutation_nil. rewrite <- H. apply sort_by_perm.
Qed.

Lemma insert_by_sorted (x : A) (l : list A) :
  StronglySorted (key_le key) l -> StronglySorted (key_le key) (insert_by key x l).
Proof.
  induction 1 as [|y l Hs IH Hy]; simpl.
  - repeat constructor.
  - destruct (Z.leb_spec (key x) (key y)) as [Hxy|Hxy].
    + constructor; [now constructor|].
      constructor; [exact Hxy|].
      eapply Forall_impl; [|exact Hy]. unfold key_le. intros; lia.
    + constructor; [exact IH|].
      eapply Permutation_Forall; [apply Permutation_sym, insert_by_perm|].
      constructor; [unfold key_le; lia | exact Hy].
Qed.

Lemma sort_by_sorted (l : list A) : StronglySorted (key_le key) (sort_by key l).
Proof.
  induction l as [|x l IH]; simpl; [constructor | now apply insert_by_sorted].
Qed.

(** Stability: the elements of any one key keep their relative order. *)
Lemma insert_by_filter_key (k : Z) (x : A) (l : list A) :
  filter (fun y => (key y =? k)%Z) (insert_by key x l)
  = if (key x =? k)%Z then x :: filter (fun y => (key y =? k)%Z) l
    else filter (fun y => (key y =? k)%Z) l.
Proof.
  induction l as [|y l IH]; simpl; [reflexivity|].
  destruct (Z.leb_spec (key x) (key y)) as [Hxy|Hxy]; simpl; [reflexivity|].
  rewrite IH.
  destruct (Z.eqb_spec (key x) k), (Z.eqb_spec (key y) k); try reflexivity; lia.
Qed.

Lemma sort_by_stable (k : Z) (l : list A) :
  filter (fun y => (key y =? k)%Z) (sort_by key l)
  = filter (fun y => (key y =? k)%Z) l.
Proof.
  induction l as [|x l IH]; simpl; [reflexivity|].
  rewrite insert_by_filter_key, IH. reflexivity.
Qed.

End SortBy.

Lemma sorted_perm_eq (l1 l2 : list Z) :
  StronglySorted Z.le l1 -> StronglySorted Z.le l2 -> Permutation l1 l2 ->
  l1 = l2.
Proof.
  intros H1; revert l2; induction H1 as [|a l1 Hs1 IH Ha]; intros l2 H2 Hp.
  - now apply Permutation_nil in Hp.
  - destruct H2 as [|b l2 Hs2 Hb].
    + apply Permutation_sym, Permutation_nil in Hp. discriminate.
    + assert (a = b) as ->.
      { assert (In a (b :: l2)) as [->|Hin] by (eapply Permutation_in; eauto; now left);
          [reflexivity|].
        assert (In b (a :: l1)) as [->|Hin'] by
            (eapply Permutation_in; [apply Permutation_sym; eauto | now left]);
          [reflexivity|].
        rewrite Forall_forall in Ha, Hb. specialize (Ha _ Hin'). specialize (Hb _ Hin).
        lia. }
      f_equal. apply IH; [exact Hs2|]. eapply Permutation_cons_inv; eauto.
Qed.

Lemma sorted_map_key {A : Type} (key : A -> Z) (l : list A) :
  StronglySorted (key_le key) l -> StronglySorted Z.le (map key l).
Proof.
  induction 1 as [|x l Hs IH Hx]; simpl; constructor; [exact IH|].
  rewrite Forall_forall in *. intros k Hk.
  apply in_map_iff in Hk as (y & <- & Hy). now apply Hx.
Qed.

(** Two sorts of the same elements agree on the sequence of keys. *)
Lemma sort_by_keys_perm {A : Type} (key : A -> Z) (l l' : list A) :
  Permutation l l' -> map key (sort_by key l) = map key (sort_by key l').
Proof.
  intros Hp. apply sorted_perm_eq; try (apply sorted_map_key, sort_by_sorted).
  apply Permutation_map.
  eapply perm_trans; [apply sort_by_perm|].
  eapply perm_trans; [exact Hp | apply Permutation_sym, sort_by_perm].
Qed.

End ListFacts.

(** ** The file system model *)

Module FsFacts.
Import PyStr OsPath Spec StrFacts ListFacts.

Lemma lookup_in (p : string) (n : Fs.node) (fs : Fs.t) :
  Fs.lookup p fs = Some n -> In (p, n) fs.
Proof.
  induction fs as [|[q m] fs IH]; simpl; [discriminate|].
  destruct (String.eqb_spec q p) as [->|]; [intros [= ->]; now left | auto].
Qed.

Lemma in_lookup (p : string) (n : Fs.node) (fs : Fs.t) :
  In (p, n) fs -> Fs.lookup p fs <> None.
Proof.
  induction fs as [|[q m] fs IH]; simpl; [tauto|].
  destruct (String.eqb_spec q p) as [->|Hne]; [discriminate|].
  intros [[= -> ->]|H]; [congruence | auto].
Qed.

Lemma in_lookup_nodup (p : string) (n : Fs.node) (fs : Fs.t) :
  NoDup (map fst fs) -> In (p, n) fs -> Fs.lookup p fs = Some n.
Proof.
  induction fs as [|[q m] fs IH]; simpl; [tauto|].
  intros Hnd [[= -> ->]|Hin].
  - now rewrite String.eqb_refl.
  - inversion Hnd as [|? ? Hq Hnd']; subst.
    destruct (String.eqb_spec q p) as [->|]; [|auto].
    exfalso. apply Hq. apply in_map_iff. now exists (p, n).
Qed.

(** With one node per path, what a path denotes does not depend on the
    order of enumeration. *)
Lemma lookup_perm (p : string) (fs fs' : Fs.t) :
  NoDup (map fst fs) -> Permutation fs fs' -> Fs.lookup p fs = Fs.lookup p fs'.
Proof.
  intros Hnd Hp.
  assert (Hnd' : NoDup (map fst fs')).
  { eapply Permutation_NoDup; [apply Permutation_map, Hp | exact Hnd]. }
  destruct (Fs.lookup p fs) as [n|] eqn:H1.
  - symmetry. apply in_lookup_nodup; [exact Hnd'|].
    eapply Permutation_in; [exact Hp | now apply lookup_in].
  - destruct (Fs.lookup p fs') as [n|] eqn:H2; [|reflexivity].
    apply lookup_in in H2.
    eapply Permutation_in in H2; [|apply Permutation_sym, Hp].
    now apply in_lookup in H2.
Qed.

Lemma isdir_perm (p : string) (fs fs' : Fs.t) :
  NoDup (map fst fs) -> Permutation fs fs' -> Fs.isdir p fs = Fs.isdir p fs'.
Proof. intros Hnd Hp. unfold Fs.isdir. now rewrite (lookup_perm p _ _ Hnd Hp). Qed.

Lemma entries_perm (d : string) (fs fs' : Fs.t) :
  Permutation fs fs' -> Permutation (Fs.entries d fs) (Fs.entries d fs').
Proof. apply filter_map_perm. Qed.

Lemma lookup_write (q p : string) (n : Fs.node) (fs : Fs.t) :
  Fs.lookup q (Fs.write p n fs)
  = if String.eqb q p then Some n else Fs.lookup q fs.
Proof.
  induction fs as [|[k m] fs IH]; simpl.
  - rewrite (String.eqb_sym p q). reflexivity.
  - destruct (String.eqb_spec k p) as [->|Hkp]; simpl.
    + destruct (String.eqb_spec p q) as [->|Hpq].
      * now rewrite String.eqb_refl.
      * apply not_eq_sym, String.eqb_neq in Hpq. now rewrite Hpq.
    + destruct (String.eqb_spec k q) as [->|Hkq]; [|exact IH].
      apply String.eqb_neq in Hkp. now rewrite Hkp.
Qed.

Lemma lookup_filter (f : string -> bool) (q : string) (fs : Fs.t) :
  Fs.lookup q (filter (fun kv => f (fst kv)) fs)
  = if f q then Fs.lookup q fs else None.
Proof.
  induction fs as [|[k m] fs IH]; simpl; [now destruct (f q)|].
  destruct (f k) eqn:Hk; simpl.
  - destruct (String.eqb_spec k q) as [->|]; [now rewrite Hk | exact IH].
  - destruct (String.eqb_spec k q) as [->|]; [now rewrite Hk in * | exact IH].
Qed.

Lemma lookup_remove (q p : string) (fs : Fs.t) :
  Fs.lookup q (Fs.remove p fs)
  = if String.eqb q p then None else Fs.lookup q fs.
Proof.
  unfold Fs.remove.
  rewrite (lookup_filter (fun k => negb (String.eqb k p))).
  now destruct (String.eqb q p).
Qed.

Lemma lookup_remove_tree (q d : string) (fs : Fs.t) :
  Fs.lookup q (Fs.remove_tree d fs)
  = if String.eqb q d || Fs.below d q then None else Fs.lookup q fs.
Proof.
  unfold Fs.remove_tree.
  rewrite (lookup_filter (fun k => negb (String.eqb k d) && negb (Fs.below d k))).
  now destruct (String.eqb q d), (Fs.below d q).
Qed.

Lemma write_write (p : string) (n m : Fs.node) (fs : Fs.t) :
  Fs.write p n (Fs.write p m fs) = Fs.write p n fs.
Proof.
  induction fs as [|[k x] fs IH]; simpl.
  - now rewrite String.eqb_refl.
  - destruct (String.eqb k p) eqn:Hk; simpl; rewrite Hk; [reflexivity|].
    now rewrite IH.
Qed.

(** [os.walk] finds nothing in a directory with nothing inside. *)
Lemma walk_files_nil (d : string) (fs : Fs.t) :
  (forall q, inside d q = true -> Fs.lookup q fs = None) ->
  Fs.walk_files d fs = [].
Proof.
  intros H. unfold Fs.walk_files. apply filter_map_nil_iff.
  intros [q n] Hin. simpl.
  destruct n as [c|]; [|reflexivity].
  destruct (strip_prefix (Fs.dir_prefix d) q) as [[|x rel]|] eqn:Hp; try reflexivity.
  exfalso. apply (in_lookup _ _ _ Hin). apply H.
  unfold inside, Fs.below, startswith. rewrite Hp. simpl.
  apply negb_true_iff, String.eqb_neq. intros ->.
  apply strip_prefix_length in Hp.
  assert (String.length d <= String.length (Fs.dir_prefix d)).
  { unfold Fs.dir_prefix, join. change (startswith "" (String sep "")) with false.
    cbv iota. destruct (_ || _); rewrite length_append; simpl; lia. }
  simpl in Hp. lia.
Qed.

End FsFacts.

(** ** The chapter locator *)

Module Locator.
Import PyStr Re OsPath Run VolumeMaker Spec StrFacts ListFacts FsFacts.

Lemma chapter_of_spec (fs : Fs.t) (base : string) (s e : Z) (item : string)
    (n : Z) (p : string) :
  chapter_of fs base s e item = Some (n, p) <->
  Fs.isdir (join base item) fs = true
  /\ (exists ds, chapter_name item ds /\ n = int_digits ds)
  /\ (s <= n <= e)%Z /\ p = join base item.
Proof.
  unfold chapter_of. split.
  - destruct (Fs.isdir _ fs); [|discriminate].
    destruct (match_chapter item) as [ds|] eqn:Hm; [|discriminate].
    apply match_chapter_spec in Hm.
    destruct (Z.leb_spec s (int_digits ds)), (Z.leb_spec (int_digits ds) e);
      simpl; try discriminate.
    intros [= <- <-]. repeat split; eauto; lia.
  - intros (-> & (ds & Hm & ->) & Hr & ->).
    apply match_chapter_spec in Hm. rewrite Hm.
    destruct (Z.leb_spec s (int_digits ds)), (Z.leb_spec (int_digits ds) e);
      simpl; try reflexivity; lia.
Qed.

Lemma find_chapter_folders_eq (E : env) (R : Type) (base : string) (s e : Z)
    (w : world) :
  readable E base (files w) = true ->
  @find_chapter_folders E R base s e w
  = (Normal (sort_by fst (Fs.filter_map (chapter_of (files w) base s e)
                                        (Fs.entries base (files w)))), w).
Proof.
  unfold readable, Fs.isdir. intros H.
  unfold find_chapter_folders, call, bind, Os.listdir, get_files, ret, bind.
  destruct (Fs.lookup base (files w)) as [[c|]|]; try discriminate.
  simpl in H. apply negb_true_iff in H. now rewrite H.
Qed.

Lemma find_chapter_folders_files (E : env) (R : Type) (base : string)
    (s e : Z) (w : world) :
  snd (@find_chapter_folders E R base s e w) = w.
Proof.
  unfold find_chapter_folders, call, bind, Os.listdir, get_files, ret, bind, raise.
  destruct (Fs.lookup base (files w)) as [[c|]|]; try reflexivity.
  destruct (listdir_fault E base); reflexivity.
Qed.

End Locator.

Module LocatorCorrect.
Import PyStr Re OsPath Run VolumeMaker Spec StrFacts ListFacts FsFacts Locator.

(** C5.  On a base directory that can be read, [find_chapter_folders]
    returns exactly the entries that are directories named "Chapter "
    followed by digits (anything may follow the digits) whose number lies
    in the range; the result is in ascending order of chapter number; it is
    empty, not an error, when no entry qualifies; and enumerating the same
    file system in another order gives the same chapters with the same
    sequence of numbers. *)
Theorem find_chapter_folders_correct (E : env) (R : Type) (base : string)
    (s e : Z) (w : world) :
  readable E base (files w) = true ->
  exists l,
    @find_chapter_folders E R base s e w = (Normal l, w)
    /\ (forall n p, In (n, p) l <-> is_chapter (files w) base s e n p)
    /\ StronglySorted (key_le fst) l
    /\ ((forall n p, ~ is_chapter (files w) base s e n p) -> l = [])
    /\ (forall w2,
          NoDup (map fst (files w)) -> Permutation (files w) (files w2) ->
          exists l2,
            @find_chapter_folders E R base s e w2 = (Normal l2, w2)
            /\ map fst l2 = map fst l /\ Permutation l2 l).
Proof.
  intros Hr. eexists. split; [now apply find_chapter_folders_eq|].
  assert (Hin : forall n p,
             In (n, p) (sort_by fst (Fs.filter_map (chapter_of (files w) base s e)
                                       (Fs.entries base (files w))))
             <-> is_chapter (files w) base s e n p).
  { intros n p. rewrite in_sort_by, in_filter_map. unfold is_chapter. split.
    - intros (item & Hi & Hc). apply chapter_of_spec in Hc
        as (Hd & (ds & Hm & Hn) & Hrange & Hp).
      exists item, ds. tauto.
    - intros (item & ds & Hi & Hd & Hm & Hn & Hrange & Hp).
      exists item. split; [exact Hi|]. apply chapter_of_spec. eauto 6. }
  split; [exact Hin|]. split; [apply sort_by_sorted|]. split.
  - intros Hnone.
    destruct (sort_by fst _) as [|[n p] l] eqn:Hl; [reflexivity|].
    exfalso. apply (Hnone n p), Hin. now left.
  - intros w2 Hnd Hp.
    assert (Hr2 : readable E base (files w2) = true).
    { unfold readable in *. now rewrite <- (isdir_perm base _ _ Hnd Hp). }
    eexists. split; [now apply find_chapter_folders_eq|].
    assert (Hc : Permutation
                   (Fs.filter_map (chapter_of (files w2) base s e)
                      (Fs.entries base (files w2)))
                   (Fs.filter_map (chapter_of (files w) base s e)
                      (Fs.entries base (files w)))).
    { rewrite (filter_map_ext_in _ (chapter_of (files w) base s e)).
      - apply filter_map_perm, entries_perm, Permutation_sym, Hp.
      - intros item _. unfold chapter_of.
        now rewrite (isdir_perm _ _ _ Hnd Hp). }
    split; [now apply sort_by_keys_perm|].
    eapply perm_trans; [apply sort_by_perm|].
    eapply perm_trans; [exact Hc | apply Permutation_sym, sort_by_perm].
Qed.

Lemma find_chapter_folders_correct_witness :
  exists l,
    @find_chapter_folders Samples.calm unit "/m" 1 20 (Samples.start Samples.library)
    = (Normal l, Samples.start Samples.library)
    /\ map fst l = [2; 10]%Z.
Proof.
  destruct (find_chapter_folders_correct Samples.calm unit "/m" 1 20
              (Samples.start Samples.library) eq_refl) as (l & Hl & _).
  exists l. split; [exact Hl|].
  vm_compute in Hl. injection Hl as <-. reflexivity.
Defined.

End LocatorCorrect.

(** ** The page enumerator *)

Module Enumerator.
Import PyStr Re OsPath Run VolumeMaker Spec StrFacts ListFacts FsFacts.

Lemma image_of_spec (fs : Fs.t) (folder name : string) :
  image_of fs folder name
  = if page_ok fs folder name then Some (name, join folder name) else None.
Proof.
  unfold image_of, page_ok, has_image_extension, is_image_extension.
  rewrite splitext_lower. cbn [snd andb].
  destruct (Fs.isfile _ fs); cbn [andb]; [|reflexivity].
  destruct (existsb (String.eqb _) image_extensions); reflexivity.
Qed.

Lemma filter_map_image_of (fs : Fs.t) (folder : string) (l : list string) :
  Fs.filter_map (image_of fs folder) l
  = map (fun name => (name, join folder name)) (filter (page_ok fs folder) l).
Proof.
  induction l as [|x l IH]; simpl; [reflexivity|].
  rewrite image_of_spec. destruct (page_ok fs folder x); simpl; now rewrite IH.
Qed.

Lemma get_image_files_eq (E : env) (R : Type) (folder : string) (w : world) :
  @get_image_files E R folder w
  = if readable E folder (files w)
    then (Normal (sort_by page_key (listed_pages (files w) folder)), w)
    else (Normal [],
          {| files := files w; log := (log w ++ [EvReadError folder])%list |}).
Proof.
  unfold get_image_files, readable, Fs.isdir, listed_pages.
  unfold call, bind, try_except, Os.listdir, get_files, ret, bind, raise,
    print, return_.
  destruct (Fs.lookup folder (files w)) as [[c|]|]; simpl; try reflexivity.
  destruct (listdir_fault E folder); simpl; [reflexivity|].
  now rewrite filter_map_image_of.
Qed.

Lemma in_listed_pages (fs : Fs.t) (folder name p : string) :
  In (name, p) (listed_pages fs folder) <->
  In name (Fs.entries folder fs) /\ page_ok fs folder name = true
  /\ p = join folder name.
Proof.
  unfold listed_pages. rewrite in_map_iff. split.
  - intros (x & [= <- <-] & Hx). apply filter_In in Hx. tauto.
  - intros (Hi & Hok & ->). exists name. split; [reflexivity|].
    apply filter_In. tauto.
Qed.

End Enumerator.

Module EnumeratorCorrect.
Import PyStr Re OsPath Run VolumeMaker Spec StrFacts ListFacts FsFacts Enumerator.

(** C6.  [get_image_files] never raises and leaves the files alone.  On a
    folder that cannot be read it returns the empty list.  Otherwise it
    returns exactly the entries that are regular files whose extension,
    lower-cased, is one of the six image extensions; in ascending order of
    their key; with the pages of any one key in the order the directory
    enumerates them.  The key is the number spelled by the first run of
    digits of the file name, and 0 for a name without digits. *)
Theorem get_image_files_correct (E : env) (R : Type) (folder : string)
    (w : world) :
  exists l w',
    @get_image_files E R folder w = (Normal l, w')
    /\ files w' = files w
    /\ (readable E folder (files w) = false -> l = [])
    /\ (readable E folder (files w) = true ->
        (forall name p,
            In (name, p) l <->
            In name (Fs.entries folder (files w))
            /\ Fs.isfile (join folder name) (files w) = true
            /\ In (lower (snd (splitext name))) image_extensions
            /\ p = join folder name)
        /\ StronglySorted (key_le page_key) l
        /\ (forall k,
              filter (fun x => (page_key x =? k)%Z) l
              = filter (fun x => (page_key x =? k)%Z)
                       (listed_pages (files w) folder)))
    /\ (forall x pre ds rest,
          fst x = pre ++ ds ++ rest ->
          forallb_str (fun c => negb (is_decimal c)) pre = true ->
          ds <> "" -> forallb_str is_decimal ds = true ->
          head_is is_decimal rest = false ->
          page_key x = int_digits ds)
    /\ (forall x,
          forallb_str (fun c => negb (is_decimal c)) (fst x) = true ->
          page_key x = 0%Z).
Proof.
  rewrite get_image_files_eq.
  destruct (readable E folder (files w)) eqn:Hr; do 2 eexists;
    (split; [reflexivity|]); (split; [reflexivity|]);
    (split; [intros; try discriminate; reflexivity|]);
    (split; [intros; try discriminate|]).
  - split; [|split].
    + intros name p. rewrite in_sort_by, in_listed_pages.
      unfold page_ok, has_image_extension. rewrite andb_true_iff.
      assert (Hex : forall x, existsb (String.eqb x) image_extensions = true
                              <-> In x image_extensions).
      { intros x. rewrite existsb_exists. split.
        - intros (y & Hy & Heq). apply String.eqb_eq in Heq. now subst.
        - intros Hx. exists x. split; [exact Hx | apply String.eqb_refl]. }
      rewrite Hex. tauto.
    + apply sort_by_sorted.
    + intros k. apply sort_by_stable.
  - split.
    + intros x pre ds rest Hx; unfold page_key; intros. rewrite Hx.
      now apply extract_number_first_run.
    + intros x Hx. now apply extract_number_no_digit.
  - split.
    + intros x pre ds rest Hx; unfold page_key; intros. rewrite Hx.
      now apply extract_number_first_run.
    + intros x Hx. now apply extract_number_no_digit.
Qed.

End EnumeratorCorrect.

(** ** The command line *)

Module CommandLine.
Import PyStr VolumeMaker Spec StrFacts.

Lemma decimal_not_space (c : ascii) : is_decimal c = true -> is_space c = false.
Proof. destruct c as [[] [] [] [] [] [] [] []]; try discriminate; reflexivity. Qed.

Lemma rstrip_no_space (s : string) :
  forallb_str (fun c => negb (is_space c)) s = true -> rstrip s = s.
Proof.
  induction s as [|c s IH]; simpl; [reflexivity|].
  intros H. apply andb_true_iff in H as [Hc Hs].
  rewrite (IH Hs). apply negb_true_iff in Hc. rewrite Hc.
  destruct s; reflexivity.
Qed.

Lemma decimals_no_space (s : string) :
  forallb_str is_decimal s = true ->
  forallb_str (fun c => negb (is_space c)) s = true.
Proof.
  induction s as [|c s IH]; simpl; [reflexivity|].
  intros H. apply andb_true_iff in H as [Hc Hs].
  now rewrite (decimal_not_space _ Hc), IH.
Qed.

Lemma int_body_decimals (s : string) (b : bool) (acc : Z) :
  forallb_str is_decimal s = true -> s <> "" \/ b = true ->
  int_body b acc s = Some (int_digits_from acc s).
Proof.
  revert b acc; induction s as [|c s IH]; simpl; intros b acc H Hb.
  - destruct Hb as [Hb | ->]; [congruence | reflexivity].
  - apply andb_true_iff in H as [Hc Hs]. rewrite Hc. apply IH; auto.
Qed.

(** [int] reads a non-empty string of decimal digits as the number it
    spells. *)
Lemma py_int_decimals (s : string) :
  s <> "" -> forallb_str is_decimal s = true -> py_int s = Some (int_digits s).
Proof.
  intros Hne Hd. unfold py_int.
  assert (Hl : lstrip s = s).
  { destruct s as [|c s]; [reflexivity|]. simpl in *.
    apply andb_true_iff in Hd as [Hc _]. now rewrite (decimal_not_space _ Hc). }
  rewrite Hl, (rstrip_no_space _ (decimals_no_space _ Hd)).
  destruct s as [|c s]; [congruence|].
  assert (Hb : int_body false 0 (String c s) = Some (int_digits (String c s)))
    by (apply int_body_decimals; auto; left; discriminate).
  simpl in Hd. apply andb_true_iff in Hd as [Hc _].
  destruct c as [[] [] [] [] [] [] [] []]; try discriminate Hc; exact Hb.
Qed.

Lemma read_range_cover (cover : option string) (a b : string) (name : option string) :
  cover_image_path (fst (read_range cover a b name)) = cover.
Proof.
  unfold read_range. destruct (py_int a); [destruct (py_int b)|]; reflexivity.
Qed.

Lemma read_range_start (cover : option string) (a b : string) (name : option string) :
  start_chapter (fst (read_range cover a b name)) = py_int a.
Proof.
  unfold read_range. destruct (py_int a); [destruct (py_int b)|]; reflexivity.
Qed.

(** C8 as stated fails: "-5" is a string that [int] parses, yet [main]
    takes it for the cover image path. *)
Lemma main_cover_test_is_not_int_parse :
  ~ (forall first rest,
        2 <= List.length (first :: rest) ->
        (cover_image_path (fst (main_arguments (first :: rest))) = Some first
         <-> py_int first = None)).
Proof.
  intros H. specialize (H "-5" ["3"; "7"]). simpl in H.
  destruct H as [H _]; [lia|]. specialize (H eq_refl). discriminate H.
Qed.

(** C8, amended.  With at least two arguments, the first one is taken for
    the cover image path exactly when [isdigit] rejects it, that is unless
    it is a non-empty string of digit characters; otherwise it is given to
    [int] as the start chapter, which for decimal digits is the number
    they spell. *)
Theorem main_first_argument (first : string) (rest : list string) :
  2 <= List.length (first :: rest) ->
  (cover_image_path (fst (main_arguments (first :: rest))) = Some first
   <-> isdigit first = false)
  /\ (isdigit first = true ->
      start_chapter (fst (main_arguments (first :: rest))) = py_int first)
  /\ (first <> "" -> forallb_str is_decimal first = true ->
      isdigit first = true /\ py_int first = Some (int_digits first)).
Proof.
  intros Hlen. destruct rest as [|a1 rest]; [simpl in Hlen; lia|].
  unfold main_arguments. split; [|split].
  - destruct (isdigit first); simpl.
    + rewrite read_range_cover. split; discriminate.
    + destruct rest as [|a2 rest]; simpl; [tauto|].
      rewrite read_range_cover. tauto.
  - intros ->. simpl. apply read_range_start.
  - intros Hne Hd. split; [|now apply py_int_decimals].
    assert (Hall : forall s0, forallb_str is_decimal s0 = true ->
                              forallb_str char_isdigit s0 = true).
    { induction s0 as [|d s0 IH]; cbn [forallb_str]; [reflexivity|].
      intros H. apply andb_true_iff in H as [H1 H2].
      rewrite (IH H2). unfold char_isdigit. now rewrite H1. }
    unfold isdigit. destruct first as [|c s]; [congruence | now apply Hall].
Qed.

Lemma main_first_argument_witness :
  cover_image_path (fst (main_arguments ["cover.jpg"; "26"; "30"])) = Some "cover.jpg"
  /\ start_chapter (fst (main_arguments ["26"; "30"])) = Some 26%Z.
Proof.
  split.
  - apply (main_first_argument "cover.jpg" ["26"; "30"]); [simpl; lia | reflexivity].
  - destruct (main_first_argument "26" ["30"]) as (_ & Hs & Hd); [simpl; lia|].
    rewrite Hs by reflexivity. apply Hd; [discriminate | reflexivity].
Defined.

End CommandLine.

(** ** Reasoning about runs *)

Module RunFacts.
Import Run VolumeMaker.

Section Wp.
Context {R A : Type}.

Lemma wp_mono (m : M R A) (N N' : A -> world -> Prop)
    (Rt Rt' : R -> world -> Prop) (Ex Ex' : exn -> world -> Prop) (w : world) :
  wp m N Rt Ex w ->
  (forall a w', N a w' -> N' a w') ->
  (forall r w', Rt r w' -> Rt' r w') ->
  (forall e w', Ex e w' -> Ex' e w') ->
  wp m N' Rt' Ex' w.
Proof. unfold wp. destruct (m w) as [[a|r|e] w']; auto. Qed.

Lemma wp_ret (a : A) (N : A -> world -> Prop) (Rt : R -> world -> Prop)
    (Ex : exn -> world -> Prop) (w : world) :
  N a w -> wp (ret a) N Rt Ex w.
Proof. exact (fun H => H). Qed.

Lemma wp_return (r : R) (N : A -> world -> Prop) (Rt : R -> world -> Prop)
    (Ex : exn -> world -> Prop) (w : world) :
  Rt r w -> wp (@return_ R A r) N Rt Ex w.
Proof. exact (fun H => H). Qed.

Lemma wp_raise (e : exn) (N : A -> world -> Prop) (Rt : R -> world -> Prop)
    (Ex : exn -> world -> Prop) (w : world) :
  Ex e w -> wp (@raise R A e) N Rt Ex w.
Proof. exact (fun H => H). Qed.

Lemma wp_try (m : M R A) (h : exn -> M R A) (N : A -> world -> Prop)
    (Rt : R -> world -> Prop) (Ex : exn -> world -> Prop) (w : world) :
  wp m N Rt (fun e => wp (h e) N Rt Ex) w -> wp (try_except m h) N Rt Ex w.
Proof. unfold wp, try_except. destruct (m w) as [[a|r|e] w']; auto. Qed.

End Wp.

Lemma wp_bind {R A B : Type} (m : M R A) (k : A -> M R B)
    (N : B -> world -> Prop) (Rt : R -> world -> Prop)
    (Ex : exn -> world -> Prop) (w : world) :
  wp m (fun a => wp (k a) N Rt Ex) Rt Ex w -> wp (bind m k) N Rt Ex w.
Proof. unfold wp, bind. destruct (m w) as [[a|r|e] w']; auto. Qed.

Lemma wp_call {R R' : Type} (body : M R R) (N : R -> world -> Prop)
    (Rt : R' -> world -> Prop) (Ex : exn -> world -> Prop) (w : world) :
  wp body N N Ex w -> wp (@call R R' body) N Rt Ex w.
Proof. unfold wp, call. destruct (body w) as [[a|r|e] w']; auto. Qed.

Lemma wp_print {R : Type} (ev : event) (N : unit -> world -> Prop)
    (Rt : R -> world -> Prop) (Ex : exn -> world -> Prop) (w : world) :
  N tt {| files := files w; log := (log w ++ [ev])%list |} ->
  wp (@print R ev) N Rt Ex w.
Proof. exact (fun H => H). Qed.

Lemma wp_get_files {R : Type} (N : Fs.t -> world -> Prop)
    (Rt : R -> world -> Prop) (Ex : exn -> world -> Prop) (w : world) :
  N (files w) w -> wp (@get_files R) N Rt Ex w.
Proof. exact (fun H => H). Qed.

Lemma wp_put_files {R : Type} (fs : Fs.t) (N : unit -> world -> Prop)
    (Rt : R -> world -> Prop) (Ex : exn -> world -> Prop) (w : world) :
  N tt {| files := fs; log := log w |} -> wp (@put_files R fs) N Rt Ex w.
Proof. exact (fun H => H). Qed.

(** A loop keeps an invariant of its local variables and the world. *)
Lemma wp_for_each {R S X : Type} (body : S -> X -> M R S) (l : list X)
    (J : S -> world -> Prop) (Rt : R -> world -> Prop)
    (Ex : exn -> world -> Prop) :
  (forall s x w, In x l -> J s w -> wp (body s x) J Rt Ex w) ->
  forall s w, J s w -> wp (for_each body l s) J Rt Ex w.
Proof.
  induction l as [|x l IH]; intros Hbody s w HJ; simpl.
  - exact HJ.
  - apply wp_bind. eapply wp_mono; [apply Hbody; [now left | exact HJ] | | auto | auto].
    intros s' w' HJ'. apply IH; [|exact HJ'].
    intros s0 x0 w0 Hin. apply Hbody. now right.
Qed.

(** The same with an invariant that knows the elements already
    handled. *)
Lemma wp_for_each_prefix {R S X : Type} (body : S -> X -> M R S) (l : list X)
    (J : list X -> S -> world -> Prop) (Rt : R -> world -> Prop)
    (Ex : exn -> world -> Prop) :
  (forall pre x post s w,
      l = (pre ++ x :: post)%list -> J pre s w ->
      wp (body s x) (J (pre ++ [x])%list) Rt Ex w) ->
  forall s w, J [] s w -> wp (for_each body l s) (J l) Rt Ex w.
Proof.
  intros Hbody.
  assert (H : forall post pre s w,
             l = (pre ++ post)%list -> J pre s w ->
             wp (for_each body post s) (J l) Rt Ex w).
  { induction post as [|x post IH]; intros pre s w Hl HJ; simpl.
    - rewrite List.app_nil_r in Hl. now subst.
    - apply wp_bind.
      eapply wp_mono; [eapply Hbody; eauto | | auto | auto].
      intros s' w' HJ'. apply (IH (pre ++ [x])%list); [|exact HJ'].
      now rewrite <- List.app_assoc. }
  intros s w HJ. now apply (H l []).
Qed.

(** What [wp] says about the pair a run evaluates to. *)
Lemma wp_elim {R A : Type} (m : M R A) (N : A -> world -> Prop)
    (Rt : R -> world -> Prop) (Ex : exn -> world -> Prop) (w : world) :
  wp m N Rt Ex w ->
  match fst (m w) with
  | Normal a => N a (snd (m w))
  | Return r => Rt r (snd (m w))
  | Raise e => Ex e (snd (m w))
  end.
Proof. unfold wp. destruct (m w) as [[a|r|e] w']; auto. Qed.

End RunFacts.

(** ** Paths of a run *)

Module PathFacts.
Import PyStr OsPath Spec StrFacts.

Lemma dir_prefix_cases (d : string) :
  Fs.dir_prefix d = d \/ Fs.dir_prefix d = d ++ "/".
Proof.
  unfold Fs.dir_prefix, join. change (startswith "" (String sep "")) with false.
  cbv iota. destruct (_ || _); [left; apply append_nil_r | right; reflexivity].
Qed.

Lemma startswith_sep (b : string) :
  startswith b (String sep "") = head_is (Ascii.eqb sep) b.
Proof.
  destruct b as [|c b]; [reflexivity|].
  unfold startswith. cbn [strip_prefix head_is].
  destruct (Ascii.eqb sep c); reflexivity.
Qed.

Lemma join_absolute (a b : string) :
  head_is (Ascii.eqb sep) b = true -> join a b = b.
Proof. intros Hb. unfold join. now rewrite startswith_sep, Hb. Qed.

Lemma join_relative (a b : string) :
  head_is (Ascii.eqb sep) b = false -> join a b = Fs.dir_prefix a ++ b.
Proof.
  intros Hb. unfold Fs.dir_prefix, join.
  rewrite !startswith_sep, Hb. cbn [head_is].
  destruct (_ || _); [now rewrite append_nil_r|].
  now rewrite append_assoc.
Qed.

Lemma join_append (a b t : string) :
  head_is (Ascii.eqb sep) t = false -> join a (b ++ t) = join a b ++ t.
Proof.
  intros Ht. destruct b as [|c b].
  - cbn [append]. rewrite (join_relative a t Ht), (join_relative a "" eq_refl).
    now rewrite append_nil_r.
  - destruct (Ascii.eqb sep c) eqn:Hc.
    + rewrite !join_absolute by (cbn [append head_is]; assumption). reflexivity.
    + rewrite !join_relative by (cbn [append head_is]; assumption).
      now rewrite append_assoc.
Qed.

(** The archive path is the staging path followed by ".cbz". *)
Lemma cbz_path_eq (base name : string) :
  join base (name ++ ".cbz") = join base name ++ ".cbz".
Proof. now apply join_append. Qed.

Lemma length_dir_prefix (d : string) :
  String.length d <= String.length (Fs.dir_prefix d).
Proof.
  destruct (dir_prefix_cases d) as [-> | ->]; [lia|].
  rewrite length_append. lia.
Qed.

Lemma below_length (d q : string) :
  Fs.below d q = true -> String.length d <= String.length q.
Proof.
  unfold Fs.below, startswith.
  destruct (strip_prefix _ q) as [r|] eqn:H; [|discriminate]. intros _.
  apply strip_prefix_length in H. pose proof (length_dir_prefix d). lia.
Qed.

Lemma is_prefix_length (q p : string) :
  is_prefix q p = true -> String.length q <= String.length p.
Proof.
  unfold is_prefix, startswith.
  destruct (strip_prefix q p) as [r|] eqn:H; [|discriminate]. intros _.
  apply strip_prefix_length in H. lia.
Qed.

Lemma is_prefix_refl (p : string) : is_prefix p p = true.
Proof.
  unfold is_prefix, startswith.
  rewrite <- (append_nil_r p) at 2. now rewrite strip_prefix_app.
Qed.

Lemma is_prefix_same_length (q p : string) :
  is_prefix q p = true -> String.length q = String.length p -> q = p.
Proof.
  unfold is_prefix, startswith.
  destruct (strip_prefix q p) as [r|] eqn:H; [|discriminate]. intros _ Hl.
  pose proof (strip_prefix_length _ _ _ H) as Hlen.
  apply strip_prefix_Some in H. subst p.
  destruct r; [now rewrite append_nil_r | simpl in Hlen; lia].
Qed.

Lemma staged_inside (d q : string) : staged d q = true -> inside d q = true.
Proof.
  unfold staged, inside, Fs.below, startswith.
  destruct (strip_prefix _ q) as [[|c r]|] eqn:H; try discriminate. intros _.
  simpl. apply negb_true_iff, String.eqb_neq. intros ->.
  apply strip_prefix_length in H. pose proof (length_dir_prefix d). simpl in H. lia.
Qed.

Lemma staged_self (d : string) : staged d d = false.
Proof.
  destruct (staged d d) eqn:H; [|reflexivity].
  apply staged_inside in H. unfold inside in H.
  rewrite String.eqb_refl, andb_false_r in H. discriminate.
Qed.

Lemma inside_not_prefix (d q : string) :
  inside d q = true -> is_prefix q d = false.
Proof.
  unfold inside. intros H. apply andb_true_iff in H as [Hb Hne].
  destruct (is_prefix q d) eqn:Hp; [|reflexivity]. exfalso.
  apply negb_true_iff, String.eqb_neq in Hne. apply Hne.
  apply is_prefix_same_length; [exact Hp|].
  apply below_length in Hb. apply is_prefix_length in Hp. lia.
Qed.

Lemma staged_not_prefix (d q : string) :
  staged d q = true -> is_prefix q d = false.
Proof. intros H. now apply inside_not_prefix, staged_inside. Qed.

Lemma staged_cbz (base name : string) :
  staged (join base name) (join base (name ++ ".cbz")) = false.
Proof.
  rewrite cbz_path_eq. unfold staged.
  destruct (dir_prefix_cases (join base name)) as [-> | ->].
  - rewrite strip_prefix_app. reflexivity.
  - rewrite strip_prefix_cancel. reflexivity.
Qed.

Lemma cbz_not_prefix (base name : string) :
  is_prefix (join base (name ++ ".cbz")) (join base name) = false.
Proof.
  destruct (is_prefix _ _) eqn:H; [|reflexivity].
  apply is_prefix_length in H. rewrite cbz_path_eq, length_append in H.
  simpl in H. lia.
Qed.

Lemma cbz_neq_output (base name : string) :
  join base (name ++ ".cbz") <> join base name.
Proof.
  intros H. pose proof (cbz_not_prefix base name) as Hp.
  rewrite H, is_prefix_refl in Hp. discriminate.
Qed.

Lemma staged_append (d q t : string) :
  staged d q = true -> staged d (q ++ t) = true.
Proof.
  unfold staged.
  destruct (strip_prefix _ q) as [[|c r]|] eqn:H; try discriminate.
  intros Hc. now rewrite (strip_prefix_app_l _ _ _ t H).
Qed.

Lemma endswith_char_append (a b : string) (c : ascii) :
  b <> "" -> endswith_char (a ++ b) c = endswith_char b c.
Proof.
  intros Hb. induction a as [|x a IH]; simpl; [reflexivity|].
  rewrite IH. destruct (a ++ b) eqn:Hab; [|reflexivity].
  destruct a; simpl in Hab; [congruence | discriminate].
Qed.

(** With a plain output name the staging path does not end with a
    separator, so the archive path is not inside the staging directory. *)
Lemma plain_dir_prefix (base name : string) :
  plain_name name = true ->
  Fs.dir_prefix (join base name) = join base name ++ "/".
Proof.
  unfold plain_name. intros H. apply andb_true_iff in H as [Hne He].
  apply negb_true_iff, String.eqb_neq in Hne. apply negb_true_iff in He.
  assert (Hj : join base name <> "" /\ endswith_char (join base name) sep = false).
  { unfold join. destruct (startswith name _); [auto|].
    destruct (_ || _).
    - rewrite endswith_char_append by assumption. split; [|assumption].
      destruct base; simpl; [assumption | discriminate].
    - replace (base ++ String sep name) with ((base ++ "/") ++ name)
        by (now rewrite append_assoc).
      rewrite endswith_char_append by assumption. split; [|assumption].
      destruct base; simpl; discriminate. }
  destruct Hj as [Hj1 Hj2]. unfold Fs.dir_prefix at 1. unfold join at 1.
  simpl. rewrite Hj2. apply String.eqb_neq in Hj1. now rewrite Hj1.
Qed.

Lemma plain_cbz_outside (base name : string) :
  plain_name name = true ->
  Fs.below (join base name) (join base (name ++ ".cbz")) = false.
Proof.
  intros H. unfold Fs.below, startswith.
  rewrite (plain_dir_prefix _ _ H), cbz_path_eq, strip_prefix_cancel.
  reflexivity.
Qed.

Lemma default_output_folder_plain (s e : Z) :
  plain_name (VolumeMaker.default_output_folder s e) = true.
Proof.
  unfold plain_name, VolumeMaker.default_output_folder.
  destruct (s =? e)%Z.
  - replace ("Chapter_" ++ str_of_Z s ++ "_merged")
      with (("Chapter_" ++ str_of_Z s) ++ "_merged") by apply append_assoc.
    rewrite endswith_char_append by discriminate. reflexivity.
  - replace ("Chapters_" ++ str_of_Z s ++ "-" ++ str_of_Z e ++ "_merged")
      with (("Chapters_" ++ str_of_Z s ++ "-" ++ str_of_Z e) ++ "_merged")
      by (now rewrite !append_assoc).
    rewrite endswith_char_append by discriminate. reflexivity.
Qed.

Lemma substring_none (n : nat) (s : string) : String.substring n 0 s = "".
Proof.
  revert s. induction n as [|n IH]; intros [|c s]; cbn [String.substring];
    try reflexivity.
  apply IH.
Qed.

Lemma rfind_last (c : ascii) (s : string) :
  endswith_char s c = true -> rfind c s = (Z.of_nat (String.length s) - 1)%Z.
Proof.
  induction s as [|a s IH]; [discriminate|].
  cbn [endswith_char rfind String.length]. destruct s as [|b s].
  - intros ->. reflexivity.
  - intros H. rewrite (IH H).
    destruct (Z.leb_spec 0 (Z.of_nat (String.length (String b s)) - 1));
      cbn [String.length] in *; lia.
Qed.

(** A name that ends with a separator has an empty last component. *)
Lemma basename_trailing_sep (s : string) :
  endswith_char s sep = true -> basename s = "".
Proof.
  intros H. unfold basename. rewrite (rfind_last _ _ H).
  replace (Z.to_nat (Z.of_nat (String.length s) - 1 + 1)) with (String.length s)
    by lia.
  rewrite Nat.sub_diag. apply substring_none.
Qed.

(** A name whose last component names a folder of its own is not empty
    and does not end with a separator. *)
Lemma own_folder_plain (name : string) :
  own_folder name = true -> plain_name name = true.
Proof.
  unfold own_folder, plain_name. intros H.
  destruct name as [|c name]; [discriminate H|]. cbn [String.eqb negb andb].
  destruct (endswith_char (String c name) sep) eqn:He; [|reflexivity].
  now rewrite (basename_trailing_sep _ He) in H.
Qed.

End PathFacts.

(** ** The page loop *)

Module Placing.
Import PyStr OsPath Run VolumeMaker Spec.
Import StrFacts ListFacts FsFacts PathFacts RunFacts Enumerator.

Lemma filter_map_app {A B : Type} (f : A -> option B) (l l' : list A) :
  Fs.filter_map f (l ++ l') = (Fs.filter_map f l ++ Fs.filter_map f l')%list.
Proof.
  induction l as [|x l IH]; simpl; [reflexivity|].
  destruct (f x); simpl; now rewrite IH.
Qed.

(** [shutil.copy2] touches the destination only, or the file of the
    source's name under it. *)
Lemma wp_copy2 {R : Type} (E : env) (src dst : string)
    (N : unit -> world -> Prop) (Rt : R -> world -> Prop)
    (Ex : exn -> world -> Prop) (w : world) :
  (forall fs',
      (forall q, q <> dst -> q <> join dst (basename src) ->
                 Fs.lookup q fs' = Fs.lookup q (files w)) ->
      N tt {| files := fs'; log := log w |}) ->
  (forall e fs',
      (forall q, q <> dst -> q <> join dst (basename src) ->
                 Fs.lookup q fs' = Fs.lookup q (files w)) ->
      Ex e {| files := fs'; log := log w |}) ->
  wp (Os.copy2 E src dst) N Rt Ex w.
Proof.
  intros HN HEx. destruct w as [fs lg]. simpl in *.
  assert (Hw : forall p c q, q <> p ->
             Fs.lookup q (Fs.write p (Fs.File c) fs) = Fs.lookup q fs).
  { intros p c q Hq. rewrite lookup_write.
    apply String.eqb_neq in Hq. now rewrite Hq. }
  unfold wp, Os.copy2, bind, get_files, put_files, raise, ret; simpl.
  destruct (copy_fault E src dst) as [[c|]|]; simpl.
  - apply HEx. intros; now apply Hw.
  - apply HEx. reflexivity.
  - destruct (Fs.lookup src fs) as [[c|]|]; simpl; try (apply HEx; reflexivity).
    destruct (Fs.isdir dst fs);
      match goal with |- context [String.eqb src ?d] => destruct (String.eqb src d) end;
      simpl; try (apply HEx; reflexivity); apply HN; intros; now apply Hw.
Qed.

Lemma staged_copy_target (d dst src : string) :
  staged d dst = true -> staged d (join dst (basename src)) = true.
Proof.
  intros H. rewrite join_relative by apply no_sep_head, basename_no_sep.
  destruct (dir_prefix_cases dst) as [-> | ->].
  - now apply staged_append.
  - rewrite append_assoc. now apply staged_append.
Qed.

Lemma staged_new_path (d name : string) :
  head_is is_decimal name = true -> staged d (join d name) = true.
Proof.
  intros H. rewrite join_relative by now apply decimal_head_not_sep.
  unfold staged. rewrite strip_prefix_app.
  destruct name; [discriminate | exact H].
Qed.

Lemma staged_page_path (d : string) (i : nat) (ext : string) :
  staged d (join d (fmt03d i ++ ext)) = true.
Proof.
  apply staged_new_path. pose proof (fmt03d_head i) as H.
  destruct (fmt03d i); [discriminate | exact H].
Qed.

Section Steps.
Variables (d : string) (w0 : world).

Lemma placing_start : placing d w0 0 w0.
Proof.
  exists []. rewrite List.app_nil_r. repeat split; auto.
Qed.

(** A line of the log that is not about a copy. *)
Lemma placing_note (n : nat) (w : world) (ev : event) :
  placing d w0 n w -> place_event ev -> is_copy_event ev = false ->
  placing d w0 n {| files := files w; log := (log w ++ [ev])%list |}.
Proof.
  intros (evs & Hl & Hf & Hp & Hfr & Hq) Hev Hc.
  exists (evs ++ [ev])%list. simpl. repeat split.
  - now rewrite Hl, List.app_assoc.
  - apply Forall_app. split; [exact Hf | now constructor].
  - unfold placed_indices in *. rewrite filter_map_app, Hp. simpl.
    destruct ev; simpl in *; try discriminate; apply List.app_nil_r.
  - exact Hfr.
  - rewrite existsb_app. simpl. rewrite Hc, !orb_false_r. exact Hq.
Qed.

(** A copy that failed: the files may have changed at staged paths. *)
Lemma placing_failed (n : nat) (w : world) (fs' : Fs.t) (ev : event) :
  placing d w0 n w ->
  (forall q, staged d q = false -> Fs.lookup q fs' = Fs.lookup q (files w)) ->
  ev = EvCoverCopyError \/ (exists name, ev = EvCopyError name) ->
  placing d w0 n {| files := fs'; log := (log w ++ [ev])%list |}.
Proof.
  intros (evs & Hl & Hf & Hp & Hfr & Hq) Hfs Hev.
  exists (evs ++ [ev])%list. simpl. repeat split.
  - now rewrite Hl, List.app_assoc.
  - apply Forall_app. split; [exact Hf|]. constructor; [|constructor].
    destruct Hev as [-> | (name & ->)]; exact I.
  - unfold placed_indices in *. rewrite filter_map_app, Hp.
    destruct Hev as [-> | (name & ->)]; apply List.app_nil_r.
  - intros q Hs. now rewrite Hfs, Hfr.
  - rewrite existsb_app. destruct Hev as [-> | (name & ->)]; simpl;
      rewrite orb_true_r; discriminate.
Qed.

(** A copy that succeeded, numbered [n + 1]. *)
Lemma placing_placed (n : nat) (w : world) (fs' : Fs.t)
    (original new_name : string) (cover : bool) :
  placing d w0 n w ->
  (forall q, staged d q = false -> Fs.lookup q fs' = Fs.lookup q (files w)) ->
  new_name = fmt03d (S n) ++ lower (snd (splitext original)) ->
  (cover = true -> n = 0) ->
  placing d w0 (S n)
    {| files := fs';
       log := (log w ++ [EvPlaced original (S n) new_name cover])%list |}.
Proof.
  intros (evs & Hl & Hf & Hp & Hfr & Hq) Hfs Hname Hcover.
  exists (evs ++ [EvPlaced original (S n) new_name cover])%list.
  cbn [files log]. repeat split.
  - now rewrite Hl, List.app_assoc.
  - apply Forall_app. split; [exact Hf|].
    constructor; [|constructor]. split; [exact Hname|].
    intros Hc. now rewrite (Hcover Hc).
  - unfold placed_indices in *. rewrite filter_map_app, Hp.
    cbn [Fs.filter_map placed_index]. now rewrite seq_S.
  - intros q Hs. now rewrite Hfs, Hfr.
  - rewrite existsb_app. cbn [existsb is_copy_event].
    rewrite orb_true_r. discriminate.
Qed.

End Steps.

End Placing.

Module PlacePages.
Import PyStr OsPath Run VolumeMaker Spec.
Import StrFacts ListFacts FsFacts PathFacts RunFacts Enumerator Placing.

Lemma wp_get_image_files {R : Type} (E : env) (folder : string)
    (N : list (string * string) -> world -> Prop) (Rt : R -> world -> Prop)
    (Ex : exn -> world -> Prop) (w : world) :
  (forall l, N l w) ->
  N [] {| files := files w; log := (log w ++ [EvReadError folder])%list |} ->
  wp (get_image_files E folder) N Rt Ex w.
Proof.
  intros H1 H2. unfold wp. rewrite get_image_files_eq.
  destruct (readable E folder (files w)); auto.
Qed.

Section Loop.
Variables (E : env) (d : string) (w0 : world).

(** The invariant of the page loop: the counter is one more than the
    number of copies made, which are numbered 1, 2, ... *)
Let J (st : counters) (w : world) : Prop :=
  placing d w0 (total_pages st) w /\ page_counter st = S (total_pages st).

(** The loop is left early only when the cover cannot be copied. *)
Let Stop (b : bool) (w : world) : Prop :=
  b = false
  /\ exists fs',
      w = {| files := fs'; log := (log w0 ++ [EvCoverCopyError])%list |}
      /\ forall q, staged d q = false ->
                   Fs.lookup q fs' = Fs.lookup q (files w0).

Let Never (e : exn) (w : world) : Prop := False.

Let Go (b : bool) (w : world) : Prop := False.

Lemma staged_frame (st : counters) (ext src : string) (fs fs' : Fs.t) :
  (forall q, q <> join d (fmt03d (page_counter st) ++ ext) ->
             q <> join (join d (fmt03d (page_counter st) ++ ext)) (basename src) ->
             Fs.lookup q fs' = Fs.lookup q fs) ->
  forall q, staged d q = false -> Fs.lookup q fs' = Fs.lookup q fs.
Proof.
  intros H q Hq. apply H; intros ->.
  - now rewrite staged_page_path in Hq.
  - rewrite staged_copy_target in Hq; [discriminate | apply staged_page_path].
Qed.

Lemma wp_copy_page (st : counters) (image : string * string) (w : world) :
  J st w -> wp (copy_page E d st image) J Go Never w.
Proof.
  intros [Hp Hc]. unfold copy_page.
  apply wp_try, wp_bind, wp_copy2.
  - intros fs' Hfs. apply wp_bind, wp_print, wp_ret.
    unfold J, advance. cbn [files log total_pages page_counter].
    rewrite !Nat.add_1_r, Hc. split; [|reflexivity].
    apply placing_placed; [exact Hp | | | discriminate].
    + eapply staged_frame, Hfs.
    + now rewrite splitext_lower.
  - intros e fs' Hfs. apply wp_bind, wp_print, wp_ret.
    split; [|exact Hc]. cbn [files log].
    apply placing_failed; [exact Hp | eapply staged_frame, Hfs | eauto].
Qed.

Lemma wp_process_chapter (st : counters) (chapter : Z * string) (w : world) :
  J st w -> wp (process_chapter E d st chapter) J Go Never w.
Proof.
  intros [Hp Hc]. unfold process_chapter.
  assert (Hgo : forall l w', J st w' ->
            wp match l with
               | [] => bind (print (EvNoImages (fst chapter))) (fun _ => ret st)
               | _ :: _ => for_each (copy_page E d) l st
               end J Go Never w').
  { intros l w' [Hp' Hc']. destruct l as [|x l].
    - apply wp_bind, wp_print, wp_ret. split; [|exact Hc'].
      now apply placing_note.
    - apply wp_for_each; [|now split].
      intros s y w1 _. apply wp_copy_page. }
  apply wp_bind, wp_get_image_files.
  - intros l. apply Hgo. now split.
  - apply (Hgo []). split; [|exact Hc]. now apply placing_note.
Qed.

Lemma wp_place_cover (cover : option string) :
  wp (place_cover E d cover {| page_counter := 1; total_pages := 0 |})
     J Stop Never w0.
Proof.
  unfold place_cover. destruct (given cover) as [c|].
  - apply wp_try, wp_bind, wp_copy2.
    + intros fs' Hfs. apply wp_bind, wp_print, wp_ret.
      unfold J, advance. cbn [files log total_pages page_counter].
      split; [|reflexivity].
      apply (placing_placed d w0 0 w0); [apply placing_start | | | reflexivity].
      * eapply staged_frame, Hfs.
      * now rewrite splitext_lower.
    + intros e fs' Hfs. apply wp_bind, wp_print, wp_return.
      split; [reflexivity|]. cbn [files log]. exists fs'.
      split; [reflexivity | eapply staged_frame, Hfs].
  - apply wp_ret. split; [apply placing_start | reflexivity].
Qed.

(** Lines 127-175 never raise.  They end with the counters describing
    the copies made, numbered from 1 without a gap, or with [return False]
    when the cover could not be copied and nothing was placed. *)
Lemma wp_place_pages (cover : option string) (chapters : list (Z * string)) :
  wp (place_pages E d cover chapters)
     (fun st w => placing d w0 (total_pages st) w
                  /\ page_counter st = S (total_pages st))
     (fun b w =>
        b = false
        /\ exists fs',
            w = {| files := fs'; log := (log w0 ++ [EvCoverCopyError])%list |}
            /\ forall q, staged d q = false ->
                         Fs.lookup q fs' = Fs.lookup q (files w0))
     (fun _ _ => False) w0.
Proof.
  unfold place_pages. apply wp_bind.
  eapply wp_mono; [apply wp_place_cover | | auto | auto].
  intros st w HJ.
  assert (Hbody : forall s x w1, In x chapters -> J s w1 ->
                    wp (process_chapter E d s x) J Go Never w1)
    by (intros; now apply wp_process_chapter).
  eapply wp_mono;
    [apply (wp_for_each _ _ J Go Never Hbody); exact HJ
    | auto | intros ? ? H; elim H | auto].
Qed.

End Loop.
End PlacePages.

(** ** The steps before the pages *)

Module Preflight.
Import PyStr OsPath Run VolumeMaker Spec.
Import StrFacts ListFacts FsFacts PathFacts RunFacts.

Lemma wp_confirm_overwrite (E : env) (f p : string)
    (N : unit -> world -> Prop) (Rt : bool -> world -> Prop)
    (Ex : exn -> world -> Prop) (w : world) :
  (Fs.lookup p (files w) = None -> N tt w) ->
  (forall c, Fs.lookup p (files w) = Some (Fs.File c) ->
             lower (response E) = "y" ->
             N tt {| files := Fs.remove p (files w);
                     log := (log w ++ [EvPrompt f])%list |}) ->
  (Fs.lookup p (files w) <> None -> lower (response E) <> "y" ->
   Rt false {| files := files w;
               log := (log w ++ [EvPrompt f; EvCancelled])%list |}) ->
  (Fs.lookup p (files w) = Some Fs.Dir -> lower (response E) = "y" ->
   Ex IsADirectoryError
      {| files := files w; log := (log w ++ [EvPrompt f])%list |}) ->
  wp (confirm_overwrite E f p) N Rt Ex w.
Proof.
  intros H1 H2 H3 H4. destruct w as [fs lg]. simpl in *.
  unfold wp, confirm_overwrite, bind, Os.path_exists, Os.input, Os.remove,
    get_files, put_files, print, ret, return_, raise, bind, Fs.exists_; simpl.
  destruct (Fs.lookup p fs) as [n|] eqn:Hp; simpl; [|now apply H1].
  destruct (String.eqb_spec (lower (response E)) "y") as [Hy|Hy]; simpl.
  - rewrite Hp. destruct n as [c|]; simpl; [now apply (H2 c) | now apply H4].
  - rewrite <- List.app_assoc. apply H3; [discriminate | exact Hy].
Qed.

(** The cover check and the chapter search log preflight lines and leave
    the files alone. *)
Lemma wp_validate_cover (cover : option string)
    (N : unit -> world -> Prop) (Rt : bool -> world -> Prop)
    (Ex : exn -> world -> Prop) (w : world) :
  (forall evs, Forall early_event evs ->
               N tt {| files := files w; log := (log w ++ evs)%list |}) ->
  (forall evs, Forall early_event evs ->
               Rt false {| files := files w; log := (log w ++ evs)%list |}) ->
  wp (validate_cover cover) N Rt Ex w.
Proof.
  intros HN HR. destruct w as [fs lg]. simpl in *.
  unfold wp, validate_cover, bind, Os.path_exists, get_files, print, ret,
    return_, bind.
  destruct (given cover) as [c|]; simpl.
  - destruct (Fs.exists_ c fs); simpl.
    + destruct (is_image_extension _); simpl.
      * apply HN. repeat constructor.
      * apply HR. repeat constructor.
    + apply HR. repeat constructor.
  - specialize (HN [] (Forall_nil _)). now rewrite List.app_nil_r in HN.
Qed.

Lemma wp_locate_chapters (E : env) (base : string) (s e : Z)
    (N : list (Z * string) -> world -> Prop) (Rt : bool -> world -> Prop)
    (Ex : exn -> world -> Prop) (w : world) :
  (forall l evs, Forall pre_event evs ->
                 N l {| files := files w; log := (log w ++ evs)%list |}) ->
  (forall evs, Forall early_event evs ->
               Rt false {| files := files w; log := (log w ++ evs)%list |}) ->
  (forall x, Ex x w) ->
  wp (locate_chapters E base s e) N Rt Ex w.
Proof.
  intros HN HR HE. destruct w as [fs lg]. simpl in *.
  unfold wp, locate_chapters, find_chapter_folders, call, bind, Os.listdir,
    get_files, print, ret, return_, raise, bind.
  simpl. destruct (Fs.lookup base fs) as [[c|]|]; simpl; try apply HE.
  destruct (listdir_fault E base); simpl; [apply HE|].
  destruct (sort_by fst _) as [|x l]; simpl.
  - apply HR. repeat constructor.
  - apply HN. repeat constructor.
Qed.

(** *** The staging directory *)

Lemma made_refl (d : string) (fs : Fs.t) : made d fs fs.
Proof. intros q. now left. Qed.

Lemma made_trans (d : string) (fs1 fs2 fs3 : Fs.t) :
  made d fs1 fs2 -> made d fs2 fs3 -> made d fs1 fs3.
Proof.
  intros H12 H23 q.
  destruct (H12 q) as [E1 | (N1 & D1 & P1)], (H23 q) as [E2 | (N2 & D2 & P2)].
  - left. congruence.
  - right. rewrite <- E1. auto.
  - right. rewrite E2. auto.
  - congruence.
Qed.

Lemma made_write (d p : string) (fs : Fs.t) :
  Fs.lookup p fs = None -> is_prefix p d = true ->
  made d fs (Fs.write p Fs.Dir fs).
Proof.
  intros Hp Hpre q. rewrite lookup_write.
  destruct (String.eqb_spec q p) as [->|]; [right; auto | now left].
Qed.

Lemma ancestors_from_prefix (pre s a : string) :
  In a (Fs.ancestors_from pre s) -> exists rest, pre ++ s = a ++ rest.
Proof.
  revert pre; induction s as [|c s IH]; intros pre; simpl; [tauto|].
  rewrite in_app_iff. intros [H | H].
  - destruct (_ && _); [|destruct H]. destruct H as [<-|[]]. eauto.
  - apply IH in H as (rest & Hr). exists rest.
    rewrite <- Hr, append_assoc. reflexivity.
Qed.

Lemma ancestors_prefix (d a : string) :
  In a (Fs.ancestors d) -> is_prefix a d = true.
Proof.
  intros H. apply ancestors_from_prefix in H as (rest & Hr). simpl in Hr.
  unfold is_prefix, startswith. now rewrite Hr, strip_prefix_app.
Qed.

Lemma wp_mkdir_parents {R : Type} (d : string) (ps : list string)
    (fs0 : Fs.t) (lg : list event) :
  (forall p, In p ps -> is_prefix p d = true) ->
  forall fs, made d fs0 fs ->
  @wp R unit (Os.mkdir_parents ps)
     (fun _ w' => made d fs0 (files w') /\ log w' = lg)
     (fun _ _ => False)
     (fun _ w' => made d fs0 (files w') /\ log w' = lg)
     {| files := fs; log := lg |}.
Proof.
  induction ps as [|p ps IH]; intros Hps fs Hfs; simpl.
  - apply wp_ret. auto.
  - apply wp_bind. unfold Os.mkdir_parent. apply wp_bind, wp_get_files.
    cbn [files log].
    destruct (Fs.lookup p fs) as [[c|]|] eqn:Hp.
    + apply wp_raise. auto.
    + apply wp_ret. apply IH; auto. intros; apply Hps; now right.
    + apply wp_put_files. cbn [files log]. apply IH.
      * intros; apply Hps; now right.
      * eapply made_trans; [exact Hfs|]. apply made_write; [exact Hp|].
        apply Hps. now left.
Qed.

Lemma wp_makedirs {R : Type} (d : string)
    (N : unit -> world -> Prop) (Rt : R -> world -> Prop)
    (Ex : exn -> world -> Prop) (w : world) :
  (forall fs', made d (files w) fs' -> Fs.lookup d fs' = Some Fs.Dir ->
               N tt {| files := fs'; log := log w |}) ->
  (forall e fs', made d (files w) fs' ->
                 Ex e {| files := fs'; log := log w |}) ->
  wp (Os.makedirs d) N Rt Ex w.
Proof.
  intros HN HE. destruct w as [fs lg]. cbn [files log] in *.
  unfold Os.makedirs. apply wp_bind.
  eapply wp_mono;
    [apply (wp_mkdir_parents d (Fs.ancestors d) fs lg);
       [apply ancestors_prefix | apply made_refl] | | intros ? ? [] | ].
  - intros _ [fs1 lg1] [Hm Hl]. cbn [files log] in *. subst lg1.
    apply wp_bind, wp_get_files. cbn [files].
    destruct (Fs.lookup d fs1) as [n|] eqn:Hd.
    + apply wp_raise. now apply HE.
    + apply wp_put_files. cbn [log]. apply HN.
      * eapply made_trans; [exact Hm|]. apply made_write; [exact Hd|].
        apply is_prefix_refl.
      * rewrite lookup_write. now rewrite String.eqb_refl.
  - intros e [fs1 lg1] [Hm Hl]. cbn [files log] in *. subst lg1. now apply HE.
Qed.

Lemma wp_create_staging (d : string)
    (N : unit -> world -> Prop) (Rt : bool -> world -> Prop)
    (Ex : exn -> world -> Prop) (w : world) :
  (forall fs', made d (staging_base d (files w)) fs' ->
               Fs.lookup d fs' = Some Fs.Dir ->
               N tt {| files := fs';
                       log := (log w ++ [EvCreatedTemp d])%list |}) ->
  (forall e fs',
      (fs' = files w /\ Fs.isfile d (files w) = true)
      \/ made d (staging_base d (files w)) fs' ->
      Ex e {| files := fs'; log := log w |}) ->
  wp (create_staging d) N Rt Ex w.
Proof.
  intros HN HE. destruct w as [fs lg]. cbn [files log] in *.
  unfold create_staging, Os.path_exists.
  apply wp_bind, wp_bind, wp_get_files, wp_ret. cbn [files].
  unfold staging_base, Fs.exists_ in *. apply wp_bind.
  assert (Hgo : forall fs1, fs1 = match Fs.lookup d fs with
                                  | Some _ => Fs.remove_tree d fs
                                  | None => fs
                                  end ->
            wp (bind (Os.makedirs d) (fun _ => print (EvCreatedTemp d)))
               N Rt Ex {| files := fs1; log := lg |}).
  { intros fs1 ->. apply wp_bind, wp_makedirs; cbn [files log].
    - intros fs' Hm Hd. apply wp_print. cbn [files log].
      apply HN; [|exact Hd].
      destruct (Fs.lookup d fs); exact Hm.
    - intros e fs' Hm. apply HE. right. destruct (Fs.lookup d fs); exact Hm. }
  destruct (Fs.lookup d fs) as [[c|]|] eqn:Hd.
  - unfold Os.rmtree. apply wp_bind, wp_get_files. cbn [files]. rewrite Hd.
    apply wp_raise. apply HE. left. unfold Fs.isfile. now rewrite Hd.
  - unfold Os.rmtree. apply wp_bind, wp_get_files. cbn [files]. rewrite Hd.
    apply wp_put_files. cbn [log]. now apply Hgo.
  - apply wp_ret. now apply Hgo.
Qed.

End Preflight.

(** ** The archive step *)

Module Archive.
Import PyStr OsPath Run VolumeMaker Spec.
Import StrFacts ListFacts FsFacts PathFacts RunFacts.

Section CreateCbz.
Variables (E : env) (d f cbz : string) (st : counters).
Variables (fs : Fs.t) (lg : list event).
Hypothesis staging_is_dir : Fs.lookup d fs = Some Fs.Dir.
Hypothesis cbz_not_staging : cbz <> d.

Let archive (ms : list (string * Fs.content)) : Fs.t :=
  Fs.write cbz (Fs.File (Fs.Cbz ms)) fs.

Let opened (names : list string) : list event :=
  (lg ++ EvCreatingCbz f :: map EvAdded names)%list.

Lemma staging_survives (ms : list (string * Fs.content)) :
  Fs.lookup d (archive ms) = Some Fs.Dir.
Proof.
  unfold archive. rewrite lookup_write.
  apply not_eq_sym, String.eqb_neq in cbz_not_staging.
  now rewrite cbz_not_staging.
Qed.

(** The [except] branch, entered with the staging directory in place. *)
Lemma wp_cleanup_after_error (fs1 : Fs.t) (lg1 : list event)
    (N : bool -> world -> Prop) (Rt : bool -> world -> Prop)
    (Ex : exn -> world -> Prop) :
  Fs.lookup d fs1 = Some Fs.Dir ->
  N false {| files := Fs.remove_tree d fs1;
             log := (lg1 ++ [EvCbzError])%list |} ->
  wp (bind (print EvCbzError)
        (fun _ => bind (Os.path_exists d)
           (fun found => bind (if found then Os.rmtree d else ret tt)
              (fun _ => ret false))))
     N Rt Ex {| files := fs1; log := lg1 |}.
Proof.
  intros Hd HN. apply wp_bind, wp_print. cbn [files log].
  unfold Os.path_exists, Fs.exists_.
  apply wp_bind, wp_bind, wp_get_files, wp_ret. cbn [files]. rewrite Hd.
  unfold Os.rmtree. apply wp_bind, wp_bind, wp_get_files. cbn [files].
  rewrite Hd. apply wp_put_files, wp_ret. exact HN.
Qed.

(** The members go into the archive one by one; a failure leaves those
    written so far. *)
Lemma wp_add_member (i : nat) (x : string * string)
    (pre : list (string * string)) (ms : list (string * Fs.content))
    (N : nat -> world -> Prop) (Rt : bool -> world -> Prop)
    (Ex : exn -> world -> Prop) :
  map fst ms = map snd pre ->
  (forall c, N (S i) {| files := archive (ms ++ [(snd x, c)]);
                        log := opened (map snd (pre ++ [x])) |}) ->
  (forall e, Ex e {| files := archive ms; log := opened (map snd pre) |}) ->
  wp (add_member E cbz i x) N Rt Ex
     {| files := archive ms; log := opened (map snd pre) |}.
Proof.
  intros Hms HN HE. unfold add_member, Os.zip_write.
  apply wp_bind, wp_bind, wp_get_files. cbn [files].
  apply wp_bind.
  assert (Hgo : wp (match Fs.lookup (fst x) (archive ms),
                          Fs.lookup cbz (archive ms) with
                    | Some (Fs.File c), Some (Fs.File (Fs.Cbz ms0)) =>
                        put_files
                          (Fs.write cbz (Fs.File (Fs.Cbz (ms0 ++ [(snd x, c)])))
                             (archive ms))
                    | Some Fs.Dir, _ => raise IsADirectoryError
                    | _, _ => raise FileNotFoundError
                    end)
                   (fun _ => wp (bind (print (EvAdded (snd x)))
                                   (fun _ => ret (S i))) N Rt Ex)
                   Rt Ex
                   {| files := archive ms; log := opened (map snd pre) |}).
  { assert (Hc : Fs.lookup cbz (archive ms) = Some (Fs.File (Fs.Cbz ms))).
    { unfold archive. rewrite lookup_write. now rewrite String.eqb_refl. }
    rewrite Hc.
    destruct (Fs.lookup (fst x) (archive ms)) as [[c|]|]; try (apply wp_raise, HE).
    apply wp_put_files. cbn [log]. apply wp_bind, wp_print, wp_ret.
    cbn [files log]. unfold archive at 1. rewrite write_write.
    specialize (HN c). unfold opened in *.
    rewrite !map_app, <- List.app_assoc in *. exact HN. }
  destruct (archive_fault E) as [| |k]; try (apply wp_ret; exact Hgo).
  destruct (Nat.eqb k i); [apply wp_raise, HE | apply wp_ret; exact Hgo].
Qed.

(** Lines 176-209, entered with the staging directory in place, return
    and do not raise.  They end in one of three ways: the archive was
    written in full and the staging directory removed; the archive could
    not be opened; a member could not be written, and the archive keeps
    the members written before it. *)
Lemma wp_create_cbz (N : bool -> world -> Prop) (Rt : bool -> world -> Prop)
    (Ex : exn -> world -> Prop) :
  let walk := Fs.walk_files d (archive []) in
  (forall ms, map fst ms = map snd walk ->
     N true {| files := Fs.remove_tree d (archive ms);
               log := (opened (map snd walk)
                       ++ [EvSuccess (total_pages st); EvCleanup])%list |}) ->
  (archive_fault E = OpenFails \/ Fs.isdir cbz fs = true ->
   N false {| files := Fs.remove_tree d fs;
              log := (opened [] ++ [EvCbzError])%list |}) ->
  (forall ms pre x post,
     archive_fault E <> OpenFails ->
     walk = (pre ++ x :: post)%list -> map fst ms = map snd pre ->
     N false {| files := Fs.remove_tree d (archive ms);
                log := (opened (map snd pre) ++ [EvCbzError])%list |}) ->
  wp (create_cbz E d f cbz st) N Rt Ex {| files := fs; log := lg |}.
Proof.
  intros walk Hok Hopen Hwrite. unfold create_cbz.
  apply wp_bind, wp_print. cbn [files log]. apply wp_try.
  assert (Hloop :
            archive_fault E <> OpenFails ->
            wp (bind get_files (fun fs0 =>
                  bind (for_each (add_member E cbz) (Fs.walk_files d fs0) 0)
                    (fun _ => bind (print (EvSuccess (total_pages st)))
                       (fun _ => bind (print EvCleanup)
                          (fun _ => bind (Os.rmtree d) (fun _ => ret true))))))
               N Rt
               (fun e => wp (bind (print EvCbzError)
                  (fun _ => bind (Os.path_exists d)
                     (fun found => bind (if found then Os.rmtree d else ret tt)
                        (fun _ => ret false)))) N Rt Ex)
               {| files := archive []; log := opened [] |}).
  { intros Hnot. apply wp_bind, wp_get_files. cbn [files]. fold walk.
    apply wp_bind.
    eapply wp_mono;
      [apply (wp_for_each_prefix (add_member E cbz) walk
                (fun pre _ w' => exists ms,
                     map fst ms = map snd pre
                     /\ w' = {| files := archive ms;
                                log := opened (map snd pre) |})
                Rt
                (fun e w' => exists ms pre x post,
                     walk = (pre ++ x :: post)%list
                     /\ map fst ms = map snd pre
                     /\ w' = {| files := archive ms;
                                log := opened (map snd pre) |}))
      | | auto | ].
    - intros pre x post i w' Hw (ms & Hms & ->).
      apply wp_add_member; [exact Hms | | ].
      + intros c. exists (ms ++ [(snd x, c)])%list. split; [|reflexivity].
        rewrite !map_app, Hms. reflexivity.
      + intros e. exists ms, pre, x, post. auto.
    - exists []. auto.
    - intros i w' (ms & Hms & ->).
      apply wp_bind, wp_print, wp_bind, wp_print. cbn [files log].
      unfold Os.rmtree. apply wp_bind, wp_bind, wp_get_files. cbn [files].
      rewrite staging_survives. apply wp_put_files, wp_ret. cbn [log].
      rewrite <- !List.app_assoc. cbn [app].
      exact (Hok ms Hms).
    - intros e w' (ms & pre & x & post & Hw & Hms & ->).
      apply wp_cleanup_after_error; [apply staging_survives|].
      now apply (Hwrite ms pre x post). }
  assert (Hfail : archive_fault E = OpenFails \/ Fs.isdir cbz fs = true ->
            wp (bind (print EvCbzError)
              (fun _ => bind (Os.path_exists d)
                 (fun found => bind (if found then Os.rmtree d else ret tt)
                    (fun _ => ret false)))) N Rt Ex
              {| files := fs; log := (lg ++ [EvCreatingCbz f])%list |}).
  { intros H. apply wp_cleanup_after_error; [exact staging_is_dir|].
    specialize (Hopen H). unfold opened in Hopen. cbn [map] in Hopen.
    exact Hopen. }
  apply wp_bind. unfold Os.zip_open. apply wp_bind, wp_get_files. cbn [files].
  assert (Hopened : opened [] = (lg ++ [EvCreatingCbz f])%list) by reflexivity.
  destruct (archive_fault E) as [| |k] eqn:Hf.
  - destruct (Fs.isdir cbz fs) eqn:Hd.
    + apply wp_raise. apply Hfail. now right.
    + apply wp_put_files. cbn [log]. rewrite <- Hopened.
      apply Hloop. discriminate.
  - apply wp_raise. apply Hfail. now left.
  - destruct (Fs.isdir cbz fs) eqn:Hd.
    + apply wp_raise. apply Hfail. now right.
    + apply wp_put_files. cbn [log]. rewrite <- Hopened.
      apply Hloop. discriminate.
Qed.

End CreateCbz.
End Archive.

(** ** A run up to the archive step *)

Module Prepare.
Import PyStr OsPath Run VolumeMaker Spec.
Import StrFacts ListFacts FsFacts PathFacts RunFacts Preflight Placing PlacePages.

Lemma merge_chapters_body_eq (E : env) (base : string) (s e : Z)
    (out cover : option string) (w : world) :
  merge_chapters_body E base s e out cover w
  = bind (prepare E base s e (output_name out s e) cover)
      (fun st => create_cbz E (join base (output_name out s e))
                   (output_name out s e ++ ".cbz")
                   (join base (output_name out s e ++ ".cbz")) st) w.
Proof.
  unfold merge_chapters_body, prepare, output_name, bind.
  repeat match goal with
         | |- context [match ?m ?x with (_, _) => _ end] =>
             destruct (m x) as [[?|?|?] ?]
         end; reflexivity.
Qed.

Lemma world_eta (w : world) : {| files := files w; log := log w |} = w.
Proof. now destruct w. Qed.

Lemma absent_kept_refl (d : string) (fs : Fs.t) : absent_kept d fs fs.
Proof. intros q H _ _. exact H. Qed.

Lemma absent_kept_made (d : string) (fs1 fs' : Fs.t) :
  made d (staging_base d fs1) fs' -> absent_kept d fs1 fs'.
Proof.
  intros Hm q Hq _ Hp.
  assert (Hb : Fs.lookup q (staging_base d fs1) = None).
  { unfold staging_base. destruct (Fs.exists_ d fs1); [|exact Hq].
    rewrite lookup_remove_tree. now destruct (_ || _). }
  destruct (Hm q) as [-> | (_ & _ & Hpre)]; [exact Hb | congruence].
Qed.

Section Run.
Variables (E : env) (base : string) (s e : Z) (name : string).
Variable cover : option string.
Variable w0 : world.

Let d := join base name.
Let f := name ++ ".cbz".
Let cbz := join base (name ++ ".cbz").

Lemma early_is_pre (evs : list event) :
  Forall early_event evs -> Forall pre_event evs.
Proof.
  apply Forall_impl. intros ev. destruct ev; simpl; tauto.
Qed.

Lemma stopped_later (fs1 fs' : Fs.t) (pre : list event) :
  confirmed E cbz (files w0) fs1 -> absent_kept d fs1 fs' ->
  Forall early_event pre ->
  stopped E d cbz w0 {| files := fs'; log := (log w0 ++ pre)%list |}.
Proof.
  intros Hc Ha Hpre. exists pre, []. cbn [files log].
  rewrite List.app_nil_r.
  split; [reflexivity|]. split; [now apply early_is_pre|].
  split; [constructor|]. split; [reflexivity|]. split; [now left|].
  right. eauto.
Qed.

(** From the world in which the staging directory was just created. *)
Lemma wp_pages_from (fs1 fs2 : Fs.t) (pre : list event)
    (chapters : list (Z * string)) :
  confirmed E cbz (files w0) fs1 ->
  made d (staging_base d fs1) fs2 -> Fs.lookup d fs2 = Some Fs.Dir ->
  Forall pre_event pre ->
  wp (place_pages E d cover chapters)
     (ready E d cbz w0)
     (fun b w => b = false /\ stopped E d cbz w0 w)
     (fun _ w => stopped E d cbz w0 w)
     {| files := fs2; log := (log w0 ++ pre)%list |}.
Proof.
  intros Hc Hm Hd Hpre.
  eapply wp_mono; [apply wp_place_pages | | | intros ? ? []].
  - intros st w [(pages & Hl & Hf & Hp & Hfr & Hq) _]. cbn [files log] in *.
    exists fs1, fs2, pre, pages. rewrite Hl, <- List.app_assoc. tauto.
  - intros b w [-> (fs' & -> & Hfr)]. cbn [files log] in *.
    split; [reflexivity|]. exists pre, [EvCoverCopyError]. cbn [files log].
    rewrite <- List.app_assoc.
    split; [reflexivity|]. split; [exact Hpre|].
    split; [repeat constructor|]. split; [reflexivity|].
    split; [now right|].
    right. exists fs1. split; [exact Hc|].
    intros q Hq1 Hs Hpf. rewrite Hfr by exact Hs.
    now apply (absent_kept_made d fs1 fs2 Hm).
Qed.

(** From the world in which the question about an existing archive was
    passed. *)
Lemma wp_after_confirm (fs1 : Fs.t) (pre : list event) :
  confirmed E cbz (files w0) fs1 -> Forall early_event pre ->
  wp (bind (validate_cover cover)
        (fun _ => bind (create_staging d)
        (fun _ => bind (locate_chapters E base s e)
        (fun chapters => place_pages E d cover chapters))))
     (ready E d cbz w0)
     (fun b w => b = false /\ stopped E d cbz w0 w)
     (fun _ w => stopped E d cbz w0 w)
     {| files := fs1; log := (log w0 ++ pre)%list |}.
Proof.
  intros Hc Hpre.
  apply wp_bind, wp_validate_cover; cbn [files log].
  - intros evs1 H1. rewrite <- List.app_assoc.
    assert (Hpre1 : Forall early_event (pre ++ evs1))
      by (apply Forall_app; auto).
    apply wp_bind, wp_create_staging; cbn [files log].
    + intros fs2 Hm Hd. rewrite <- List.app_assoc.
      assert (Hpre2 : Forall early_event ((pre ++ evs1) ++ [EvCreatedTemp d]))
        by (apply Forall_app; split; [exact Hpre1 | repeat constructor]).
      apply wp_bind, wp_locate_chapters; cbn [files log].
      * intros l evs3 H3. rewrite <- List.app_assoc.
        apply (wp_pages_from fs1 fs2); auto.
        apply Forall_app. split; [now apply early_is_pre | exact H3].
      * intros evs3 H3. rewrite <- List.app_assoc. split; [reflexivity|].
        apply (stopped_later fs1); [exact Hc | now apply absent_kept_made |].
        apply Forall_app. auto.
      * intros x. apply (stopped_later fs1);
          [exact Hc | now apply absent_kept_made | exact Hpre2].
    + intros x fs' [[-> _] | Hm];
        (apply (stopped_later fs1); [exact Hc | | exact Hpre1]).
      * apply absent_kept_refl.
      * now apply absent_kept_made.
  - intros evs1 H1. rewrite <- List.app_assoc. split; [reflexivity|].
    apply (stopped_later fs1); [exact Hc | apply absent_kept_refl |].
    apply Forall_app. auto.
Qed.

(** Lines 85-175 end ready for the archive step, or stopped with
    [return False] or an exception. *)
Lemma wp_prepare :
  wp (prepare E base s e name cover)
     (ready E d cbz w0)
     (fun b w => b = false /\ stopped E d cbz w0 w)
     (fun _ w => stopped E d cbz w0 w)
     w0.
Proof.
  unfold prepare. apply wp_bind, wp_confirm_overwrite.
  - intros Hn.
    pose proof (wp_after_confirm (files w0) [] (or_introl (conj Hn eq_refl))
                  (Forall_nil _)) as H.
    rewrite List.app_nil_r, world_eta in H. exact H.
  - intros c Hc Hy. apply wp_after_confirm; [|repeat constructor].
    right. eauto.
  - intros Hx Hy. split; [reflexivity|].
    exists [EvPrompt f; EvCancelled], []. cbn [files log].
    rewrite List.app_nil_r.
    split; [reflexivity|]. split; [repeat constructor|].
    split; [constructor|]. split; [reflexivity|].
    split; [left; repeat constructor|]. left. auto.
  - intros Hx Hy. exists [EvPrompt f], []. cbn [files log].
    rewrite List.app_nil_r.
    split; [reflexivity|]. split; [repeat constructor|].
    split; [constructor|]. split; [reflexivity|].
    split; [left; repeat constructor|]. left.
    split; [reflexivity|]. unfold cbz. split; [congruence | now right].
Qed.

End Run.
End Prepare.

(** ** Whole runs *)

Module WholeRun.
Import PyStr OsPath Run VolumeMaker Spec.
Import StrFacts ListFacts FsFacts PathFacts RunFacts Placing Prepare Archive.

Section Run.
Variables (E : env) (base : string) (s e : Z) (out cover : option string).
Variable w0 : world.

Let name := output_name out s e.
Let d := join base name.
Let cbz := join base (name ++ ".cbz").

Lemma ready_staging_dir (st : counters) (w : world) :
  ready E d cbz w0 st w -> Fs.lookup d (files w) = Some Fs.Dir.
Proof.
  intros (fs1 & fs2 & pre & pages & _ & _ & Hd & _ & _ & _ & _ & Hfr & _).
  rewrite Hfr; [exact Hd | apply staged_self].
Qed.

(** A run of the body of [merge_chapters] stops before the archive step,
    or goes through it from a world that is ready. *)
Lemma wp_merge_chapters_body (N : bool -> world -> Prop)
    (Ex : exn -> world -> Prop) :
  (forall w, stopped E d cbz w0 w -> N false w /\ forall x, Ex x w) ->
  (forall st w, ready E d cbz w0 st w ->
                wp (create_cbz E d (name ++ ".cbz") cbz st) N N Ex w) ->
  wp (merge_chapters_body E base s e out cover) N N Ex w0.
Proof.
  intros Hstop Hready. unfold wp. rewrite merge_chapters_body_eq.
  apply wp_bind.
  eapply wp_mono; [apply wp_prepare | exact Hready | | ].
  - intros b w [-> H]. now apply Hstop.
  - intros x w H. now apply Hstop.
Qed.

(** From the body to the call. *)
Lemma merge_chapters_elim {R : Type} (Q : result R bool -> world -> Prop) :
  wp (merge_chapters_body E base s e out cover)
     (fun b w => Q (Normal b) w) (fun b w => Q (Normal b) w)
     (fun x w => Q (Raise x) w) w0 ->
  Q (fst (@merge_chapters E R base s e out cover w0))
    (snd (@merge_chapters E R base s e out cover w0)).
Proof.
  unfold wp, merge_chapters, call.
  destruct (merge_chapters_body E base s e out cover w0) as [[b|b|x] w]; auto.
Qed.

Lemma cbz_event_added (names : list string) :
  Forall cbz_event (map EvAdded names).
Proof. induction names; simpl; constructor; simpl; auto. Qed.

Lemma success_not_added (t : nat) (names : list string) :
  ~ In (EvSuccess t) (map EvAdded names).
Proof. intros H. apply in_map_iff in H as (x & Hx & _). discriminate. Qed.

(** The log of the archive step. *)
Lemma wp_create_cbz_log (st : counters) (w : world) :
  Fs.lookup d (files w) = Some Fs.Dir ->
  wp (create_cbz E d (name ++ ".cbz") cbz st)
     (fun _ w' => exists post,
          log w' = (log w ++ post)%list /\ Forall cbz_event post
          /\ In (EvCreatingCbz (name ++ ".cbz")) post
          /\ forall t, In (EvSuccess t) post -> t = total_pages st)
     (fun _ _ => False) (fun _ _ => False) w.
Proof.
  intros Hd. destruct w as [fs lg]. cbn [files log] in *.
  apply wp_create_cbz; [exact Hd | apply cbz_neq_output | | | ]; cbn zeta.
  - intros ms _. eexists. split; [rewrite <- List.app_assoc; reflexivity|].
    split; [|split; [now left|]].
    + constructor; [exact I|]. apply Forall_app. split;
        [apply cbz_event_added | repeat constructor].
    + intros t [H|H]; [discriminate|]. apply in_app_iff in H as [H|H].
      * now apply success_not_added in H.
      * destruct H as [[= <-]|[H|[]]]; [reflexivity | discriminate].
  - intros _. eexists. split; [rewrite <- List.app_assoc; reflexivity|].
    split; [repeat constructor|]. split; [now left|].
    intros t [H|[H|[]]]; discriminate.
  - intros ms pre x post _ _ _. eexists.
    split; [rewrite <- List.app_assoc; reflexivity|].
    split; [|split; [now left|]].
    + constructor; [exact I|]. apply Forall_app. split;
        [apply cbz_event_added | repeat constructor].
    + intros t [H|H]; [discriminate|]. apply in_app_iff in H as [H|H].
      * now apply success_not_added in H.
      * destruct H as [H|[]]; discriminate.
Qed.

Lemma confirmed_absent (fs1 : Fs.t) :
  confirmed E cbz (files w0) fs1 -> Fs.lookup cbz fs1 = None.
Proof.
  intros [[Hn ->] | (c & _ & _ & ->)]; [exact Hn|].
  rewrite lookup_remove. now rewrite String.eqb_refl.
Qed.

(** A run that stopped after a confirmed overwrite has no archive. *)
Lemma stopped_cbz_absent (w : world) (c : Fs.content) :
  stopped E d cbz w0 w ->
  Fs.lookup cbz (files w0) = Some (Fs.File c) -> lower (response E) = "y" ->
  Fs.lookup cbz (files w) = None.
Proof.
  intros (pre & pages & _ & _ & _ & _ & _ & Hcase) Hc Hy.
  destruct Hcase as [(Hf & Hx & [Hr | Hdir]) | (fs1 & Hc1 & Ha)];
    [congruence | congruence |].
  apply Ha; [now apply confirmed_absent | apply staged_cbz | apply cbz_not_prefix].
Qed.

Lemma ready_cbz_absent (st : counters) (w : world) :
  ready E d cbz w0 st w -> Fs.lookup cbz (files w) = None.
Proof.
  intros (fs1 & fs2 & pre & pages & Hc & Hm & _ & _ & _ & _ & _ & Hfr & _).
  rewrite Hfr by apply staged_cbz.
  apply (absent_kept_made d fs1 fs2 Hm);
    [now apply confirmed_absent | apply staged_cbz | apply cbz_not_prefix].
Qed.

(** The log of a run: preflight lines, then the lines of the page loop,
    whose copies are numbered 1 to [n], then the lines of the archive
    step, which report [n] pages if they report success. *)
Lemma run_log_shape (R : Type) :
  exists pre pages post n,
    log (snd (@merge_chapters E R base s e out cover w0))
    = (log w0 ++ pre ++ pages ++ post)%list
    /\ Forall pre_event pre /\ Forall place_event pages
    /\ Forall cbz_event post
    /\ placed_indices pages = seq 1 n
    /\ (forall t, In (EvSuccess t) post -> t = n).
Proof.
  apply (merge_chapters_elim
           (fun _ w => exists pre pages post n,
                log w = (log w0 ++ pre ++ pages ++ post)%list
                /\ Forall pre_event pre /\ Forall place_event pages
                /\ Forall cbz_event post
                /\ placed_indices pages = seq 1 n
                /\ (forall t, In (EvSuccess t) post -> t = n))).
  apply wp_merge_chapters_body.
  - intros w (pre & pages & Hl & Hpre & Hpages & Hp & _).
    assert (H : exists pre pages post n,
               log w = (log w0 ++ pre ++ pages ++ post)%list
               /\ Forall pre_event pre /\ Forall place_event pages
               /\ Forall cbz_event post
               /\ placed_indices pages = seq 1 n
               /\ (forall t, In (EvSuccess t) post -> t = n)).
    { exists pre, pages, [], 0. rewrite List.app_nil_r.
      repeat split; auto. intros t []. }
    split; [exact H | intros _; exact H].
  - intros st w Hr. pose proof (ready_staging_dir st w Hr) as Hd.
    destruct Hr as (fs1 & fs2 & pre & pages & _ & _ & _ & Hl & Hpre & Hpages
                    & Hp & _).
    eapply wp_mono;
      [apply (wp_create_cbz_log st w Hd) | | intros ? ? [] | intros ? ? []].
    intros b w' (post & Hl' & Hpost & _ & Hs).
    exists pre, pages, post, (total_pages st).
    rewrite Hl', Hl, <- !List.app_assoc. repeat split; auto.
Qed.

End Run.
End WholeRun.

(** ** Page numbers and names *)

Module Numbering.
Import PyStr OsPath Run VolumeMaker Spec.
Import StrFacts ListFacts FsFacts PathFacts RunFacts Placing PlacePages WholeRun.


Lemma pre_event_not_placed (evs : list event) :
  Forall pre_event evs ->
  placed_indices evs = [] /\ forall t, ~ In (EvSuccess t) evs.
Proof.
  induction 1 as [|ev evs Hev _ [IH1 IH2]]; [split; [reflexivity | intros t []]|].
  split.
  - destruct ev; simpl in *; try contradiction; exact IH1.
  - intros t [->|H]; [exact Hev | exact (IH2 t H)].
Qed.


Lemma place_event_not_success (evs : list event) (t : nat) :
  Forall place_event evs -> ~ In (EvSuccess t) evs.
Proof.
  intros H Hin. rewrite Forall_forall in H. exact (H _ Hin).
Qed.


(** C7 as stated fails: the page "p2.PNG" is staged as "002.png", its
    extension lower-cased, not as "002.PNG". *)
Lemma extension_is_not_kept_as_is :
  ~ (forall (E : env) base s e out cover w0 evs original i new_name c,
        log (snd (@merge_chapters E unit base s e out cover w0))
        = (log w0 ++ evs)%list ->
        In (EvPlaced original i new_name c) evs ->
        new_name = fmt03d i ++ snd (splitext original)).
Proof.
  intros H.
  specialize (H Samples.calm "/m" 2%Z 2%Z None None
                (Samples.start Samples.library)).
  specialize (H (log (snd (@merge_chapters Samples.calm unit "/m" 2%Z 2%Z
                             None None (Samples.start Samples.library))))
                "p2.PNG" 2 "002.png" false eq_refl).
  assert (Hin : In (EvPlaced "p2.PNG" 2 "002.png" false)
                  (log (snd (@merge_chapters Samples.calm unit "/m" 2%Z 2%Z
                               None None (Samples.start Samples.library))))).
  { vm_compute. auto 10. }
  specialize (H Hin). vm_compute in H. discriminate H.
Qed.

(** C7, amended.  Every file a run places, cover or page, is named by its
    page number in three digits followed by the extension of the original
    in lower case; the extension is unchanged when it has no upper-case
    letter. *)
Theorem staged_name_has_lowercase_extension (E : env) (R : Type)
    (base : string) (s e : Z) (out cover : option string) (w0 : world) :
  exists evs,
    log (snd (@merge_chapters E R base s e out cover w0)) = (log w0 ++ evs)%list
    /\ forall original i new_name c,
        In (EvPlaced original i new_name c) evs ->
        new_name = fmt03d i ++ lower (snd (splitext original))
        /\ (lower (snd (splitext original)) = snd (splitext original) ->
            new_name = fmt03d i ++ snd (splitext original)).
Proof.
  destruct (run_log_shape E base s e out cover w0 R)
    as (pre & pages & post & n & Hl & Hpre & Hpages & Hpost & _).
  exists (pre ++ pages ++ post)%list. split; [exact Hl|].
  intros original i new_name c Hin.
  assert (Hn : new_name = fmt03d i ++ lower (snd (splitext original))).
  { rewrite Forall_forall in Hpre, Hpages, Hpost.
    apply in_app_iff in Hin as [Hin|Hin]; [exact (match Hpre _ Hin with end)|].
    apply in_app_iff in Hin as [Hin|Hin];
      [exact (proj1 (Hpages _ Hin)) | exact (match Hpost _ Hin with end)]. }
  split; [exact Hn | intros Hx; now rewrite <- Hx].
Qed.

End Numbering.

(** ** The staging directory *)

Module Staging.
Import PyStr OsPath Run VolumeMaker Spec.
Import StrFacts ListFacts FsFacts PathFacts RunFacts Preflight Prepare.

(** What has become of a directory [d] of the files [fs]: nothing is
    inside it, and what lies elsewhere is kept. *)
Lemma create_staging_clears (d : string) (w : world) :
  Fs.isdir d (files w) = true ->
  wp (create_staging d)
     (fun _ w' =>
        log w' = (log w ++ [EvCreatedTemp d])%list
        /\ Fs.lookup d (files w') = Some Fs.Dir
        /\ (forall q, inside d q = true -> Fs.lookup q (files w') = None)
        /\ (forall q n, Fs.lookup q (files w) = Some n -> q <> d ->
                        inside d q = false -> Fs.lookup q (files w') = Some n))
     (fun _ _ => False)
     (fun _ w' =>
        log w' = log w
        /\ (forall q, inside d q = true -> Fs.lookup q (files w') = None)
        /\ (forall q n, Fs.lookup q (files w) = Some n -> q <> d ->
                        inside d q = false -> Fs.lookup q (files w') = Some n))
     w.
Proof.
  intros Hd.
  assert (Hbase : staging_base d (files w) = Fs.remove_tree d (files w)).
  { unfold staging_base, Fs.exists_. unfold Fs.isdir in Hd.
    now destruct (Fs.lookup d (files w)). }
  assert (Hin : forall fs', made d (staging_base d (files w)) fs' ->
                forall q, inside d q = true -> Fs.lookup q fs' = None).
  { intros fs' Hm q Hq. rewrite Hbase in Hm.
    destruct (Hm q) as [-> | (_ & _ & Hp)].
    - rewrite lookup_remove_tree. unfold inside in Hq.
      apply andb_true_iff in Hq as [-> _]. now rewrite orb_true_r.
    - now rewrite (inside_not_prefix _ _ Hq) in Hp. }
  assert (Hout : forall fs', made d (staging_base d (files w)) fs' ->
                 forall q n, Fs.lookup q (files w) = Some n -> q <> d ->
                             inside d q = false -> Fs.lookup q fs' = Some n).
  { intros fs' Hm q n Hq Hne Hi. rewrite Hbase in Hm.
    assert (Hk : Fs.lookup q (Fs.remove_tree d (files w)) = Some n).
    { rewrite lookup_remove_tree. unfold inside in Hi.
      apply String.eqb_neq in Hne. rewrite Hne in *. simpl in *.
      rewrite andb_true_r in Hi. now rewrite Hi. }
    destruct (Hm q) as [-> | (Hn & _)]; [exact Hk | congruence]. }
  apply wp_create_staging.
  - intros fs' Hm Hd'. cbn [files log]. auto.
  - intros x fs' [[-> Hf] | Hm]; cbn [files log].
    + unfold Fs.isdir, Fs.isfile in *.
      destruct (Fs.lookup d (files w)) as [[c|]|]; discriminate.
    + auto.
Qed.

(** C9.  [create_staging], the step of [merge_chapters] between the cover
    check and the chapter search, takes no answer from the user and logs
    no prompt.  Run in a world where a directory is at the staging path,
    it leaves nothing inside that directory, whether it ends normally,
    with the staging path an empty directory, or raises; what lies
    elsewhere is kept.  And in a run of [merge_chapters] that started with
    a directory at the staging path and gets to the archive step, the
    only things inside the staging directory at that point are pages the
    run has staged. *)
Theorem existing_staging_directory_is_cleared (E : env) (base : string)
    (s e : Z) (out cover : option string) (w0 : world) :
  Fs.isdir (join base (output_name out s e)) (files w0) = true ->
  (forall w,
      Fs.isdir (join base (output_name out s e)) (files w) = true ->
      wp (create_staging (join base (output_name out s e)))
         (fun _ w' =>
            log w' = (log w ++ [EvCreatedTemp (join base (output_name out s e))])%list
            /\ Fs.lookup (join base (output_name out s e)) (files w')
               = Some Fs.Dir
            /\ (forall q, inside (join base (output_name out s e)) q = true ->
                          Fs.lookup q (files w') = None)
            /\ (forall q n,
                   Fs.lookup q (files w) = Some n ->
                   q <> join base (output_name out s e) ->
                   inside (join base (output_name out s e)) q = false ->
                   Fs.lookup q (files w') = Some n))
         (fun _ _ => False)
         (fun _ w' =>
            log w' = log w
            /\ (forall q, inside (join base (output_name out s e)) q = true ->
                          Fs.lookup q (files w') = None)
            /\ (forall q n,
                   Fs.lookup q (files w) = Some n ->
                   q <> join base (output_name out s e) ->
                   inside (join base (output_name out s e)) q = false ->
                   Fs.lookup q (files w') = Some n))
         w)
  /\ wp (prepare E base s e (output_name out s e) cover)
        (fun _ w =>
           forall q, inside (join base (output_name out s e)) q = true ->
                     staged (join base (output_name out s e)) q = false ->
                     Fs.lookup q (files w) = None)
        (fun _ _ => True) (fun _ _ => True) w0.
Proof.
  intros Hd. split; [intros w Hw; now apply create_staging_clears|].
  eapply wp_mono; [apply wp_prepare | | auto | auto].
  intros st w (fs1 & fs2 & pre & pages & Hc & Hm & _ & _ & _ & _ & _ & Hfr & _)
         q Hin Hst.
  rewrite Hfr by exact Hst.
  assert (Hd1 : Fs.exists_ (join base (output_name out s e)) fs1 = true).
  { unfold Fs.exists_, Fs.isdir in *.
    destruct Hc as [[_ ->] | (c & _ & _ & ->)].
    - now destruct (Fs.lookup _ (files w0)).
    - rewrite lookup_remove.
      pose proof (cbz_neq_output base (output_name out s e)) as Hne.
      apply not_eq_sym, String.eqb_neq in Hne. rewrite Hne.
      now destruct (Fs.lookup _ (files w0)). }
  unfold staging_base in Hm. rewrite Hd1 in Hm.
  destruct (Hm q) as [-> | (_ & _ & Hp)].
  - rewrite lookup_remove_tree. unfold inside in Hin.
    apply andb_true_iff in Hin as [-> _]. now rewrite orb_true_r.
  - now rewrite (inside_not_prefix _ _ Hin) in Hp.
Qed.

Lemma existing_staging_directory_is_cleared_witness :
  fst (create_staging "/m/vol" (Samples.start Samples.library_with_leftovers))
  = Normal tt
  /\ Fs.lookup "/m/vol/keep/me.txt"
       (files (snd (create_staging "/m/vol"
                      (Samples.start Samples.library_with_leftovers))))
     = None.
Proof.
  destruct (existing_staging_directory_is_cleared Samples.calm "/m" 2 10
              (Some "vol") None
              (Samples.start Samples.library_with_leftovers) eq_refl)
    as [H _].
  specialize (H (Samples.start Samples.library_with_leftovers) eq_refl).
  apply wp_elim in H.
  change (join "/m" (output_name (Some "vol") 2 10)) with "/m/vol" in H.
  assert (Hr : fst (create_staging "/m/vol"
                      (Samples.start Samples.library_with_leftovers))
               = Normal tt) by reflexivity.
  rewrite Hr in H. destruct H as (_ & _ & Hin & _). split; [exact Hr|].
  apply Hin. reflexivity.
Defined.

End Staging.

(** ** What a run leaves behind *)

Module Outcomes.
Import PyStr OsPath Run VolumeMaker Spec.
Import StrFacts ListFacts FsFacts PathFacts RunFacts Placing Prepare Archive.
Import WholeRun Numbering.

(** C10.  When the target archive exists as a file and the answer to the
    prompt is "y" (or "Y"), [confirm_overwrite], the first step of
    [merge_chapters], removes it before anything else is done; and a run
    that then ends without starting to write an archive (no chapter in
    the range, a bad cover, a failed cover copy, an exception) does not
    return True and leaves nothing at the target path. *)
Theorem confirmed_overwrite_removes_archive_first (E : env) (R : Type)
    (base : string) (s e : Z) (out cover : option string) (w0 : world)
    (c : Fs.content) :
  Fs.lookup (join base (output_name out s e ++ ".cbz")) (files w0)
  = Some (Fs.File c) ->
  lower (response E) = "y" ->
  confirm_overwrite E (output_name out s e ++ ".cbz")
    (join base (output_name out s e ++ ".cbz")) w0
  = (Normal tt,
     {| files := Fs.remove (join base (output_name out s e ++ ".cbz")) (files w0);
        log := (log w0 ++ [EvPrompt (output_name out s e ++ ".cbz")])%list |})
  /\ Fs.lookup (join base (output_name out s e ++ ".cbz"))
       (Fs.remove (join base (output_name out s e ++ ".cbz")) (files w0))
     = None
  /\ (forall evs,
         log (snd (@merge_chapters E R base s e out cover w0))
         = (log w0 ++ evs)%list ->
         (forall f, ~ In (EvCreatingCbz f) evs) ->
         fst (@merge_chapters E R base s e out cover w0) <> Normal true
         /\ Fs.lookup (join base (output_name out s e ++ ".cbz"))
              (files (snd (@merge_chapters E R base s e out cover w0)))
            = None).
Proof.
  intros Hc Hy. split; [|split].
  - destruct w0 as [fs lg]. cbn [files log] in *.
    unfold confirm_overwrite, bind, Os.path_exists, Os.input, Os.remove,
      get_files, put_files, print, ret, bind, Fs.exists_; cbn [files log].
    rewrite Hc. cbn. rewrite Hy. cbn. rewrite Hc. reflexivity.
  - rewrite lookup_remove. now rewrite String.eqb_refl.
  - apply (merge_chapters_elim E base s e out cover w0
             (fun r w => forall evs,
                  log w = (log w0 ++ evs)%list ->
                  (forall f, ~ In (EvCreatingCbz f) evs) ->
                  r <> Normal true
                  /\ Fs.lookup (join base (output_name out s e ++ ".cbz"))
                       (files w) = None)).
    apply wp_merge_chapters_body.
    + intros w Hs.
      pose proof (stopped_cbz_absent E base s e out w0 w c Hs Hc Hy) as Ha.
      split; [intros evs _ _ | intros x evs _ _]; split; auto; discriminate.
    + intros st w Hr.
      pose proof (ready_staging_dir E base s e out w0 st w Hr) as Hd.
      destruct Hr as (fs1 & fs2 & pre & pages & _ & _ & _ & Hl & _).
      eapply wp_mono;
        [apply (wp_create_cbz_log E base s e out st w Hd)
        | | intros ? ? [] | intros ? ? []].
      intros b w' (post & Hl' & _ & Hin & _) evs Hevs Hno. exfalso.
      rewrite Hl', Hl, <- !List.app_assoc in Hevs.
      apply List.app_inv_head in Hevs. subst evs.
      apply (Hno (output_name out s e ++ ".cbz")).
      apply in_app_iff. right. apply in_app_iff. now right.
Qed.

Lemma confirmed_overwrite_removes_archive_first_witness :
  fst (@merge_chapters Samples.calm unit "/m" 30 40 (Some "vol") None
         (Samples.start Samples.library_with_archive))
  <> Normal true
  /\ Fs.lookup "/m/vol.cbz"
       (files (snd (@merge_chapters Samples.calm unit "/m" 30 40 (Some "vol")
                      None (Samples.start Samples.library_with_archive))))
     = None.
Proof.
  destruct (confirmed_overwrite_removes_archive_first Samples.calm unit "/m"
              30 40 (Some "vol") None
              (Samples.start Samples.library_with_archive)
              (Fs.Cbz [("001.jpg", Fs.Bytes "old")]) eq_refl eq_refl)
    as (_ & _ & H).
  apply (H [EvPrompt "vol.cbz"; EvCreatedTemp "/m/vol"; EvNoChapters 30 40]).
  - reflexivity.
  - intros f [H1|[H1|[H1|[]]]]; discriminate H1.
Defined.

End Outcomes.

(** ** Early exits *)

Module EarlyExits.
Import PyStr OsPath Run VolumeMaker Spec.

(** C2 fails on the code.  The two exits of [merge_chapters] that follow
    the creation of the staging directory, no chapter found (line 120) and
    cover not copied (line 144), execute [return False] with the files as
    they are.  So a run with no chapter folder in the range, and a run
    whose cover cannot be read, return False with the staging directory
    still there. *)
Theorem staging_directory_survives_early_exits :
  (forall (E : env) base s e (w : world),
      fst (@find_chapter_folders E bool base s e w) = Normal [] ->
      locate_chapters E base s e w
      = (Return false,
         {| files := files w; log := (log w ++ [EvNoChapters s e])%list |}))
  /\ (forall (E : env) d cover st (w : world),
         copy_fault E cover
           (join d (fmt03d (page_counter st) ++ snd (splitext (lower cover))))
         = Some None ->
         cover <> "" ->
         place_cover E d (Some cover) st w
         = (Return false,
            {| files := files w; log := (log w ++ [EvCoverCopyError])%list |}))
  /\ (fst (@merge_chapters Samples.calm unit "/m" 30 40 None None
             (Samples.start Samples.library)) = Normal false
      /\ Fs.isdir "/m/Chapters_30-40_merged"
           (files (snd (@merge_chapters Samples.calm unit "/m" 30 40 None None
                          (Samples.start Samples.library)))) = true)
  /\ (fst (@merge_chapters Samples.cover_unreadable unit "/m" 2 10 (Some "vol")
             (Some "/c.jpg") (Samples.start Samples.library)) = Normal false
      /\ Fs.isdir "/m/vol"
           (files (snd (@merge_chapters Samples.cover_unreadable unit "/m" 2 10
                          (Some "vol") (Some "/c.jpg")
                          (Samples.start Samples.library)))) = true).
Proof.
  split; [|split; [|vm_compute; auto]].
  - intros E base s e w H. unfold locate_chapters, bind.
    destruct (find_chapter_folders E base s e w) as [[l|b|x] w'] eqn:Hf;
      try discriminate H.
    cbn [fst] in H. injection H as ->.
    assert (Hw : w' = w).
    { pose proof (Locator.find_chapter_folders_files E bool base s e w) as Hs.
      now rewrite Hf in Hs. }
    subst w'. reflexivity.
  - intros E d cover st w Hfault Hne.
    unfold place_cover, given. destruct cover as [|c cover]; [congruence|].
    unfold try_except, bind, Os.copy2, get_files, bind, raise, ret, print,
      return_.
    cbn [files log]. rewrite Hfault. destruct w; reflexivity.
Qed.

End EarlyExits.

(** ** A plan without pages *)

Module EmptyPlan.
Import PyStr OsPath Run VolumeMaker Spec.
Import StrFacts ListFacts FsFacts PathFacts RunFacts Placing Prepare Archive.
Import WholeRun Numbering.

Lemma no_copy_no_placed (evs : list event) :
  existsb is_copy_event evs = false -> placed_indices evs = [].
Proof.
  induction evs as [|ev evs IH]; [reflexivity|]. simpl.
  intros H. apply orb_false_iff in H as [Hev Hevs].
  destruct ev; simpl in *; try discriminate; auto.
Qed.

Lemma no_orphans_confirmed (E : env) (d cbz : string) (fs0 fs1 : Fs.t) :
  cbz <> d -> no_orphans d fs0 -> confirmed E cbz fs0 fs1 -> no_orphans d fs1.
Proof.
  intros Hne Ho [[_ ->] | (c & _ & _ & ->)]; [exact Ho|].
  intros Hd q Hq. rewrite lookup_remove in *.
  apply not_eq_sym, String.eqb_neq in Hne. rewrite Hne in Hd.
  destruct (String.eqb q cbz); [reflexivity | now apply Ho].
Qed.

(** A staging directory just created is empty. *)
Lemma staging_empty (d : string) (fs1 fs2 : Fs.t) :
  no_orphans d fs1 -> made d (staging_base d fs1) fs2 ->
  forall q, inside d q = true -> Fs.lookup q fs2 = None.
Proof.
  intros Ho Hm q Hq.
  destruct (Hm q) as [-> | (_ & _ & Hp)];
    [| now rewrite (inside_not_prefix _ _ Hq) in Hp].
  unfold inside in Hq. apply andb_true_iff in Hq as [Hb _].
  unfold staging_base, Fs.exists_.
  destruct (Fs.lookup d fs1) eqn:Hd.
  - rewrite lookup_remove_tree, Hb. now rewrite orb_true_r.
  - now apply Ho.
Qed.

(** A check of [no_orphans] on a given list of files. *)
Lemma no_orphans_check (d : string) (fs : Fs.t) :
  forallb (fun kv => negb (Fs.below d (fst kv))) fs = true -> no_orphans d fs.
Proof.
  intros H _ q Hq. destruct (Fs.lookup q fs) as [n|] eqn:Hl; [|reflexivity].
  apply lookup_in in Hl. rewrite forallb_forall in H.
  specialize (H _ Hl). cbn [fst] in H. now rewrite Hq in H.
Qed.

(** C3 as stated fails: one chapter folder without images and no cover
    make a run that returns True and writes an archive with no member. *)
Lemma empty_plan_is_not_refused :
  ~ (forall (E : env) base s e out w0 evs nums,
        log (snd (@merge_chapters E unit base s e out None w0))
        = (log w0 ++ evs)%list ->
        In (EvFound nums) evs ->
        existsb is_copy_event evs = false ->
        fst (@merge_chapters E unit base s e out None w0) = Normal false
        /\ Fs.lookup (join base (output_name out s e ++ ".cbz"))
             (files (snd (@merge_chapters E unit base s e out None w0)))
           = None).
Proof.
  intros H.
  specialize (H Samples.calm "/m" 1%Z 1%Z None
                (Samples.start Samples.empty_chapter)
                (log (snd (@merge_chapters Samples.calm unit "/m" 1%Z 1%Z None
                             None (Samples.start Samples.empty_chapter))))
                [1%Z] eq_refl).
  destruct H as [H _]; [vm_compute; auto | reflexivity |].
  vm_compute in H. discriminate H.
Qed.

(** C3, amended.  In a run without a cover in which chapters are found
    and no copy is attempted (every chapter found has no page), with an
    output name whose last component names a folder of its own (it is not
    empty and is neither "." nor "..") and no failure of the archive
    writer, the run returns True, reports 0 pages, writes an archive with
    no member at the target path and removes the staging directory. *)
Theorem empty_plan_yields_empty_archive (E : env) (R : Type) (base : string)
    (s e : Z) (out : option string) (w0 : world) (evs : list event)
    (nums : list Z) :
  own_folder (output_name out s e) = true ->
  no_orphans (join base (output_name out s e)) (files w0) ->
  archive_fault E = NoFault ->
  log (snd (@merge_chapters E R base s e out None w0)) = (log w0 ++ evs)%list ->
  In (EvFound nums) evs ->
  existsb is_copy_event evs = false ->
  fst (@merge_chapters E R base s e out None w0) = Normal true
  /\ Fs.lookup (join base (output_name out s e ++ ".cbz"))
       (files (snd (@merge_chapters E R base s e out None w0)))
     = Some (Fs.File (Fs.Cbz []))
  /\ Fs.lookup (join base (output_name out s e))
       (files (snd (@merge_chapters E R base s e out None w0))) = None
  /\ In (EvSuccess 0) evs.
Proof.
  intros Hown Horph Hfault. revert evs nums.
  pose proof (own_folder_plain _ Hown) as Hplain.
  set (d := join base (output_name out s e)).
  set (cbz := join base (output_name out s e ++ ".cbz")).
  assert (Hne : cbz <> d) by apply cbz_neq_output.
  assert (Hout : Fs.below d cbz = false) by now apply plain_cbz_outside.
  apply (merge_chapters_elim E base s e out None w0
           (fun r w => forall evs nums,
                log w = (log w0 ++ evs)%list ->
                In (EvFound nums) evs ->
                existsb is_copy_event evs = false ->
                r = Normal true
                /\ Fs.lookup cbz (files w) = Some (Fs.File (Fs.Cbz []))
                /\ Fs.lookup d (files w) = None
                /\ In (EvSuccess 0) evs)).
  apply wp_merge_chapters_body.
  - intros w (pre & pages & Hl & Hpre & Hpages & _ & Hearly & _).
    assert (Hno : forall evs nums,
               log w = (log w0 ++ evs)%list -> In (EvFound nums) evs ->
               existsb is_copy_event evs = false -> False).
    { intros evs nums Hevs Hfound Hcopy.
      rewrite Hl in Hevs. apply List.app_inv_head in Hevs. subst evs.
      rewrite existsb_app in Hcopy. apply orb_false_iff in Hcopy as [_ Hcopy].
      rewrite Forall_forall in Hpages.
      apply in_app_iff in Hfound as [Hfound | Hfound];
        [| exact (Hpages _ Hfound)].
      destruct Hearly as [Hearly | Hc]; [|congruence].
      rewrite Forall_forall in Hearly. exact (Hearly _ Hfound). }
    split; [intros evs nums H1 H2 H3 | intros x evs nums H1 H2 H3];
      destruct (Hno evs nums H1 H2 H3).
  - intros st w Hr.
    pose proof (ready_staging_dir E base s e out w0 st w Hr) as Hd.
    pose proof (ready_cbz_absent E base s e out w0 st w Hr) as Hcbz.
    destruct Hr as (fs1 & fs2 & pre & pages & Hc & Hm & _ & Hl & Hpre & Hpages
                    & Hp & Hfr & Hq).
    fold d cbz in Hd, Hcbz, Hc, Hm, Hfr.
    destruct w as [fs lg]. cbn [files log] in *.
    assert (Hquiet : forall post evs,
               (lg ++ post)%list = (log w0 ++ evs)%list ->
               existsb is_copy_event evs = false ->
               evs = (pre ++ pages ++ post)%list /\ fs = fs2
               /\ total_pages st = 0).
    { intros post evs Hevs Hcopy.
      rewrite Hl, <- !List.app_assoc in Hevs.
      apply List.app_inv_head in Hevs. subst evs.
      rewrite !existsb_app in Hcopy.
      apply orb_false_iff in Hcopy as [_ Hcopy].
      apply orb_false_iff in Hcopy as [Hcopy _].
      split; [reflexivity|]. split; [now apply Hq|].
      rewrite (no_copy_no_placed _ Hcopy) in Hp.
      destruct (total_pages st); [reflexivity | discriminate]. }
    assert (Hwalk : fs = fs2 ->
              Fs.walk_files d (Fs.write cbz (Fs.File (Fs.Cbz [])) fs) = []).
    { intros ->. apply walk_files_nil. intros q Hin. rewrite lookup_write.
      destruct (String.eqb_spec q cbz) as [->|_].
      - unfold inside in Hin. now rewrite Hout in Hin.
      - apply (staging_empty d fs1 fs2); [|exact Hm | exact Hin].
        now apply (no_orphans_confirmed E d cbz (files w0) fs1). }
    fold d cbz.
    apply wp_create_cbz; [exact Hd | exact Hne | | | ]; cbn zeta.
    + intros ms Hms evs nums Hevs _ Hcopy. cbn [files log] in *.
      rewrite <- List.app_assoc in Hevs.
      destruct (Hquiet _ _ Hevs Hcopy) as (-> & Hfs & Ht).
      rewrite (Hwalk Hfs) in *. destruct ms; [|discriminate Hms].
      rewrite !lookup_remove_tree, String.eqb_refl, Hout.
      apply String.eqb_neq in Hne. rewrite Hne. cbn [orb].
      rewrite lookup_write, String.eqb_refl. rewrite Ht.
      repeat split; auto.
      apply in_app_iff. right. apply in_app_iff. right. cbn. auto.
    + intros [Hopen | Hdir]; [congruence|].
      unfold Fs.isdir in Hdir. now rewrite Hcbz in Hdir.
    + intros ms pre' x post' _ Hw _ evs nums Hevs _ Hcopy. exfalso.
      cbn [files log] in *. rewrite <- List.app_assoc in Hevs.
      destruct (Hquiet _ _ Hevs Hcopy) as (_ & Hfs & _).
      rewrite (Hwalk Hfs) in Hw. now destruct pre'.
Qed.

Lemma empty_plan_yields_empty_archive_witness :
  fst (@merge_chapters Samples.calm unit "/m" 1 1 None None
         (Samples.start Samples.empty_chapter)) = Normal true
  /\ Fs.lookup "/m/Chapter_1_merged.cbz"
       (files (snd (@merge_chapters Samples.calm unit "/m" 1 1 None None
                      (Samples.start Samples.empty_chapter))))
     = Some (Fs.File (Fs.Cbz [])).
Proof.
  destruct (empty_plan_yields_empty_archive Samples.calm unit "/m" 1 1 None
              (Samples.start Samples.empty_chapter)
              (log (snd (@merge_chapters Samples.calm unit "/m" 1 1 None None
                           (Samples.start Samples.empty_chapter))))
              [1%Z])
    as (Hr & Hc & _).
  - reflexivity.
  - apply no_orphans_check. reflexivity.
  - reflexivity.
  - reflexivity.
  - vm_compute. auto.
  - reflexivity.
  - split; [exact Hr | exact Hc].
Defined.

End EmptyPlan.

(** ** A failing archive write *)

Module ArchiveFailure.
Import PyStr OsPath Run VolumeMaker Spec.
Import StrFacts ListFacts FsFacts PathFacts RunFacts Placing Prepare Archive.
Import WholeRun Numbering.

Lemma added_names_app (l l' : list event) :
  added_names (l ++ l') = (added_names l ++ added_names l')%list.
Proof. apply filter_map_app. Qed.

Lemma added_names_added (names : list string) :
  added_names (map EvAdded names) = names.
Proof.
  induction names as [|x l IH]; [reflexivity|].
  unfold added_names in *. cbn. now rewrite IH.
Qed.

Lemma pre_event_not_added (evs : list event) :
  Forall pre_event evs -> added_names evs = [] /\ ~ In EvCbzError evs.
Proof.
  induction 1 as [|ev evs Hev _ [IH1 IH2]]; [split; [reflexivity | intros []]|].
  split.
  - destruct ev; simpl in *; try contradiction; exact IH1.
  - intros [->|H]; [exact Hev | exact (IH2 H)].
Qed.

Lemma place_event_not_added (evs : list event) :
  Forall place_event evs -> added_names evs = [] /\ ~ In EvCbzError evs.
Proof.
  induction 1 as [|ev evs Hev _ [IH1 IH2]]; [split; [reflexivity | intros []]|].
  split.
  - destruct ev; simpl in *; try contradiction; exact IH1.
  - intros [->|H]; [exact Hev | exact (IH2 H)].
Qed.

(** C1 as stated fails: when the second member cannot be written, the
    target path, where there was nothing, holds an archive with the first
    member only. *)
Lemma partial_archive_is_left :
  ~ (forall (E : env) base s e out cover w0 evs,
        log (snd (@merge_chapters E unit base s e out cover w0))
        = (log w0 ++ evs)%list ->
        In EvCbzError evs ->
        Fs.lookup (join base (output_name out s e ++ ".cbz"))
          (files (snd (@merge_chapters E unit base s e out cover w0))) = None
        \/ (Fs.lookup (join base (output_name out s e ++ ".cbz")) (files w0)
            <> None
            /\ Fs.lookup (join base (output_name out s e ++ ".cbz"))
                 (files (snd (@merge_chapters E unit base s e out cover w0)))
               = Fs.lookup (join base (output_name out s e ++ ".cbz"))
                   (files w0))).
Proof.
  intros H.
  specialize (H Samples.disk_full "/m" 2%Z 10%Z (Some "vol") None
                (Samples.start Samples.library)
                (log (snd (@merge_chapters Samples.disk_full unit "/m" 2%Z 10%Z
                             (Some "vol") None (Samples.start Samples.library))))
                eq_refl).
  destruct H as [H | [H _]]; [vm_compute; auto 20 | |].
  - vm_compute in H. discriminate H.
  - apply H. reflexivity.
Qed.

(** C1, amended.  Take an output name whose last component names a folder
    of its own: it is not empty and is neither "." nor "..".  In a run in
    which the creation of the archive raises, [merge_chapters] returns
    False and the staging directory and all it held are gone.  The target
    path is left as the archive writer left it: empty when the archive
    could not be opened; otherwise an archive holding just the members
    added before the failure, in the order in which they were added.  The
    code does not delete it. *)
Theorem archive_failure_leaves_written_members (E : env) (R : Type)
    (base : string) (s e : Z) (out cover : option string) (w0 : world)
    (evs : list event) :
  own_folder (output_name out s e) = true ->
  log (snd (@merge_chapters E R base s e out cover w0)) = (log w0 ++ evs)%list ->
  In EvCbzError evs ->
  fst (@merge_chapters E R base s e out cover w0) = Normal false
  /\ Fs.lookup (join base (output_name out s e))
       (files (snd (@merge_chapters E R base s e out cover w0))) = None
  /\ (forall q, inside (join base (output_name out s e)) q = true ->
                Fs.lookup q (files (snd (@merge_chapters E R base s e out cover w0)))
                = None)
  /\ (archive_fault E = OpenFails ->
      Fs.lookup (join base (output_name out s e ++ ".cbz"))
        (files (snd (@merge_chapters E R base s e out cover w0))) = None)
  /\ (archive_fault E <> OpenFails ->
      exists ms,
        Fs.lookup (join base (output_name out s e ++ ".cbz"))
          (files (snd (@merge_chapters E R base s e out cover w0)))
        = Some (Fs.File (Fs.Cbz ms))
        /\ map fst ms = added_names evs).
Proof.
  intros Hown. pose proof (own_folder_plain _ Hown) as Hplain. revert evs.
  set (d := join base (output_name out s e)).
  set (cbz := join base (output_name out s e ++ ".cbz")).
  assert (Hne : cbz <> d) by apply cbz_neq_output.
  assert (Hgone : forall fs q,
             q = d \/ inside d q = true ->
             Fs.lookup q (Fs.remove_tree d fs) = None).
  { intros fs q Hq. rewrite lookup_remove_tree.
    destruct Hq as [-> | Hq]; [now rewrite String.eqb_refl|].
    unfold inside in Hq. apply andb_true_iff in Hq as [-> _].
    now rewrite orb_true_r. }
  apply (merge_chapters_elim E base s e out cover w0
           (fun r w => forall evs,
                log w = (log w0 ++ evs)%list -> In EvCbzError evs ->
                r = Normal false
                /\ Fs.lookup d (files w) = None
                /\ (forall q, inside d q = true -> Fs.lookup q (files w) = None)
                /\ (archive_fault E = OpenFails -> Fs.lookup cbz (files w) = None)
                /\ (archive_fault E <> OpenFails ->
                    exists ms, Fs.lookup cbz (files w) = Some (Fs.File (Fs.Cbz ms))
                               /\ map fst ms = added_names evs))).
  apply wp_merge_chapters_body.
  - intros w (pre & pages & Hl & Hpre & Hpages & _).
    assert (Hno : forall evs, log w = (log w0 ++ evs)%list ->
                              In EvCbzError evs -> False).
    { intros evs Hevs Hin. rewrite Hl in Hevs.
      apply List.app_inv_head in Hevs. subst evs.
      apply in_app_iff in Hin as [Hin | Hin].
      - now apply (pre_event_not_added pre Hpre).
      - now apply (place_event_not_added pages Hpages). }
    split; [intros evs H1 H2 | intros x evs H1 H2]; destruct (Hno evs H1 H2).
  - intros st w Hr.
    pose proof (ready_staging_dir E base s e out w0 st w Hr) as Hd.
    pose proof (ready_cbz_absent E base s e out w0 st w Hr) as Hcbz.
    destruct Hr as (fs1 & fs2 & pre & pages & _ & _ & _ & Hl & Hpre & Hpages & _).
    fold d cbz in Hd, Hcbz. destruct w as [fs lg]. cbn [files log] in *.
    assert (Hevs : forall post evs,
               (lg ++ post)%list = (log w0 ++ evs)%list ->
               evs = (pre ++ pages ++ post)%list).
    { intros post evs H. rewrite Hl, <- !List.app_assoc in H.
      now apply List.app_inv_head in H. }
    assert (Hnames : forall post, added_names (pre ++ pages ++ post)
                                  = added_names post).
    { intros post. rewrite !added_names_app.
      destruct (pre_event_not_added pre Hpre) as [-> _].
      now destruct (place_event_not_added pages Hpages) as [-> _]. }
    fold d cbz.
    apply wp_create_cbz; [exact Hd | exact Hne | | | ]; cbn zeta.
    + intros ms _ evs H Hin. exfalso. cbn [files log] in *.
      rewrite <- List.app_assoc in H. rewrite (Hevs _ _ H) in Hin.
      apply in_app_iff in Hin as [Hin | Hin];
        [now apply (pre_event_not_added pre Hpre)|].
      apply in_app_iff in Hin as [Hin | Hin];
        [now apply (place_event_not_added pages Hpages)|].
      apply in_app_iff in Hin as [[Hin | Hin] | [Hin | [Hin | []]]];
        try discriminate.
      apply in_map_iff in Hin as (x & Hx & _). discriminate.
    + intros Hopen evs H Hin. cbn [files log] in *.
      assert (Hf : archive_fault E = OpenFails).
      { destruct Hopen as [Ho | Hdir]; [exact Ho|].
        unfold Fs.isdir in Hdir. now rewrite Hcbz in Hdir. }
      split; [reflexivity|]. split; [apply Hgone; now left|].
      split; [intros q Hq; apply Hgone; now right|].
      split; [|congruence]. intros _.
      rewrite lookup_remove_tree, Hcbz. now destruct (_ || _).
    + intros ms pre' x post' Hnot _ Hms evs H Hin. cbn [files log] in *.
      rewrite <- List.app_assoc in H.
      split; [reflexivity|]. split; [apply Hgone; now left|].
      split; [intros q Hq; apply Hgone; now right|].
      split; [congruence|]. intros _. exists ms.
      split.
      * rewrite lookup_remove_tree.
        apply String.eqb_neq in Hne. rewrite Hne.
        unfold d, cbz. rewrite (plain_cbz_outside _ _ Hplain). cbn [orb].
        rewrite lookup_write. now rewrite String.eqb_refl.
      * rewrite (Hevs _ _ H), Hnames. cbn [app].
        change (EvCreatingCbz (output_name out s e ++ ".cbz")
                  :: (map EvAdded (map snd pre') ++ [EvCbzError])%list)
          with ([EvCreatingCbz (output_name out s e ++ ".cbz")]
                  ++ map EvAdded (map snd pre') ++ [EvCbzError])%list.
        rewrite !added_names_app, added_names_added. cbn.
        now rewrite List.app_nil_r.
Qed.

(** When the first member cannot be written, the archive that is left
    has no member. *)
Lemma archive_failure_leaves_written_members_witness :
  fst (@merge_chapters MoreSamples.first_write_fails unit "/m" 2 10 (Some "vol")
         None (Samples.start Samples.library)) = Normal false
  /\ Fs.lookup "/m/vol"
       (files (snd (@merge_chapters MoreSamples.first_write_fails unit "/m" 2 10
                      (Some "vol") None (Samples.start Samples.library))))
     = None
  /\ exists ms,
       Fs.lookup "/m/vol.cbz"
         (files (snd (@merge_chapters MoreSamples.first_write_fails unit "/m"
                        2 10 (Some "vol") None (Samples.start Samples.library))))
       = Some (Fs.File (Fs.Cbz ms))
       /\ map fst ms = [].
Proof.
  destruct (archive_failure_leaves_written_members MoreSamples.first_write_fails
              unit "/m" 2 10 (Some "vol") None (Samples.start Samples.library)
              (log (snd (@merge_chapters MoreSamples.first_write_fails unit "/m"
                           2 10 (Some "vol") None
                           (Samples.start Samples.library)))))
    as (Hr & Hd & _ & _ & H).
  - reflexivity.
  - reflexivity.
  - vm_compute. auto 20.
  - split; [exact Hr|]. split; [exact Hd|]. apply H. discriminate.
Defined.

End ArchiveFailure.

(** * Further properties *)

(** ** Numbers and their decimal form *)

Module Digits.
Import PyStr Re OsPath VolumeMaker Spec StrFacts CommandLine.

Lemma uint_decimal (d : Decimal.uint) :
  forallb_str is_decimal (NilEmpty.string_of_uint d) = true.
Proof. induction d; simpl; auto. Qed.

Lemma uint_nonempty (d : Decimal.uint) :
  d <> Decimal.Nil -> NilEmpty.string_of_uint d <> "".
Proof. destruct d; simpl; congruence. Qed.

Lemma int_digits_from_nat (d : Decimal.uint) (acc : nat) :
  int_digits_from (Z.of_nat acc) (NilEmpty.string_of_uint d)
  = Z.of_nat (Nat.of_uint_acc d acc).
Proof.
  revert acc; induction d; intros acc; cbn [NilEmpty.string_of_uint
    int_digits_from Nat.of_uint_acc]; [reflexivity | ..];
    rewrite <- IHd; f_equal; rewrite Nat.tail_mul_spec;
    unfold digit_value, ord; cbn [nat_of_ascii]; vm_compute Z.of_nat at 2; lia.
Qed.

Lemma int_digits_from_pos (d : Decimal.uint) (acc : positive) :
  int_digits_from (Zpos acc) (NilEmpty.string_of_uint d)
  = Zpos (Pos.of_uint_acc d acc).
Proof.
  revert acc; induction d; intros acc; cbn [NilEmpty.string_of_uint
    int_digits_from Pos.of_uint_acc]; [reflexivity | ..];
    rewrite <- IHd; f_equal; unfold digit_value, ord; cbn [nat_of_ascii];
    vm_compute Z.of_nat; lia.
Qed.

Lemma int_digits_uint (d : Decimal.uint) :
  int_digits (NilEmpty.string_of_uint d) = Z.of_N (Pos.of_uint d).
Proof.
  unfold int_digits.
  induction d; cbn [NilEmpty.string_of_uint int_digits_from Pos.of_uint];
    [reflexivity | exact IHd | ..];
    match goal with
    | |- int_digits_from ?a _ = _ =>
        let v := eval vm_compute in a in change a with v
    end; apply int_digits_from_pos.
Qed.

(** [int(str(z)) = z]. *)
Lemma py_int_str_of_Z (z : Z) : py_int (str_of_Z z) = Some z.
Proof.
  destruct z as [|p|p]; [reflexivity | |].
  - unfold str_of_Z. cbn [Z.to_int NilEmpty.string_of_int].
    rewrite py_int_decimals.
    + now rewrite int_digits_uint, DecimalPos.Unsigned.of_to.
    + apply uint_nonempty, DecimalPos.Unsigned.to_uint_nonnil.
    + apply uint_decimal.
  - unfold str_of_Z. cbn [Z.to_int NilEmpty.string_of_int].
    unfold py_int. cbn [lstrip]. change (is_space "-") with false. cbv iota.
    assert (Hr : rstrip (String "-" (NilEmpty.string_of_uint (Pos.to_uint p)))
                 = String "-" (NilEmpty.string_of_uint (Pos.to_uint p))).
    { apply rstrip_no_space. cbn [forallb_str].
      change (is_space "-") with false. cbn [negb andb].
      apply decimals_no_space, uint_decimal. }
    rewrite Hr.
    rewrite int_body_decimals.
    + fold (int_digits (NilEmpty.string_of_uint (Pos.to_uint p))).
      now rewrite int_digits_uint, DecimalPos.Unsigned.of_to.
    + apply uint_decimal.
    + left. apply uint_nonempty, DecimalPos.Unsigned.to_uint_nonnil.
Qed.

Lemma str_of_Z_inj (a b : Z) : str_of_Z a = str_of_Z b -> a = b.
Proof.
  intros H. pose proof (py_int_str_of_Z a) as Ha.
  rewrite H, py_int_str_of_Z in Ha. congruence.
Qed.

Lemma decimal_isdigit (s : string) :
  forallb_str is_decimal s = true -> forallb_str char_isdigit s = true.
Proof.
  induction s as [|c s IH]; cbn [forallb_str]; [reflexivity|].
  intros H. apply andb_true_iff in H as [Hc Hs].
  rewrite (IH Hs). unfold char_isdigit. now rewrite Hc.
Qed.

(** The decimal form of a number that is not negative is all digits. *)
Lemma isdigit_str_of_Z (z : Z) : (0 <= z)%Z -> isdigit (str_of_Z z) = true.
Proof.
  intros Hz. destruct z as [|p|p]; [reflexivity | | lia].
  unfold str_of_Z. cbn [Z.to_int NilEmpty.string_of_int].
  pose proof (uint_nonempty _ (DecimalPos.Unsigned.to_uint_nonnil p)) as Hn.
  unfold isdigit. destruct (NilEmpty.string_of_uint (Pos.to_uint p)) eqn:Hs;
    [congruence|]. rewrite <- Hs. apply decimal_isdigit, uint_decimal.
Qed.

Lemma zeros_decimal (k : nat) : forallb_str is_decimal (zeros k) = true.
Proof. induction k; simpl; auto. Qed.

Lemma forallb_str_app (p : ascii -> bool) (a b : string) :
  forallb_str p (a ++ b) = forallb_str p a && forallb_str p b.
Proof.
  induction a as [|c a IH]; cbn [append forallb_str]; [reflexivity|].
  now rewrite IH, andb_assoc.
Qed.

Lemma fmt03d_decimal (n : nat) : forallb_str is_decimal (fmt03d n) = true.
Proof.
  unfold fmt03d, str_of_nat. rewrite forallb_str_app, zeros_decimal.
  apply uint_decimal.
Qed.

Lemma int_digits_zeros (k : nat) (s : string) :
  int_digits (zeros k ++ s) = int_digits s.
Proof. unfold int_digits. induction k; cbn; auto. Qed.

(** [int(f"{n:03d}") = n]. *)
Lemma int_digits_fmt03d (n : nat) : int_digits (fmt03d n) = Z.of_nat n.
Proof.
  unfold fmt03d, str_of_nat. rewrite int_digits_zeros. unfold int_digits.
  change 0%Z with (Z.of_nat 0). rewrite int_digits_from_nat.
  fold (Nat.of_uint (Nat.to_uint n)). now rewrite DecimalNat.Unsigned.of_to.
Qed.

Lemma fmt03d_inj (i j : nat) : fmt03d i = fmt03d j -> i = j.
Proof.
  intros H. apply Nat2Z.inj. now rewrite <- !int_digits_fmt03d, H.
Qed.

Lemma length_zeros (k : nat) : String.length (zeros k) = k.
Proof. induction k; simpl; auto. Qed.

Lemma fmt03d_length (n : nat) : 3 <= String.length (fmt03d n).
Proof.
  unfold fmt03d. rewrite length_append, length_zeros. lia.
Qed.

End Digits.

Module NumberedNames.
Import PyStr Re OsPath Run VolumeMaker Spec Volume StrFacts Digits Enumerator.

Lemma is_image_extension_in (ext : string) :
  is_image_extension ext = true <-> In ext image_extensions.
Proof.
  unfold is_image_extension. rewrite existsb_exists. split.
  - intros (x & Hx & He). apply String.eqb_eq in He. now subst.
  - intros H. exists ext. split; [exact H | apply String.eqb_refl].
Qed.

(** What the six extensions have in common. *)
Lemma image_extension_shape (ext : string) :
  In ext image_extensions ->
  head_is is_decimal ext = false /\ lower ext = ext
  /\ rfind sep ext = (-1)%Z /\ rfind extsep ext = 0%Z.
Proof.
  intros H. cbn [image_extensions In] in H.
  repeat (destruct H as [<- | H]; [repeat split; reflexivity|]).
  destruct H.
Qed.

Lemma numbered_name_inj (i j : nat) (e1 e2 : string) :
  In e1 image_extensions -> In e2 image_extensions ->
  fmt03d i ++ e1 = fmt03d j ++ e2 -> i = j.
Proof.
  intros H1 H2 H. apply fmt03d_inj.
  rewrite <- (take_digits_run (fmt03d i) e1), <- (take_digits_run (fmt03d j) e2), H;
    auto using fmt03d_decimal; now apply image_extension_shape.
Qed.

Lemma rfind_app (c : ascii) (a b : string) :
  rfind c (a ++ b)
  = if (0 <=? rfind c b)%Z then (Z.of_nat (String.length a) + rfind c b)%Z
    else rfind c a.
Proof.
  induction a as [|x a IH]; cbn [append rfind String.length].
  - pose proof (rfind_lower_bound c b).
    destruct (Z.leb_spec 0 (rfind c b)); lia.
  - rewrite IH. destruct (Z.leb_spec 0 (rfind c b)) as [Hb|Hb]; [|reflexivity].
    destruct (Z.leb_spec 0 (Z.of_nat (String.length a) + rfind c b)); lia.
Qed.

Lemma rfind_decimal (c : ascii) (s : string) :
  is_decimal c = false -> forallb_str is_decimal s = true ->
  rfind c s = (-1)%Z.
Proof.
  intros Hc. induction s as [|x s IH]; cbn [forallb_str rfind]; [reflexivity|].
  intros H. apply andb_true_iff in H as [Hx Hs]. rewrite (IH Hs).
  cbn. destruct (Ascii.eqb_spec x c); [congruence | reflexivity].
Qed.

Lemma substring_app_l (a b : string) :
  String.substring 0 (String.length a) (a ++ b) = a.
Proof. induction a as [|x a IH]; simpl; [now destruct b | now rewrite IH]. Qed.

Lemma substring_app_r (a b : string) :
  String.substring (String.length a) (String.length b) (a ++ b) = b.
Proof. induction a as [|x a IH]; simpl; [apply substring_all | exact IH]. Qed.

(** [os.path.splitext] takes a numbered name apart where it was put
    together. *)
Lemma splitext_numbered (ds ext : string) :
  forallb_str is_decimal ds = true -> ds <> "" ->
  In ext image_extensions -> splitext (ds ++ ext) = (ds, ext).
Proof.
  intros Hds Hne Hext.
  destruct (image_extension_shape ext Hext) as (_ & _ & Hs & Hd).
  unfold splitext. rewrite !rfind_app, Hs, Hd.
  rewrite (rfind_decimal sep ds eq_refl Hds).
  change (0 <=? -1)%Z with false. change (0 <=? 0)%Z with true. cbv iota.
  replace (Z.to_nat (Z.of_nat (String.length ds) + 0 - (-1 + 1)))
    with (String.length ds) by lia.
  replace (Z.to_nat (Z.of_nat (String.length ds) + 0))
    with (String.length ds) by lia.
  change (Z.to_nat (-1 + 1)) with 0.
  assert (Hlt : (-1 <? Z.of_nat (String.length ds) + 0)%Z = true)
    by (apply Z.ltb_lt; lia).
  rewrite Hlt.
  assert (Hnd : has_non_dot (ds ++ ext) 0 (String.length ds) = true).
  { destruct ds as [|c ds]; [congruence|]. cbn [forallb_str] in Hds.
    apply andb_true_iff in Hds as [Hc _].
    cbn [String.length has_non_dot append String.get].
    destruct (Ascii.eqb_spec c extsep) as [->|]; [discriminate | reflexivity]. }
  rewrite Hnd. cbn [andb].
  rewrite length_append, Nat.add_comm, Nat.add_sub.
  now rewrite substring_app_l, substring_app_r.
Qed.

Lemma fmt03d_nonempty (n : nat) : fmt03d n <> "".
Proof.
  pose proof (fmt03d_length n) as H. destruct (fmt03d n); [simpl in H; lia | discriminate].
Qed.

End NumberedNames.

(** ** A staged name read back *)

Module StagedNames.
Import PyStr Re OsPath Run VolumeMaker Spec Volume StrFacts Digits Enumerator.
Import NumberedNames.

(** X8.  A name that [merge_chapters] builds for a page, the counter in
    three digits followed by an image extension, is read back by
    [get_image_files] as a page with that counter as its sort key:
    [os.path.splitext] returns the number and the extension, the key
    [extract_number] is the counter, and the loop body [image_of] accepts
    the file. *)
Theorem numbered_name_is_a_page (fs : Fs.t) (folder : string) (n : nat)
    (ext : string) :
  In ext image_extensions ->
  splitext (fmt03d n ++ ext) = (fmt03d n, ext)
  /\ extract_number (fmt03d n ++ ext) = Z.of_nat n
  /\ (Fs.isfile (join folder (fmt03d n ++ ext)) fs = true ->
      image_of fs folder (fmt03d n ++ ext)
      = Some (fmt03d n ++ ext, join folder (fmt03d n ++ ext))).
Proof.
  intros Hext.
  destruct (image_extension_shape ext Hext) as (Hh & Hl & _ & _).
  assert (Hsp : splitext (fmt03d n ++ ext) = (fmt03d n, ext))
    by (apply splitext_numbered;
        auto using fmt03d_decimal, fmt03d_nonempty).
  split; [exact Hsp|]. split.
  - rewrite <- int_digits_fmt03d.
    apply (extract_number_first_run "" (fmt03d n) ext);
      auto using fmt03d_decimal, fmt03d_nonempty.
  - intros Hf. rewrite image_of_spec. unfold page_ok, has_image_extension.
    rewrite Hf, Hsp. cbn [snd]. rewrite Hl.
    fold (is_image_extension ext).
    now rewrite (proj2 (is_image_extension_in ext) Hext).
Qed.

Lemma numbered_name_is_a_page_witness :
  splitext "007.png" = ("007", ".png")
  /\ extract_number "007.png" = 7%Z
  /\ (Fs.isfile "/v/007.png" [("/v/007.png", Fs.File (Fs.Bytes "x"))] = true ->
      image_of [("/v/007.png", Fs.File (Fs.Bytes "x"))] "/v" "007.png"
      = Some ("007.png", "/v/007.png")).
Proof.
  apply (numbered_name_is_a_page [("/v/007.png", Fs.File (Fs.Bytes "x"))]
           "/v" 7 ".png").
  simpl. auto.
Defined.

End StagedNames.

(** ** The arguments of [main] *)

Module ArgumentHandling.
Import PyStr VolumeMaker Spec StrFacts CommandLine Digits.

(** X18.  [main] gets to the call of [merge_chapters] only with both
    chapter numbers parsed and the start not after the end, and only from
    two arguments or more. *)
Theorem merge_is_called_on_a_valid_range (args : list string) (a : arguments) :
  main_arguments args = (a, CallMerge) ->
  exists s e, start_chapter a = Some s /\ end_chapter a = Some e
              /\ (s <= e)%Z /\ 2 <= length args.
Proof.
  assert (Hr : forall cover x y name,
             read_range cover x y name = (a, CallMerge) ->
             exists s e, start_chapter a = Some s /\ end_chapter a = Some e
                         /\ (s <= e)%Z).
  { intros cover x y name. unfold read_range.
    destruct (py_int x) as [s|]; [|discriminate].
    destruct (py_int y) as [e|]; [|discriminate].
    destruct (Z.ltb_spec e s); [discriminate|].
    intros [= <-]. exists s, e. auto. }
  destruct args as [|x [|y rest]]; [discriminate | discriminate |].
  cbn [main_arguments length]. destruct (negb (isdigit x)).
  - destruct rest as [|z rest]; [discriminate|]. intros H.
    apply Hr in H as (s & e & H). exists s, e. intuition lia.
  - intros H. apply Hr in H as (s & e & H). exists s, e. intuition lia.
Qed.

Lemma merge_is_called_on_a_valid_range_witness :
  exists s e,
    start_chapter {| cover_image_path := None; start_chapter := Some 26%Z;
                     end_chapter := Some 30%Z; output_folder := None |} = Some s
    /\ end_chapter {| cover_image_path := None; start_chapter := Some 26%Z;
                      end_chapter := Some 30%Z; output_folder := None |} = Some e
    /\ (s <= e)%Z /\ 2 <= length ["26"; "30"].
Proof.
  apply (merge_is_called_on_a_valid_range ["26"; "30"]). reflexivity.
Defined.

(** X19.  The branch of [main] that reports a missing end chapter (lines
    248-250) is never taken: with fewer than two arguments [main] has
    printed the usage and left before it. *)
Theorem end_chapter_required_is_unreachable (args : list string) :
  snd (main_arguments args) <> ExitEndRequired.
Proof.
  assert (Hr : forall cover x y name,
             snd (read_range cover x y name) <> ExitEndRequired).
  { intros cover x y name. unfold read_range.
    destruct (py_int x) as [s|]; [|discriminate].
    destruct (py_int y) as [e|]; [|discriminate].
    cbn [snd]. destruct (e <? s)%Z; discriminate. }
  destruct args as [|x [|y rest]]; [discriminate | discriminate |].
  cbn [main_arguments]. destruct (negb (isdigit x)); [|apply Hr].
  destruct rest as [|z rest]; [discriminate | apply Hr].
Qed.

(** X20.  The documented forms of the command line are read as meant.  A
    range written in decimal, the start not negative and not after the
    end, gives a call of [merge_chapters] on these numbers without a
    cover; after a first argument that is not all digits, a range in
    decimal, negative numbers included, gives a call with that argument
    as the cover.  The argument after the range, if any, is the output
    name, and further arguments are ignored. *)
Theorem documented_usage_is_parsed (s e : Z) (rest : list string) :
  ((0 <= s <= e)%Z ->
   main_arguments (str_of_Z s :: str_of_Z e :: rest)
   = ({| cover_image_path := None; start_chapter := Some s;
         end_chapter := Some e; output_folder := nth_error rest 0 |},
      CallMerge))
  /\ (forall cover, isdigit cover = false -> (s <= e)%Z ->
        main_arguments (cover :: str_of_Z s :: str_of_Z e :: rest)
        = ({| cover_image_path := Some cover; start_chapter := Some s;
              end_chapter := Some e; output_folder := nth_error rest 0 |},
           CallMerge)).
Proof.
  assert (Hr : forall cover, (s <= e)%Z ->
             read_range cover (str_of_Z s) (str_of_Z e) (nth_error rest 0)
             = ({| cover_image_path := cover; start_chapter := Some s;
                   end_chapter := Some e; output_folder := nth_error rest 0 |},
                CallMerge)).
  { intros cover Hle. unfold read_range. rewrite !py_int_str_of_Z.
    destruct (Z.ltb_spec e s); [lia | reflexivity]. }
  split.
  - intros [H0 Hle]. cbn [main_arguments].
    rewrite (isdigit_str_of_Z s H0). cbn [negb]. now apply Hr.
  - intros cover Hc Hle. cbn [main_arguments]. rewrite Hc. cbn [negb].
    now apply Hr.
Qed.

Lemma documented_usage_is_parsed_witness :
  main_arguments ["26"; "30"; "Volume_7"; "more"]
  = ({| cover_image_path := None; start_chapter := Some 26%Z;
        end_chapter := Some 30%Z; output_folder := Some "Volume_7" |},
     CallMerge)
  /\ main_arguments ["cover.jpg"; "-2"; "30"]
     = ({| cover_image_path := Some "cover.jpg"; start_chapter := Some (-2)%Z;
           end_chapter := Some 30%Z; output_folder := None |},
        CallMerge).
Proof.
  split.
  - apply (proj1 (documented_usage_is_parsed 26 30 ["Volume_7"; "more"])). lia.
  - apply (proj2 (documented_usage_is_parsed (-2) 30 []) "cover.jpg");
      [reflexivity | lia].
Defined.

End ArgumentHandling.

(** ** The default output name *)

Module DefaultName.
Import PyStr Re OsPath Run VolumeMaker Spec StrFacts Digits.

(** The decimal form of an integer: an optional minus sign, then one or
    more digits. *)
Lemma str_of_Z_form (z : Z) :
  exists ds, forallb_str is_decimal ds = true /\ ds <> ""
             /\ str_of_Z z = (if (z <? 0)%Z then "-" else "") ++ ds.
Proof.
  destruct z as [|p|p].
  - exists "0". repeat split. discriminate.
  - exists (NilEmpty.string_of_uint (Pos.to_uint p)).
    split; [apply uint_decimal|].
    split; [apply uint_nonempty, DecimalPos.Unsigned.to_uint_nonnil|].
    reflexivity.
  - exists (NilEmpty.string_of_uint (Pos.to_uint p)).
    split; [apply uint_decimal|].
    split; [apply uint_nonempty, DecimalPos.Unsigned.to_uint_nonnil|].
    reflexivity.
Qed.

(** A number can be read off the front of a string when what follows it
    is not a digit. *)
Lemma str_of_Z_split (a b : Z) (r r' : string) :
  head_is is_decimal r = false -> head_is is_decimal r' = false ->
  str_of_Z a ++ r = str_of_Z b ++ r' -> a = b /\ r = r'.
Proof.
  intros Hr Hr' H.
  assert (Hab : str_of_Z a = str_of_Z b).
  { destruct (str_of_Z_form a) as (da & Hda & Hna & Ea).
    destruct (str_of_Z_form b) as (db & Hdb & Hnb & Eb).
    rewrite Ea, Eb in *. rewrite !append_assoc in H.
    destruct (a <? 0)%Z, (b <? 0)%Z; cbn [append] in *.
    - f_equal. injection H as H.
      now rewrite <- (take_digits_run da r), <- (take_digits_run db r'), H.
    - destruct db as [|c db]; [congruence|]. cbn [append forallb_str] in *.
      injection H as <- _. discriminate.
    - destruct da as [|c da]; [congruence|]. cbn [append forallb_str] in *.
      injection H as -> _. discriminate.
    - now rewrite <- (take_digits_run da r), <- (take_digits_run db r'), H. }
  split; [now apply str_of_Z_inj|].
  rewrite Hab in H. now apply append_inv_head in H.
Qed.

(** X1.  The name [merge_chapters] chooses when none is given (lines
    75-79) determines the range: two ranges share a default name, and so
    a staging directory and an archive, only when they are the same
    range. *)
Theorem default_output_folder_inj (s e s' e' : Z) :
  default_output_folder s e = default_output_folder s' e' ->
  s = s' /\ e = e'.
Proof.
  unfold default_output_folder.
  destruct (Z.eqb_spec s e) as [->|Hse], (Z.eqb_spec s' e') as [->|Hse'];
    cbn [append]; intros H.
  - repeat (injection H as H).
    apply str_of_Z_split in H as [-> _]; auto.
  - repeat (injection H as H0 H); discriminate.
  - repeat (injection H as H0 H); discriminate.
  - repeat (injection H as H).
    apply str_of_Z_split in H as [-> H]; auto.
    injection H as H.
    apply str_of_Z_split in H as [-> _]; auto.
Qed.

Lemma default_output_folder_inj_witness : 26%Z = 26%Z /\ 30%Z = 30%Z.
Proof.
  apply (default_output_folder_inj 26 30 26 30). reflexivity.
Defined.

(** X2.  Under its default name neither the staging directory nor the
    archive is taken for a chapter by the loop of [find_chapter_folders],
    whatever the range searched: "Chapter_" and "Chapters_" do not match
    "Chapter " followed by digits.  The default name is not empty and
    does not end with a separator. *)
Theorem default_output_is_not_a_chapter (fs : Fs.t) (base : string)
    (s e s' e' : Z) :
  chapter_of fs base s' e' (default_output_folder s e) = None
  /\ chapter_of fs base s' e' (default_output_folder s e ++ ".cbz") = None
  /\ plain_name (default_output_folder s e) = true.
Proof.
  assert (Hm : match_chapter (default_output_folder s e) = None
               /\ match_chapter (default_output_folder s e ++ ".cbz") = None).
  { unfold default_output_folder. destruct (s =? e)%Z; split; reflexivity. }
  destruct Hm as [H1 H2]. unfold chapter_of. rewrite H1, H2.
  split; [now destruct (Fs.isdir _ _)|].
  split; [now destruct (Fs.isdir _ _)|].
  apply PathFacts.default_output_folder_plain.
Qed.

End DefaultName.

(** ** Runs that are refused *)

Module Refusals.
Import PyStr OsPath Run VolumeMaker Spec Volume.
Import StrFacts ListFacts FsFacts PathFacts RunFacts Preflight Prepare WholeRun.

(** X4.  When something exists at the archive path and the answer to the
    prompt is not "y" in either case, [merge_chapters] returns False at
    once (lines 86-90): the prompt and the cancellation are all it
    prints, and no file is touched, the existing archive included. *)
Theorem declined_overwrite_changes_nothing (E : env) (R : Type)
    (base : string) (s e : Z) (out cover : option string) (w0 : world) :
  Fs.lookup (join base (output_name out s e ++ ".cbz")) (files w0) <> None ->
  lower (response E) <> "y" ->
  @merge_chapters E R base s e out cover w0
  = (Normal false,
     {| files := files w0;
        log := (log w0 ++ [EvPrompt (output_name out s e ++ ".cbz");
                           EvCancelled])%list |}).
Proof.
  intros Hx Hy.
  set (Q := fun (r : result R bool) (w : world) =>
              (r, w)
              = (Normal false,
                 {| files := files w0;
                    log := (log w0 ++ [EvPrompt (output_name out s e ++ ".cbz");
                                       EvCancelled])%list |})).
  assert (H : Q (fst (@merge_chapters E R base s e out cover w0))
                (snd (@merge_chapters E R base s e out cover w0))).
  { apply merge_chapters_elim. unfold wp. rewrite merge_chapters_body_eq.
    apply wp_bind. unfold prepare. apply wp_bind, wp_confirm_overwrite.
    - intros Hn. now elim Hx.
    - intros c _ Hy'. now elim Hy.
    - intros _ _. reflexivity.
    - intros _ Hy'. now elim Hy. }
  unfold Q in H. now destruct (@merge_chapters E R base s e out cover w0).
Qed.

Lemma declined_overwrite_changes_nothing_witness :
  @merge_chapters MoreSamples.refusing unit "/m" 2 10 (Some "vol") None
    (Samples.start Samples.library_with_archive)
  = (Normal false,
     {| files := Samples.library_with_archive;
        log := [EvPrompt "vol.cbz"; EvCancelled] |}).
Proof.
  apply (declined_overwrite_changes_nothing MoreSamples.refusing unit "/m"
           2 10 (Some "vol") None (Samples.start Samples.library_with_archive)).
  - discriminate.
  - discriminate.
Defined.

Lemma wp_validate_cover_invalid (cover : option string) (c : string)
    (N : unit -> world -> Prop) (Rt : bool -> world -> Prop)
    (Ex : exn -> world -> Prop) (w : world) :
  given cover = Some c ->
  Fs.exists_ c (files w) = false
  \/ is_image_extension (snd (splitext (lower c))) = false ->
  Rt false
     {| files := files w;
        log := (log w
                ++ [if Fs.exists_ c (files w)
                    then EvCoverBadFormat (snd (splitext (lower c)))
                    else EvCoverNotFound c])%list |} ->
  wp (validate_cover cover) N Rt Ex w.
Proof.
  intros Hg Hbad HR. destruct w as [fs lg]. cbn [files log] in *.
  unfold wp, validate_cover, bind, Os.path_exists, get_files, print, ret,
    return_, bind. rewrite Hg. simpl.
  destruct (Fs.exists_ c fs); simpl; [|exact HR].
  destruct Hbad as [Hbad|Hbad]; [discriminate|]. rewrite Hbad. exact HR.
Qed.

(** X5.  A cover that is given but does not exist, or whose extension in
    lower case is not one of the six image extensions, makes
    [merge_chapters] return False (or raise at the prompt's [os.remove])
    before the staging directory is made: apart from an archive whose
    overwrite was confirmed, every path denotes what it did.  When
    nothing is at the archive path the only line printed is the one about
    the cover. *)
Theorem invalid_cover_stops_before_staging (E : env) (R : Type)
    (base : string) (s e : Z) (out cover : option string) (c : string)
    (w0 : world) :
  given cover = Some c ->
  Fs.exists_ c (files w0) = false
  \/ is_image_extension (snd (splitext (lower c))) = false ->
  fst (@merge_chapters E R base s e out cover w0) <> Normal true
  /\ (forall q, q <> join base (output_name out s e ++ ".cbz") ->
        Fs.lookup q (files (snd (@merge_chapters E R base s e out cover w0)))
        = Fs.lookup q (files w0))
  /\ (Fs.lookup (join base (output_name out s e ++ ".cbz")) (files w0) = None ->
      @merge_chapters E R base s e out cover w0
      = (Normal false,
         {| files := files w0;
            log := (log w0
                    ++ [if Fs.exists_ c (files w0)
                        then EvCoverBadFormat (snd (splitext (lower c)))
                        else EvCoverNotFound c])%list |})).
Proof.
  intros Hg Hbad.
  set (cbz := join base (output_name out s e ++ ".cbz")).
  set (Q := fun (r : result R bool) (w : world) =>
              r <> Normal true
              /\ (forall q, q <> cbz ->
                            Fs.lookup q (files w) = Fs.lookup q (files w0))
              /\ (Fs.lookup cbz (files w0) = None ->
                  (r, w)
                  = (Normal false,
                     {| files := files w0;
                        log := (log w0
                                ++ [if Fs.exists_ c (files w0)
                                    then EvCoverBadFormat
                                           (snd (splitext (lower c)))
                                    else EvCoverNotFound c])%list |}))).
  assert (H : Q (fst (@merge_chapters E R base s e out cover w0))
                (snd (@merge_chapters E R base s e out cover w0))).
  { apply merge_chapters_elim. unfold wp. rewrite merge_chapters_body_eq.
    apply wp_bind. unfold prepare. apply wp_bind, wp_confirm_overwrite.
    - intros Hn. apply wp_bind, (wp_validate_cover_invalid cover c);
        [exact Hg | exact Hbad |].
      split; [discriminate|]. split; [reflexivity|]. reflexivity.
    - intros c0 Hc Hy.
      apply wp_bind, (wp_validate_cover_invalid cover c); [exact Hg | |];
        cbn [files log].
      + destruct Hbad as [Hbad|Hbad]; [left | now right].
        unfold Fs.exists_ in *. rewrite lookup_remove.
        destruct (String.eqb c _); [reflexivity | exact Hbad].
      + split; [discriminate|]. split.
        * intros q Hq. cbn [files]. rewrite lookup_remove.
          apply String.eqb_neq in Hq. unfold cbz in Hq. now rewrite Hq.
        * fold cbz in Hc. congruence.
    - intros Hx Hy. split; [discriminate|]. split; [reflexivity|].
      intros Hn. now elim Hx.
    - intros Hx Hy. split; [discriminate|]. split; [reflexivity|].
      fold cbz in Hx. congruence. }
  destruct H as (H1 & H2 & H3). split; [exact H1|]. split; [exact H2|].
  intros Hn. specialize (H3 Hn).
  destruct (@merge_chapters E R base s e out cover w0). exact H3.
Qed.

Lemma invalid_cover_stops_before_staging_witness :
  @merge_chapters Samples.calm unit "/m" 2 10 (Some "vol") (Some "/m/Notes")
    (Samples.start Samples.library)
  = (Normal false,
     {| files := Samples.library; log := [EvCoverBadFormat ""] |}).
Proof.
  destruct (invalid_cover_stops_before_staging Samples.calm unit "/m" 2 10
              (Some "vol") (Some "/m/Notes") "/m/Notes"
              (Samples.start Samples.library) eq_refl (or_intror eq_refl))
    as (_ & _ & H).
  apply H. reflexivity.
Defined.

End Refusals.

(** ** The stages of a run *)

Module Stages.
Import PyStr OsPath Run VolumeMaker Spec Volume.
Import StrFacts ListFacts FsFacts PathFacts RunFacts Preflight Prepare.
Import NumberedNames.

Lemma wp_conj {R A : Type} (m : M R A) (N1 N2 : A -> world -> Prop)
    (Rt1 Rt2 : R -> world -> Prop) (Ex1 Ex2 : exn -> world -> Prop)
    (w : world) :
  wp m N1 Rt1 Ex1 w -> wp m N2 Rt2 Ex2 w ->
  wp m (fun a w' => N1 a w' /\ N2 a w') (fun r w' => Rt1 r w' /\ Rt2 r w')
     (fun x w' => Ex1 x w' /\ Ex2 x w') w.
Proof. unfold wp. destruct (m w) as [[a|r|x] w']; auto. Qed.

Lemma later_is_pre (evs : list event) :
  Forall later_event evs -> Forall pre_event evs.
Proof. apply Forall_impl. intros ev. destruct ev; simpl; tauto. Qed.

Lemma later_is_unprompted (evs : list event) :
  Forall later_event evs -> Forall unprompted evs.
Proof. apply Forall_impl. intros ev. destruct ev; simpl; tauto. Qed.

Lemma asked_cases (f cbz : string) (fs : Fs.t) :
  (Fs.lookup cbz fs = None -> asked f cbz fs = [])
  /\ (Fs.lookup cbz fs <> None -> asked f cbz fs = [EvPrompt f]).
Proof.
  unfold asked, Fs.exists_. destruct (Fs.lookup cbz fs); split; congruence.
Qed.

Lemma asked_later_pre (f cbz : string) (fs : Fs.t) (later : list event) :
  Forall later_event later -> Forall pre_event (asked f cbz fs ++ later).
Proof.
  intros H. apply Forall_app. split; [|now apply later_is_pre].
  unfold asked. destruct (Fs.exists_ cbz fs); repeat constructor.
Qed.

(** The cover check lets through only a cover with an image
    extension. *)
Lemma wp_validate_cover_valid (cover : option string)
    (N : unit -> world -> Prop) (Rt : bool -> world -> Prop)
    (Ex : exn -> world -> Prop) (w : world) :
  (cover_valid cover ->
   forall evs, Forall later_event evs ->
               N tt {| files := files w; log := (log w ++ evs)%list |}) ->
  (forall evs, Forall later_event evs ->
               Rt false {| files := files w; log := (log w ++ evs)%list |}) ->
  wp (validate_cover cover) N Rt Ex w.
Proof.
  intros HN HR. destruct w as [fs lg]. simpl in *.
  unfold wp, validate_cover, bind, Os.path_exists, get_files, print, ret,
    return_, bind, cover_valid in *.
  destruct (given cover) as [c|]; simpl.
  - destruct (Fs.exists_ c fs); simpl.
    + destruct (is_image_extension _) eqn:Hx; simpl.
      * apply HN; [|repeat constructor]. now intros c' [= <-].
      * apply HR. repeat constructor.
    + apply HR. repeat constructor.
  - assert (Hv : forall c, None = Some c ->
                   is_image_extension (snd (splitext (lower c))) = true)
      by discriminate.
    specialize (HN Hv [] (Forall_nil _)). now rewrite List.app_nil_r in HN.
Qed.

Lemma wp_locate_chapters_later (E : env) (base : string) (s e : Z)
    (N : list (Z * string) -> world -> Prop) (Rt : bool -> world -> Prop)
    (Ex : exn -> world -> Prop) (w : world) :
  (forall l evs, Forall later_event evs ->
                 N l {| files := files w; log := (log w ++ evs)%list |}) ->
  (forall evs, Forall later_event evs ->
               Rt false {| files := files w; log := (log w ++ evs)%list |}) ->
  (forall x, Ex x w) ->
  wp (locate_chapters E base s e) N Rt Ex w.
Proof.
  intros HN HR HE. destruct w as [fs lg]. simpl in *.
  unfold wp, locate_chapters, find_chapter_folders, call, bind, Os.listdir,
    get_files, print, ret, return_, raise, bind.
  simpl. destruct (Fs.lookup base fs) as [[c|]|]; simpl; try apply HE.
  destruct (listdir_fault E base); simpl; [apply HE|].
  destruct (sort_by fst _) as [|x l]; simpl.
  - apply HR. repeat constructor.
  - apply HN. repeat constructor.
Qed.

Section Run.
Variables (E : env) (base : string) (s e : Z) (name : string).
Variable cover : option string.
Variable w0 : world.

Let d := join base name.
Let f := name ++ ".cbz".
Let cbz := join base (name ++ ".cbz").

Variables (N : counters -> world -> Prop) (Rt : bool -> world -> Prop).
Variable Ex : exn -> world -> Prop.

Hypothesis when_halted :
  forall w, halted f d cbz w0 w -> Rt false w /\ forall x, Ex x w.

Hypothesis when_placing :
  forall fs1 fs2 later chapters,
    confirmed E cbz (files w0) fs1 ->
    made d (staging_base d fs1) fs2 -> Fs.lookup d fs2 = Some Fs.Dir ->
    Forall later_event later -> cover_valid cover ->
    wp (place_pages E d cover chapters) N Rt Ex
       {| files := fs2;
          log := (log w0 ++ asked f cbz (files w0) ++ later)%list |}.

Lemma wp_stages_after_confirm (fs1 : Fs.t) (later : list event) :
  fs1 = files w0 \/ fs1 = Fs.remove cbz (files w0) ->
  confirmed E cbz (files w0) fs1 -> Forall later_event later ->
  wp (bind (validate_cover cover)
        (fun _ => bind (create_staging d)
        (fun _ => bind (locate_chapters E base s e)
        (fun chapters => place_pages E d cover chapters))))
     N Rt Ex
     {| files := fs1;
        log := (log w0 ++ asked f cbz (files w0) ++ later)%list |}.
Proof.
  intros Hfs Hc Hlater.
  assert (Hh : forall fs' more,
             fs' = fs1 \/ made d (staging_base d fs1) fs' ->
             Forall later_event more ->
             halted f d cbz w0
               {| files := fs';
                  log := (log w0 ++ asked f cbz (files w0) ++ more)%list |}).
  { intros fs' more H Hmore. exists fs1, more. cbn [files log].
    split; [exact Hfs|]. split; [exact H|]. split; [reflexivity|].
    now apply later_is_unprompted. }
  apply wp_bind, wp_validate_cover_valid; cbn [files log].
  - intros Hv evs1 H1. rewrite <- !List.app_assoc.
    assert (H1' : Forall later_event (later ++ evs1))
      by (apply Forall_app; auto).
    apply wp_bind, wp_create_staging; cbn [files log].
    + intros fs2 Hm Hd. rewrite <- !List.app_assoc.
      assert (H2 : Forall later_event (later ++ evs1 ++ [EvCreatedTemp d])).
      { rewrite List.app_assoc. apply Forall_app.
        split; [exact H1' | repeat constructor]. }
      apply wp_bind, wp_locate_chapters_later; cbn [files log].
      * intros l evs3 H3. rewrite <- !List.app_assoc.
        apply (when_placing fs1); auto.
        rewrite !List.app_assoc. apply Forall_app. split; [|exact H3].
        now rewrite <- List.app_assoc.
      * intros evs3 H3. rewrite <- !List.app_assoc.
        apply when_halted, Hh; [now right|].
        rewrite !List.app_assoc. apply Forall_app. split; [|exact H3].
        now rewrite <- List.app_assoc.
      * intros x. apply when_halted, Hh; [now right | exact H2].
    + intros x fs' [[-> _] | Hm]; apply when_halted, Hh; auto.
  - intros evs1 H1. rewrite <- !List.app_assoc.
    apply when_halted, Hh; [now left | apply Forall_app; auto].
Qed.

(** Lines 85-175 by their stages: the run ends before the page loop as
    [halted] describes, or enters the loop with a fresh staging directory
    and a cover that passed the check. *)
Lemma wp_stages : wp (prepare E base s e name cover) N Rt Ex w0.
Proof.
  unfold prepare. fold cbz d f.
  destruct (asked_cases f cbz (files w0)) as [Hno Hyes].
  apply wp_bind, wp_confirm_overwrite.
  - intros Hn.
    pose proof (wp_stages_after_confirm (files w0) [] (or_introl eq_refl)
                  (or_introl (conj Hn eq_refl)) (Forall_nil _)) as H.
    rewrite (Hno Hn) in H. cbn [app] in H.
    rewrite List.app_nil_r, world_eta in H. exact H.
  - intros c Hc Hy.
    pose proof (wp_stages_after_confirm (Fs.remove cbz (files w0)) []
                  (or_intror eq_refl)
                  (or_intror (ex_intro _ c (conj Hc (conj Hy eq_refl))))
                  (Forall_nil _)) as H.
    rewrite Hyes in H by congruence. exact H.
  - intros Hx _. apply when_halted. exists (files w0), [EvCancelled].
    cbn [files log]. rewrite (Hyes Hx).
    repeat split; auto. repeat constructor.
  - intros Hx _. apply when_halted. exists (files w0), [].
    cbn [files log]. rewrite Hyes by congruence.
    repeat split; auto.
Qed.

End Run.
End Stages.

(** ** What a run leaves alone *)

Module Frame.
Import PyStr OsPath Run VolumeMaker Spec Volume.
Import StrFacts ListFacts FsFacts PathFacts RunFacts Preflight Placing PlacePages.
Import Prepare Archive WholeRun Stages.




Section Run.
Variables (E : env) (base : string) (s e : Z) (out cover : option string).
Variable w0 : world.

Let name := output_name out s e.
Let d := join base name.
Let cbz := join base (name ++ ".cbz").



End Run.



End Frame.

(** ** Once the archive step is reached *)

Module ArchiveStep.
Import PyStr OsPath Run VolumeMaker Spec Volume.
Import StrFacts ListFacts FsFacts PathFacts RunFacts Placing Prepare Archive.
Import WholeRun Numbering ArchiveFailure.

Lemma not_in_added (ev : event) (names : list string) :
  (forall n, ev <> EvAdded n) -> ~ In ev (map EvAdded names).
Proof.
  intros H Hin. apply in_map_iff in Hin as (n & Hn & _). now apply (H n).
Qed.

Lemma removed_tree_is_gone (d : string) (fs : Fs.t) :
  Fs.lookup d (Fs.remove_tree d fs) = None
  /\ forall q, Fs.below d q = true -> Fs.lookup q (Fs.remove_tree d fs) = None.
Proof.
  split; [|intros q Hq]; rewrite lookup_remove_tree.
  - now rewrite String.eqb_refl.
  - now rewrite Hq, orb_true_r.
Qed.

(** How lines 176-209 end, told by the log. *)
Lemma wp_create_cbz_outcome (E : env) (d f cbz : string) (st : counters)
    (w : world) :
  Fs.lookup d (files w) = Some Fs.Dir -> cbz <> d ->
  wp (create_cbz E d f cbz st)
     (fun b w' => exists post,
          log w' = (log w ++ post)%list
          /\ (b = true <-> exists t, In (EvSuccess t) post)
          /\ (b = false <-> In EvCbzError post)
          /\ Fs.lookup d (files w') = None
          /\ forall q, Fs.below d q = true -> Fs.lookup q (files w') = None)
     (fun _ _ => False) (fun _ _ => False) w.
Proof.
  intros Hd Hne. destruct w as [fs lg]. cbn [files log] in *.
  assert (Hfail : forall names,
             (false = true <->
              exists t, In (EvSuccess t)
                          (EvCreatingCbz f :: map EvAdded names ++ [EvCbzError]))
             /\ (false = false <->
                 In EvCbzError
                   (EvCreatingCbz f :: map EvAdded names ++ [EvCbzError]))).
  { intros names. split; split; try discriminate; try reflexivity.
    - intros (t & [H|H]); [discriminate|].
      apply in_app_iff in H as [H|[H|[]]]; [|discriminate].
      now apply not_in_added in H.
    - intros _. right. apply in_app_iff. right. now left. }
  apply wp_create_cbz; [exact Hd | exact Hne | | | ]; cbn zeta.
  - intros ms _. eexists. cbn [files log].
    split; [rewrite <- List.app_assoc; reflexivity|].
    split; [|split; [|apply removed_tree_is_gone]].
    + split; [intros _ | reflexivity]. exists (total_pages st).
      right. apply in_app_iff. right. now left.
    + split; [discriminate|]. intros [H|H]; [discriminate|].
      apply in_app_iff in H as [H|[H|[H|[]]]]; try discriminate.
      now apply not_in_added in H.
  - intros _. eexists. cbn [files log].
    split; [rewrite <- List.app_assoc; reflexivity|].
    split; [apply (Hfail [])|]. split; [apply (Hfail [])|].
    apply removed_tree_is_gone.
  - intros ms pre x post _ _ _. eexists. cbn [files log].
    split; [rewrite <- List.app_assoc; reflexivity|].
    split; [apply Hfail|]. split; [apply Hfail|].
    apply removed_tree_is_gone.
Qed.

(** A run returns True exactly when it has printed the success line. *)
Lemma run_verdict (E : env) (R : Type) (base : string) (s e : Z)
    (out cover : option string) (w0 : world) (evs : list event) :
  log (snd (@merge_chapters E R base s e out cover w0)) = (log w0 ++ evs)%list ->
  fst (@merge_chapters E R base s e out cover w0) = Normal true
  <-> exists t, In (EvSuccess t) evs.
Proof.
  revert evs.
  apply (merge_chapters_elim E base s e out cover w0
           (fun r w => forall evs,
                log w = (log w0 ++ evs)%list ->
                r = Normal true <-> exists t, In (EvSuccess t) evs)).
  apply wp_merge_chapters_body.
  - intros w (pre & pages & Hl & Hpre & Hpages & _).
    destruct (pre_event_not_placed pre Hpre) as [_ Hpre1].
    assert (Hno : forall evs,
               log w = (log w0 ++ evs)%list ->
               ~ exists t, In (EvSuccess t) evs).
    { intros evs Hevs (t & Hin). rewrite Hl in Hevs.
      apply List.app_inv_head in Hevs. subst evs.
      apply in_app_iff in Hin as [Hin|Hin]; [now apply Hpre1 in Hin|].
      now apply place_event_not_success in Hin. }
    split; [intros evs H1 | intros x evs H1];
      (split; [discriminate | intros H2; now elim (Hno evs H1)]).
  - intros st w Hr. pose proof (ready_staging_dir E base s e out w0 st w Hr) as Hd.
    destruct Hr as (fs1 & fs2 & pre & pages & _ & _ & _ & Hl & Hpre & Hpages & _).
    eapply wp_mono;
      [apply (wp_create_cbz_outcome E _ _ _ st w Hd), cbz_neq_output
      | | intros ? ? [] | intros ? ? []].
    intros b w' (post & Hl' & Hs & _) evs Hevs.
    rewrite Hl', Hl, <- !List.app_assoc in Hevs.
    apply List.app_inv_head in Hevs. subst evs.
    destruct (pre_event_not_placed pre Hpre) as [_ Hpre1].
    assert (Hb : Normal b = @Normal R bool true <-> b = true)
      by (split; [now intros [= ->] | now intros ->]).
    rewrite Hb, Hs. split; intros (t & Hin); exists t.
    + apply in_app_iff. right. apply in_app_iff. now right.
    + apply in_app_iff in Hin as [Hin|Hin]; [now apply Hpre1 in Hin|].
      apply in_app_iff in Hin as [Hin|Hin]; [|exact Hin].
      now apply place_event_not_success in Hin.
Qed.

(** X13.  Under an output name whose last component names a folder of
    its own (it is not empty and is neither "." nor ".."),
    [merge_chapters] returns True exactly when it has printed the line
    that reports success: a run that returns False or raises has not
    printed it, and a run that has printed it does not fail in the
    clean-up that follows. *)
Theorem returns_true_exactly_on_success (E : env) (R : Type) (base : string)
    (s e : Z) (out cover : option string) (w0 : world) (evs : list event) :
  own_folder (output_name out s e) = true ->
  log (snd (@merge_chapters E R base s e out cover w0)) = (log w0 ++ evs)%list ->
  fst (@merge_chapters E R base s e out cover w0) = Normal true
  <-> exists t, In (EvSuccess t) evs.
Proof. intros _. apply run_verdict. Qed.

Lemma returns_true_exactly_on_success_witness :
  fst (@merge_chapters Samples.calm unit "/m" 2 10 (Some "vol") None
         (Samples.start Samples.library)) = Normal true
  <-> exists t,
        In (EvSuccess t)
           (log (snd (@merge_chapters Samples.calm unit "/m" 2 10 (Some "vol")
                        None (Samples.start Samples.library)))).
Proof.
  apply (returns_true_exactly_on_success Samples.calm unit "/m" 2 10
           (Some "vol") None (Samples.start Samples.library)); reflexivity.
Defined.

(** X10.  Under an output name whose last component names a folder of
    its own (it is not empty and is neither "." nor ".."), a run of
    [merge_chapters] that gets as far as announcing the archive returns
    and does not raise, and the staging directory with everything below
    it is gone when it returns, whether the archive was written or not
    (lines 198-209).  It returns False exactly when it has reported an
    archive error. *)
Theorem archive_step_returns_and_cleans (E : env) (R : Type) (base : string)
    (s e : Z) (out cover : option string) (w0 : world) (evs : list event) :
  own_folder (output_name out s e) = true ->
  log (snd (@merge_chapters E R base s e out cover w0)) = (log w0 ++ evs)%list ->
  In (EvCreatingCbz (output_name out s e ++ ".cbz")) evs ->
  (exists b,
      fst (@merge_chapters E R base s e out cover w0) = Normal b
      /\ (b = false <-> In EvCbzError evs))
  /\ Fs.lookup (join base (output_name out s e))
       (files (snd (@merge_chapters E R base s e out cover w0))) = None
  /\ forall q,
       Fs.below (join base (output_name out s e)) q = true ->
       Fs.lookup q (files (snd (@merge_chapters E R base s e out cover w0)))
       = None.
Proof.
  intros _. revert evs.
  apply (merge_chapters_elim E base s e out cover w0
           (fun r w => forall evs,
                log w = (log w0 ++ evs)%list ->
                In (EvCreatingCbz (output_name out s e ++ ".cbz")) evs ->
                (exists b, r = Normal b /\ (b = false <-> In EvCbzError evs))
                /\ Fs.lookup (join base (output_name out s e)) (files w) = None
                /\ forall q,
                     Fs.below (join base (output_name out s e)) q = true ->
                     Fs.lookup q (files w) = None)).
  apply wp_merge_chapters_body.
  - intros w (pre & pages & Hl & Hpre & Hpages & _).
    assert (Hno : forall evs,
               log w = (log w0 ++ evs)%list ->
               ~ In (EvCreatingCbz (output_name out s e ++ ".cbz")) evs).
    { intros evs Hevs Hin. rewrite Hl in Hevs.
      apply List.app_inv_head in Hevs. subst evs.
      rewrite Forall_forall in Hpre, Hpages.
      apply in_app_iff in Hin as [Hin|Hin];
        [exact (Hpre _ Hin) | exact (Hpages _ Hin)]. }
    split; [intros evs H1 H2 | intros x evs H1 H2]; now elim (Hno evs H1).
  - intros st w Hr. pose proof (ready_staging_dir E base s e out w0 st w Hr) as Hd.
    destruct Hr as (fs1 & fs2 & pre & pages & _ & _ & _ & Hl & Hpre & Hpages & _).
    eapply wp_mono;
      [apply (wp_create_cbz_outcome E _ _ _ st w Hd), cbz_neq_output
      | | intros ? ? [] | intros ? ? []].
    intros b w' (post & Hl' & _ & Hx & Hgone) evs Hevs _.
    rewrite Hl', Hl, <- !List.app_assoc in Hevs.
    apply List.app_inv_head in Hevs. subst evs.
    split; [|exact Hgone]. exists b. split; [reflexivity|].
    destruct (pre_event_not_added pre Hpre) as [_ Hpre2].
    destruct (place_event_not_added pages Hpages) as [_ Hpages2].
    rewrite Hx. split; intros Hin.
    + apply in_app_iff. right. apply in_app_iff. now right.
    + apply in_app_iff in Hin as [Hin|Hin]; [now apply Hpre2 in Hin|].
      apply in_app_iff in Hin as [Hin|Hin]; [now apply Hpages2 in Hin|].
      exact Hin.
Qed.

Lemma archive_step_returns_and_cleans_witness :
  (exists b,
      fst (@merge_chapters Samples.disk_full unit "/m" 2 10 (Some "vol") None
             (Samples.start Samples.library)) = Normal b
      /\ (b = false <->
          In EvCbzError
            (log (snd (@merge_chapters Samples.disk_full unit "/m" 2 10
                         (Some "vol") None (Samples.start Samples.library))))))
  /\ Fs.lookup "/m/vol"
       (files (snd (@merge_chapters Samples.disk_full unit "/m" 2 10
                      (Some "vol") None (Samples.start Samples.library))))
     = None
  /\ forall q,
       Fs.below "/m/vol" q = true ->
       Fs.lookup q
         (files (snd (@merge_chapters Samples.disk_full unit "/m" 2 10
                        (Some "vol") None (Samples.start Samples.library))))
       = None.
Proof.
  apply (archive_step_returns_and_cleans Samples.disk_full unit "/m" 2 10
           (Some "vol") None (Samples.start Samples.library)).
  - reflexivity.
  - reflexivity.
  - vm_compute. auto 20.
Defined.

End ArchiveStep.

(** ** The staging directory during the page loop *)

Module Shelf.
Import PyStr OsPath Run VolumeMaker Spec Volume.
Import StrFacts ListFacts FsFacts PathFacts RunFacts Enumerator Placing PlacePages.
Import Digits NumberedNames.

Lemma lookup_app (q : string) (fs fs' : Fs.t) :
  Fs.lookup q (fs ++ fs')%list
  = match Fs.lookup q fs with Some n => Some n | None => Fs.lookup q fs' end.
Proof.
  induction fs as [|[p n] fs IH]; simpl; [reflexivity|].
  destruct (String.eqb p q); auto.
Qed.

Lemma write_fresh (p : string) (n : Fs.node) (fs : Fs.t) :
  Fs.lookup p fs = None -> Fs.write p n fs = (fs ++ [(p, n)])%list.
Proof.
  induction fs as [|[q m] fs IH]; simpl; [reflexivity|].
  destruct (String.eqb q p); [discriminate|]. intros H. now rewrite IH.
Qed.

(** [shutil.copy2] onto a path that denotes nothing, when a failure leaves
    nothing behind: the copy is the new last entry, or nothing changes. *)
Lemma wp_copy2_fresh {R : Type} (E : env) (src dst : string)
    (N : unit -> world -> Prop) (Rt : R -> world -> Prop)
    (Ex : exn -> world -> Prop) (w : world) :
  no_partial_copies E -> Fs.lookup dst (files w) = None ->
  (forall c, N tt {| files := (files w ++ [(dst, Fs.File c)])%list;
                     log := log w |}) ->
  (forall x, Ex x w) ->
  wp (Os.copy2 E src dst) N Rt Ex w.
Proof.
  intros HE Hdst HN HEx. destruct w as [fs lg]. cbn [files log] in *.
  unfold wp, Os.copy2, bind, get_files, put_files, raise, ret; simpl.
  destruct (copy_fault E src dst) as [[c|]|] eqn:Hf; simpl.
  - now elim (HE src dst c).
  - apply HEx.
  - destruct (Fs.lookup src fs) as [[c|]|] eqn:Hsrc; simpl; try apply HEx.
    unfold Fs.isdir. rewrite Hdst.
    destruct (String.eqb_spec src dst) as [->|Hne]; simpl; [congruence|].
    rewrite write_fresh by exact Hdst. apply HN.
Qed.

Lemma placed_names_app (l l' : list event) :
  placed_names (l ++ l') = (placed_names l ++ placed_names l')%list.
Proof. apply filter_map_app. Qed.

Lemma in_placed_names (name : string) (evs : list event) :
  In name (placed_names evs) ->
  exists o i c, In (EvPlaced o i name c) evs.
Proof.
  intros H. apply in_filter_map in H as (ev & Hin & Hev).
  destruct ev; try discriminate. injection Hev as <-. eauto.
Qed.

Lemma in_placed_indices (o : string) (i : nat) (name : string) (c : bool)
    (evs : list event) :
  In (EvPlaced o i name c) evs -> In i (placed_indices evs).
Proof.
  intros H. apply in_filter_map. exists (EvPlaced o i name c). auto.
Qed.

Lemma numbered_head (n : nat) (ext : string) :
  head_is is_decimal (fmt03d n ++ ext) = true.
Proof.
  pose proof (fmt03d_head n) as H. destruct (fmt03d n); [discriminate | exact H].
Qed.

Lemma walk_one (d name : string) (c : Fs.content) :
  head_is is_decimal name = true ->
  Fs.walk_files d [(join d name, Fs.File c)] = [(join d name, name)].
Proof.
  intros H. unfold Fs.walk_files. cbn [Fs.filter_map fst snd].
  rewrite join_relative by now apply decimal_head_not_sep.
  rewrite strip_prefix_app. destruct name; [discriminate | reflexivity].
Qed.

Lemma in_walk_files (d name : string) (c : Fs.content) (fs : Fs.t) :
  head_is is_decimal name = true ->
  In (join d name, Fs.File c) fs ->
  In name (map snd (Fs.walk_files d fs)).
Proof.
  intros H Hin. apply in_map_iff. exists (join d name, name).
  split; [reflexivity|]. apply in_filter_map.
  exists (join d name, Fs.File c). split; [exact Hin|]. cbn [fst snd].
  rewrite join_relative by now apply decimal_head_not_sep.
  rewrite strip_prefix_app. destruct name; [discriminate | reflexivity].
Qed.

Section Loop.
Variables (E : env) (d : string) (w0 : world).
Hypothesis careful : no_partial_copies E.
Hypothesis empty : Fs.walk_files d (files w0) = [].
Hypothesis no_dir :
  forall q, staged d q = true -> Fs.isdir q (files w0) = false.

Lemma shelved_start : shelved d w0 0 w0.
Proof.
  exists []. rewrite List.app_nil_r, empty. repeat split; auto.
Qed.

Lemma shelved_note (n : nat) (w : world) (ev : event) :
  shelved d w0 n w -> placed_index ev = None ->
  shelved d w0 n {| files := files w; log := (log w ++ [ev])%list |}.
Proof.
  intros (evs & Hl & Hf & Hp & Hw & Hd) Hev.
  exists (evs ++ [ev])%list. cbn [files log]. repeat split.
  - now rewrite Hl, List.app_assoc.
  - apply Forall_app. split; [exact Hf|]. constructor; [|constructor].
    destruct ev; try exact I. discriminate.
  - unfold placed_indices in *. rewrite filter_map_app, Hp.
    cbn [Fs.filter_map]. rewrite Hev. apply List.app_nil_r.
  - rewrite placed_names_app, Hw. unfold placed_names at 3.
    cbn [Fs.filter_map]. destruct ev; try discriminate;
      now rewrite List.app_nil_r.
  - exact Hd.
Qed.

(** The next name is not taken: the names in the directory carry smaller
    numbers. *)
Lemma shelved_fresh (n : nat) (w : world) (ext : string) :
  shelved d w0 n w -> In ext image_extensions ->
  Fs.lookup (join d (fmt03d (S n) ++ ext)) (files w) = None.
Proof.
  intros (evs & Hl & Hf & Hp & Hw & Hd) Hext.
  destruct (Fs.lookup _ (files w)) as [[c|]|] eqn:Hq; [| |reflexivity].
  - exfalso. apply lookup_in in Hq.
    apply (in_walk_files d _ c) in Hq; [|apply numbered_head].
    rewrite Hw in Hq. apply in_placed_names in Hq as (o & i & cv & Hin).
    pose proof (in_placed_indices _ _ _ _ _ Hin) as Hi.
    rewrite Hp in Hi. apply in_seq in Hi.
    rewrite Forall_forall in Hf. destruct (Hf _ Hin) as (ext' & Hext' & Hn).
    apply numbered_name_inj in Hn; [lia | exact Hext | exact Hext'].
  - exfalso. specialize (Hd _ (staged_page_path d (S n) ext)).
    unfold Fs.isdir in Hd. now rewrite Hq in Hd.
Qed.

Lemma shelved_placed (n : nat) (w : world) (ext original : string)
    (c : Fs.content) (cover : bool) :
  shelved d w0 n w -> In ext image_extensions ->
  shelved d w0 (S n)
    {| files := (files w ++ [(join d (fmt03d (S n) ++ ext), Fs.File c)])%list;
       log := (log w
               ++ [EvPlaced original (S n) (fmt03d (S n) ++ ext) cover])%list |}.
Proof.
  intros (evs & Hl & Hf & Hp & Hw & Hd) Hext.
  exists (evs ++ [EvPlaced original (S n) (fmt03d (S n) ++ ext) cover])%list.
  cbn [files log]. repeat split.
  - now rewrite Hl, List.app_assoc.
  - apply Forall_app. split; [exact Hf|]. constructor; [|constructor].
    exists ext. auto.
  - unfold placed_indices in *. rewrite filter_map_app, Hp.
    cbn [Fs.filter_map placed_index]. now rewrite seq_S.
  - unfold Fs.walk_files. rewrite filter_map_app.
    fold (Fs.walk_files d (files w)).
    fold (Fs.walk_files d [(join d (fmt03d (S n) ++ ext), Fs.File c)]).
    rewrite walk_one by apply numbered_head.
    now rewrite map_app, Hw, placed_names_app.
  - intros q Hq. specialize (Hd q Hq). unfold Fs.isdir in *.
    rewrite lookup_app. destruct (Fs.lookup q (files w)) as [[c'|]|];
      [reflexivity | discriminate |].
    cbn [Fs.lookup]. now destruct (String.eqb _ q).
Qed.

Let K (st : counters) (w : world) : Prop :=
  shelved d w0 (total_pages st) w /\ page_counter st = S (total_pages st).

Let Never (x : exn) (w : world) : Prop := False.

Let Go (b : bool) (w : world) : Prop := False.

Let Stop (b : bool) (w : world) : Prop := b = false.

Lemma wp_copy_page_shelved (st : counters) (image : string * string)
    (w : world) :
  K st w ->
  is_image_extension (snd (splitext (lower (fst image)))) = true ->
  wp (copy_page E d st image) K Go Never w.
Proof.
  intros [Hs Hc] Hext. apply is_image_extension_in in Hext.
  unfold copy_page. apply wp_try, wp_bind, wp_copy2_fresh.
  - exact careful.
  - rewrite Hc. now apply shelved_fresh.
  - intros c. apply wp_bind, wp_print, wp_ret.
    unfold K, advance. cbn [files log total_pages page_counter].
    rewrite !Nat.add_1_r, Hc. split; [|reflexivity].
    now apply shelved_placed.
  - intros x. apply wp_bind, wp_print, wp_ret.
    split; [|exact Hc]. now apply shelved_note.
Qed.

(** The pages [get_image_files] returns have image extensions. *)
Lemma wp_get_image_files_pages {R : Type} (folder : string)
    (N : list (string * string) -> world -> Prop) (Rt : R -> world -> Prop)
    (Ex : exn -> world -> Prop) (w : world) :
  (forall l,
      Forall (fun x => is_image_extension (snd (splitext (lower (fst x))))
                       = true) l ->
      N l w) ->
  N [] {| files := files w; log := (log w ++ [EvReadError folder])%list |} ->
  wp (get_image_files E folder) N Rt Ex w.
Proof.
  intros H1 H2. unfold wp. rewrite get_image_files_eq.
  destruct (readable E folder (files w)); [|exact H2].
  apply H1. apply Forall_forall. intros [name p] Hin.
  apply in_sort_by, in_listed_pages in Hin as (_ & Hok & _).
  unfold page_ok in Hok. apply andb_true_iff in Hok as [_ Hok].
  cbn [fst]. rewrite splitext_lower. exact Hok.
Qed.

Lemma wp_process_chapter_shelved (st : counters) (chapter : Z * string)
    (w : world) :
  K st w -> wp (process_chapter E d st chapter) K Go Never w.
Proof.
  intros [Hs Hc]. unfold process_chapter.
  assert (Hgo : forall l w',
            Forall (fun x => is_image_extension
                               (snd (splitext (lower (fst x)))) = true) l ->
            K st w' ->
            wp match l with
               | [] => bind (print (EvNoImages (fst chapter))) (fun _ => ret st)
               | _ :: _ => for_each (copy_page E d) l st
               end K Go Never w').
  { intros l w' Hl [Hs' Hc']. destruct l as [|x l].
    - apply wp_bind, wp_print, wp_ret. split; [|exact Hc'].
      now apply shelved_note.
    - apply wp_for_each; [|now split].
      intros s y w1 Hy HK. apply wp_copy_page_shelved; [exact HK|].
      rewrite Forall_forall in Hl. now apply Hl. }
  apply wp_bind, wp_get_image_files_pages.
  - intros l Hl. apply Hgo; [exact Hl | now split].
  - apply (Hgo []); [constructor|]. split; [|exact Hc]. now apply shelved_note.
Qed.

Lemma wp_place_cover_shelved (cover : option string) :
  cover_valid cover ->
  wp (place_cover E d cover {| page_counter := 1; total_pages := 0 |})
     K Stop Never w0.
Proof.
  intros Hv. unfold place_cover, cover_valid in *.
  destruct (given cover) as [c|].
  - specialize (Hv c eq_refl). apply is_image_extension_in in Hv.
    apply wp_try, wp_bind, wp_copy2_fresh.
    + exact careful.
    + cbn [page_counter]. apply shelved_fresh; [apply shelved_start | exact Hv].
    + intros c0. apply wp_bind, wp_print, wp_ret.
      unfold K, advance. cbn [files log total_pages page_counter].
      split; [|reflexivity].
      apply (shelved_placed 0 w0); [apply shelved_start | exact Hv].
    + intros x. apply wp_bind, wp_print, wp_return. reflexivity.
  - apply wp_ret. split; [apply shelved_start | reflexivity].
Qed.

(** Lines 127-175 from an empty staging directory: the regular files in
    it are the copies made, in order. *)
Lemma wp_place_pages_shelved (cover : option string)
    (chapters : list (Z * string)) :
  cover_valid cover ->
  wp (place_pages E d cover chapters)
     (fun st w => shelved d w0 (total_pages st) w)
     (fun b _ => b = false) (fun _ _ => False) w0.
Proof.
  intros Hv. unfold place_pages. apply wp_bind.
  eapply wp_mono; [apply (wp_place_cover_shelved cover Hv) | | auto | auto].
  intros st w HK.
  assert (Hbody : forall s x w1, In x chapters -> K s w1 ->
                    wp (process_chapter E d s x) K Go Never w1)
    by (intros; now apply wp_process_chapter_shelved).
  eapply wp_mono;
    [apply (wp_for_each _ _ K Go Never Hbody); exact HK
    | intros ? ? [H _]; exact H | intros ? ? H; elim H | auto].
Qed.

End Loop.
End Shelf.

(** ** The finished volume *)

Module FinishedVolume.
Import PyStr OsPath Run VolumeMaker Spec Volume.
Import StrFacts ListFacts FsFacts PathFacts RunFacts Enumerator Placing PlacePages.
Import Preflight Prepare Archive WholeRun Numbering EmptyPlan.
Import Digits NumberedNames Stages Frame Shelf.

Lemma placed_names_pre (evs : list event) :
  Forall pre_event evs -> placed_names evs = [].
Proof.
  induction 1 as [|ev evs Hev _ IH]; [reflexivity|].
  unfold placed_names in *. cbn [Fs.filter_map].
  destruct ev; simpl in Hev; try contradiction; exact IH.
Qed.

Lemma placed_names_cbz (evs : list event) :
  Forall cbz_event evs -> placed_names evs = [].
Proof.
  induction 1 as [|ev evs Hev _ IH]; [reflexivity|].
  unfold placed_names in *. cbn [Fs.filter_map].
  destruct ev; simpl in Hev; try contradiction; exact IH.
Qed.

Lemma length_numbered (exts : list string) :
  length (numbered exts) = length exts.
Proof.
  unfold numbered. rewrite length_map, length_combine, length_seq.
  apply Nat.min_id.
Qed.

(** The names of the copies, read as numbers and extensions. *)
Lemma placed_names_numbered (evs : list event) :
  Forall image_named evs ->
  exists exts,
    length exts = length (placed_indices evs)
    /\ Forall (fun ext => In ext image_extensions) exts
    /\ placed_names evs
       = map (fun ie => fmt03d (fst ie) ++ snd ie)
             (combine (placed_indices evs) exts).
Proof.
  induction 1 as [|ev evs Hev _ (exts & Hlen & Hin & Hn)].
  - exists []. repeat split. constructor.
  - destruct ev;
      try (exists exts; repeat split; assumption).
    destruct Hev as (ext & Hext & ->).
    exists (ext :: exts). unfold placed_names, placed_indices in *.
    cbn [Fs.filter_map placed_name placed_index length combine map fst snd].
    split; [now rewrite Hlen|]. split; [now constructor|]. now rewrite Hn.
Qed.

Section Run.
Variables (E : env) (base : string) (s e : Z) (out cover : option string).
Variable w0 : world.

Let name := output_name out s e.
Let d := join base name.
Let cbz := join base (name ++ ".cbz").

Hypothesis plain : plain_name name = true.
Hypothesis tidy : no_orphans d (files w0).
Hypothesis careful : no_partial_copies E.

Let volume (r : result bool bool) (w : world) : Prop :=
  r = Normal true ->
  forall evs, log w = (log w0 ++ evs)%list ->
  exists ms exts,
    Fs.lookup cbz (files w) = Some (Fs.File (Fs.Cbz ms))
    /\ map fst ms = placed_names evs
    /\ map fst ms = numbered exts
    /\ Forall (fun ext => In ext image_extensions) exts
    /\ In (EvSuccess (length ms)) evs.

Lemma walk_files_archive (ms : list (string * Fs.content)) (fs : Fs.t) :
  Fs.lookup cbz fs = None ->
  Fs.walk_files d (Fs.write cbz (Fs.File (Fs.Cbz ms)) fs) = Fs.walk_files d fs.
Proof.
  intros Hn. rewrite write_fresh by exact Hn.
  unfold Fs.walk_files. rewrite filter_map_app. cbn [Fs.filter_map fst snd].
  pose proof (plain_cbz_outside base name plain) as Hb.
  fold d cbz in Hb. unfold Fs.below, startswith in Hb.
  destruct (strip_prefix (Fs.dir_prefix d) cbz); [discriminate|].
  apply List.app_nil_r.
Qed.

Lemma wp_body_volume :
  wp (merge_chapters_body E base s e out cover)
     (fun b w => volume (Normal b) w) (fun b w => volume (Normal b) w)
     (fun x w => volume (Raise x) w) w0.
Proof.
  unfold wp. rewrite merge_chapters_body_eq. fold name d cbz.
  apply wp_bind. apply (wp_stages E base s e name cover w0).
  - intros w _. split; [|intros x]; intros H; discriminate H.
  - intros fs1 fs2 later chapters Hc Hm Hd Hlater Hv. fold d cbz in Hc, Hm, Hd.
    pose proof (asked_later_pre (name ++ ".cbz") cbz (files w0) later Hlater)
      as Hpre.
    fold cbz. set (pre := (asked (name ++ ".cbz") cbz (files w0) ++ later)%list) in *.
    assert (Hin : forall q, inside d q = true -> Fs.lookup q fs2 = None).
    { apply (staging_empty d fs1 fs2); [|exact Hm].
      apply (no_orphans_confirmed E d cbz (files w0) fs1);
        [apply cbz_neq_output | exact tidy | exact Hc]. }
    assert (Hcbz : Fs.lookup cbz fs2 = None).
    { apply (absent_kept_made d fs1 fs2 Hm);
        [|apply staged_cbz | apply cbz_not_prefix].
      destruct Hc as [[Hn ->] | (c & _ & _ & ->)]; [exact Hn|].
      rewrite lookup_remove. now rewrite String.eqb_refl. }
    eapply wp_mono;
      [apply wp_conj;
         [apply (wp_place_pages E d {| files := fs2; log := (log w0 ++ pre)%list |}
                   cover chapters)
         |apply (wp_place_pages_shelved E d
                   {| files := fs2; log := (log w0 ++ pre)%list |}
                   careful (walk_files_nil d fs2 Hin))]
      | | | ].
    + intros q Hq. apply staged_inside in Hq. cbn [files].
      unfold Fs.isdir. now rewrite (Hin q Hq).
    + exact Hv.
    + intros st [fs lg]
        [[(evs1 & Hl1 & _ & _ & Hfr & _) _] (pages & Hl & Hf & Hp & Hw & _)].
      cbn [files log] in *.
      assert (Hdir : Fs.lookup d fs = Some Fs.Dir)
        by (rewrite Hfr; [exact Hd | apply staged_self]).
      assert (Hno : Fs.lookup cbz fs = None)
        by (rewrite Hfr; [exact Hcbz | apply staged_cbz]).
      apply wp_create_cbz; [exact Hdir | apply cbz_neq_output | | | ]; cbn zeta.
      * intros ms Hms _ evs Hevs. cbn [files log] in *.
        rewrite walk_files_archive, Hw in Hms by exact Hno.
        destruct (placed_names_numbered pages Hf) as (exts & Hlen & Hexts & Hn).
        rewrite Hp in Hlen, Hn. rewrite length_seq in Hlen.
        assert (Hnum : placed_names pages = numbered exts)
          by (unfold numbered; now rewrite Hlen).
        rewrite Hl, <- !List.app_assoc in Hevs.
        apply List.app_inv_head in Hevs. subst evs.
        exists ms, exts.
        split; [|split; [|split; [congruence|split; [exact Hexts|]]]].
        -- rewrite lookup_remove_tree.
           pose proof (plain_cbz_outside base name plain) as Hb.
           fold d cbz in Hb. rewrite Hb.
           pose proof (cbz_neq_output base name) as Hne. fold d cbz in Hne.
           apply String.eqb_neq in Hne. rewrite Hne. cbn [orb].
           rewrite lookup_write. now rewrite String.eqb_refl.
        -- rewrite (placed_names_app pre), (placed_names_pre pre Hpre).
           cbn [app]. rewrite (placed_names_app pages).
           match goal with
           | |- _ = (_ ++ placed_names ?post)%list =>
               rewrite (placed_names_cbz post)
           end; [rewrite List.app_nil_r; exact Hms|].
           constructor; [exact I|]. apply Forall_app.
           split; [apply cbz_event_added | repeat constructor].
        -- assert (Hms' : length ms = total_pages st).
           { rewrite <- (length_map fst ms), Hms, Hnum, length_numbered.
             exact Hlen. }
           rewrite Hms'. apply in_app_iff. right. apply in_app_iff. right.
           right. apply in_app_iff. right. now left.
      * intros _ H. discriminate H.
      * intros ms pre0 x post _ _ _ H. discriminate H.
    + intros b w [[-> _] _] H. discriminate H.
    + intros x w [[] _].
Qed.

End Run.

(** X12.  The volume.  Take an output name whose last component names a
    folder of its own (it is not empty and is neither "." nor ".."), a
    file system with nothing below a staging path that does not exist,
    and copies that leave nothing behind when they fail.  Then a run of
    [merge_chapters] that returns True leaves at the archive path an
    archive whose members are the copies the run reported, each once:
    their names are the numbers 1 to n in three digits, each followed by
    one of the image extensions, and the number of pages reported with
    the success is the number n of members.  The order of the members
    in the archive is the order in which [os.walk] meets the staged
    files, which the code does not determine; it is not stated. *)
Theorem finished_volume_holds_the_numbered_pages (E : env) (R : Type)
    (base : string) (s e : Z) (out cover : option string) (w0 : world)
    (evs : list event) :
  own_folder (output_name out s e) = true ->
  no_orphans (join base (output_name out s e)) (files w0) ->
  no_partial_copies E ->
  log (snd (@merge_chapters E R base s e out cover w0)) = (log w0 ++ evs)%list ->
  fst (@merge_chapters E R base s e out cover w0) = Normal true ->
  exists ms exts,
    Fs.lookup (join base (output_name out s e ++ ".cbz"))
      (files (snd (@merge_chapters E R base s e out cover w0)))
    = Some (Fs.File (Fs.Cbz ms))
    /\ Permutation (map fst ms) (placed_names evs)
    /\ Permutation (map fst ms) (numbered exts)
    /\ Forall (fun ext => In ext image_extensions) exts
    /\ In (EvSuccess (length ms)) evs.
Proof.
  intros Hown Htidy Hcare Hlog Hok.
  pose proof (own_folder_plain _ Hown) as Hplain.
  pose proof (merge_chapters_elim E base s e out cover w0
                (fun (r : result R bool) w =>
                   r = Normal true ->
                   forall evs, log w = (log w0 ++ evs)%list ->
                   exists ms exts,
                     Fs.lookup (join base (output_name out s e ++ ".cbz"))
                       (files w) = Some (Fs.File (Fs.Cbz ms))
                     /\ map fst ms = placed_names evs
                     /\ map fst ms = numbered exts
                     /\ Forall (fun ext => In ext image_extensions) exts
                     /\ In (EvSuccess (length ms)) evs)) as H.
  destruct H with (3 := Hlog) as (ms & exts & H1 & H2 & H3 & H4 & H5);
    [|exact Hok|].
  - eapply wp_mono;
      [apply (wp_body_volume E base s e out cover w0 Hplain Htidy Hcare) | | | ].
    + intros b w Hv [= ->]. now apply Hv.
    + intros b w Hv [= ->]. now apply Hv.
    + intros x w _ Hx. discriminate Hx.
  - exists ms, exts. split; [exact H1|].
    split; [rewrite H2; apply Permutation_refl|].
    split; [rewrite H3; apply Permutation_refl|].
    split; assumption.
Qed.

Lemma finished_volume_holds_the_numbered_pages_witness :
  exists ms exts,
    Fs.lookup "/m/vol.cbz"
      (files (snd (@merge_chapters Samples.calm unit "/m" 2 10 (Some "vol")
                     (Some "/c.jpg") (Samples.start Samples.library))))
    = Some (Fs.File (Fs.Cbz ms))
    /\ Permutation (map fst ms)
         (placed_names
            (log (snd (@merge_chapters Samples.calm unit "/m" 2 10 (Some "vol")
                         (Some "/c.jpg") (Samples.start Samples.library)))))
    /\ Permutation (map fst ms) (numbered exts)
    /\ Forall (fun ext => In ext image_extensions) exts
    /\ In (EvSuccess (length ms))
         (log (snd (@merge_chapters Samples.calm unit "/m" 2 10 (Some "vol")
                      (Some "/c.jpg") (Samples.start Samples.library)))).
Proof.
  apply (finished_volume_holds_the_numbered_pages Samples.calm unit "/m" 2 10
           (Some "vol") (Some "/c.jpg") (Samples.start Samples.library)).
  - reflexivity.
  - apply no_orphans_check. reflexivity.
  - intros src dst c H. discriminate H.
  - reflexivity.
  - reflexivity.
Defined.

End FinishedVolume.

(** ** The prompt *)

Module Prompt.
Import PyStr OsPath Run VolumeMaker Spec Volume.
Import StrFacts ListFacts FsFacts PathFacts RunFacts Preflight Placing PlacePages.
Import Prepare Archive WholeRun Stages.

Lemma place_is_unprompted (evs : list event) :
  Forall place_event evs -> Forall unprompted evs.
Proof. apply Forall_impl. intros ev. destruct ev; simpl; tauto. Qed.

Lemma cbz_is_unprompted (evs : list event) :
  Forall cbz_event evs -> Forall unprompted evs.
Proof. apply Forall_impl. intros ev. destruct ev; simpl; tauto. Qed.

(** X3.  [merge_chapters] asks its question at most once, as the first
    thing it prints, and exactly when something exists at the archive
    path (lines 86-87): the log of a run is the prompt, if the path was
    taken, followed by lines none of which is a prompt.  A run towards a
    free archive path never waits for input. *)
Theorem prompt_only_for_an_existing_archive (E : env) (R : Type)
    (base : string) (s e : Z) (out cover : option string) (w0 : world) :
  exists rest,
    log (snd (@merge_chapters E R base s e out cover w0))
    = (log w0
       ++ asked (output_name out s e ++ ".cbz")
            (join base (output_name out s e ++ ".cbz")) (files w0)
       ++ rest)%list
    /\ Forall unprompted rest.
Proof.
  set (name := output_name out s e).
  set (d := join base name).
  set (cbz := join base (name ++ ".cbz")).
  apply (merge_chapters_elim E base s e out cover w0
           (fun _ w => exists rest,
                log w = (log w0 ++ asked (name ++ ".cbz") cbz (files w0)
                         ++ rest)%list
                /\ Forall unprompted rest)).
  unfold wp. rewrite merge_chapters_body_eq. fold name d cbz.
  apply wp_bind. apply (wp_stages E base s e name cover w0).
  - intros w (fs1 & later & _ & _ & Hl & Hu).
    assert (H : exists rest,
               log w = (log w0 ++ asked (name ++ ".cbz") cbz (files w0)
                        ++ rest)%list
               /\ Forall unprompted rest) by eauto.
    split; [exact H | intros _; exact H].
  - intros fs1 fs2 later chapters _ _ Hd Hlater _. fold d cbz in Hd |- *.
    eapply wp_mono; [apply wp_place_pages | | | intros ? ? []].
    + intros st w [(pages & Hl & Hf & _ & Hfr & _) _]. cbn [files log] in *.
      assert (Hdir : Fs.lookup d (files w) = Some Fs.Dir)
        by (rewrite Hfr; [exact Hd | apply staged_self]).
      eapply wp_mono;
        [apply (wp_create_cbz_log E base s e out st w Hdir)
        | | intros ? ? [] | intros ? ? []].
      intros b w' (post & Hl' & Hpost & _).
      exists (later ++ pages ++ post)%list.
      split; [rewrite Hl', Hl, <- !List.app_assoc; reflexivity|].
      apply Forall_app. split; [now apply later_is_unprompted|].
      apply Forall_app. split;
        [now apply place_is_unprompted | now apply cbz_is_unprompted].
    + intros b w [_ (fs' & -> & _)]. cbn [log].
      exists (later ++ [EvCoverCopyError])%list.
      split; [now rewrite <- !List.app_assoc|].
      apply Forall_app. split;
        [now apply later_is_unprompted | repeat constructor].
Qed.

End Prompt.

(** ** The exit status *)

Module ExitStatus.
Import PyStr OsPath Run VolumeMaker Spec Volume EntryPoint.
Import StrFacts ListFacts RunFacts ArchiveStep.

(** X21.  When the output name given on the command line, if one is
    given, has a last component that names a folder of its own (it is not
    empty and is neither "." nor ".."), the exit status of [main] is 0 or
    1, and it is 0 exactly when the success line of [merge_chapters] was
    printed: every error of the argument handling, every False from
    [merge_chapters] and every exception out of it gives status 1.  When
    the arguments are not accepted, [merge_chapters] is not called and
    the files are as they were. *)
Theorem main_exit_status (P : process) (E : env) (args : list string)
    (w : world) (evs : list event) :
  (forall name, output_folder (fst (main_arguments args)) = Some name ->
                own_folder name = true) ->
  log (snd (main P E args w)) = (log w ++ evs)%list ->
  (fst (main P E args w) = 0%Z \/ fst (main P E args w) = 1%Z)
  /\ (fst (main P E args w) = 0%Z <-> exists t, In (EvSuccess t) evs)
  /\ (snd (main_arguments args) <> CallMerge -> main P E args w = (1%Z, w)).
Proof.
  intros _.
  assert (Hquiet : log w = (log w ++ evs)%list ->
                   (1%Z = 0%Z \/ 1%Z = 1%Z)
                   /\ (1%Z = 0%Z <-> exists t, In (EvSuccess t) evs)).
  { intros H. rewrite <- (List.app_nil_r (log w)) in H at 1.
    apply List.app_inv_head in H. subst evs.
    split; [now right|]. split; [discriminate | now intros (t & [])]. }
  unfold main. destruct (main_arguments args) as [a p].
  destruct p; cbn [fst snd]; intros Hl;
    try (destruct (Hquiet Hl) as [H1 H2];
         split; [exact H1|]; split; [exact H2 | reflexivity]).
  destruct (start_chapter a) as [s|], (end_chapter a) as [e|]; cbn [fst snd] in *;
    try (destruct (Hquiet Hl) as [H1 H2];
         split; [exact H1|]; split; [exact H2 | congruence]).
  pose proof (run_verdict E unit (script_dir P) s e (output_folder a)
                (resolve_cover P (cover_image_path a)) w evs) as Hv.
  destruct (@merge_chapters E unit (script_dir P) s e (output_folder a)
              (resolve_cover P (cover_image_path a)) w) as [[[|]|r|x] w'];
    cbn [fst snd] in *; specialize (Hv Hl);
    (split; [auto|]); (split; [|congruence]);
    rewrite <- Hv; split; intros H; try reflexivity; discriminate H.
Qed.

Lemma main_exit_status_witness :
  (fst (main MoreSamples.from_library Samples.calm
          ["/c.jpg"; "2"; "10"; "vol"] (Samples.start Samples.library)) = 0%Z
   \/ fst (main MoreSamples.from_library Samples.calm
             ["/c.jpg"; "2"; "10"; "vol"] (Samples.start Samples.library))
      = 1%Z)
  /\ (fst (main MoreSamples.from_library Samples.calm
             ["/c.jpg"; "2"; "10"; "vol"] (Samples.start Samples.library))
      = 0%Z
      <-> exists t,
            In (EvSuccess t)
               (log (snd (main MoreSamples.from_library Samples.calm
                            ["/c.jpg"; "2"; "10"; "vol"]
                            (Samples.start Samples.library)))))
  /\ (snd (main_arguments ["/c.jpg"; "2"; "10"; "vol"]) <> CallMerge ->
      main MoreSamples.from_library Samples.calm ["/c.jpg"; "2"; "10"; "vol"]
        (Samples.start Samples.library)
      = (1%Z, Samples.start Samples.library)).
Proof.
  apply (main_exit_status MoreSamples.from_library Samples.calm
           ["/c.jpg"; "2"; "10"; "vol"] (Samples.start Samples.library)).
  - intros name H. injection H as <-. reflexivity.
  - reflexivity.
Defined.

End ExitStatus.

(** ** Ranges of chapters *)

Module Ranges.
Import PyStr Re OsPath Run VolumeMaker Spec Volume.
Import StrFacts ListFacts FsFacts Locator.

Section Filter.
Context {A : Type} (key : A -> Z) (p : A -> bool).

Lemma insert_by_head (x : A) (l : list A) :
  Forall (fun y => (key x <= key y)%Z) l -> insert_by key x l = x :: l.
Proof.
  destruct 1 as [|y l Hy _]; simpl; [reflexivity|].
  destruct (Z.leb_spec (key x) (key y)); [reflexivity | lia].
Qed.

Lemma filter_insert_by (x : A) (l : list A) :
  StronglySorted (key_le key) l ->
  filter p (insert_by key x l)
  = if p x then insert_by key x (filter p l) else filter p l.
Proof.
  induction 1 as [|y l Hs IH Hy]; cbn [insert_by].
  - cbn [filter]. now destruct (p x).
  - destruct (Z.leb_spec (key x) (key y)) as [Hle|Hgt].
    + change (filter p (x :: y :: l))
        with (if p x then x :: filter p (y :: l) else filter p (y :: l)).
      destruct (p x); [|reflexivity].
      rewrite insert_by_head; [reflexivity|].
      apply Forall_forall. intros z Hz. apply filter_In in Hz as [Hz _].
      destruct Hz as [<-|Hz]; [exact Hle|].
      rewrite Forall_forall in Hy. specialize (Hy z Hz).
      unfold key_le in Hy. lia.
    + cbn [filter]. rewrite IH.
      destruct (p y), (p x); cbn [insert_by]; try reflexivity.
      destruct (Z.leb_spec (key x) (key y)); [lia | reflexivity].
Qed.

(** Filtering commutes with the stable sort. *)
Lemma filter_sort_by (l : list A) :
  filter p (sort_by key l) = sort_by key (filter p l).
Proof.
  induction l as [|x l IH]; [reflexivity|]. cbn [sort_by filter].
  rewrite filter_insert_by by apply sort_by_sorted.
  destruct (p x); cbn [sort_by]; now rewrite IH.
Qed.

End Filter.

Lemma chapter_of_narrow (fs : Fs.t) (base : string) (s e s' e' : Z)
    (item : string) :
  (s' <= s)%Z -> (e <= e')%Z ->
  chapter_of fs base s e item
  = match chapter_of fs base s' e' item with
    | Some c => if in_range s e c then Some c else None
    | None => None
    end.
Proof.
  intros Hs He. unfold chapter_of, in_range.
  destruct (Fs.isdir _ fs); [|reflexivity].
  destruct (match_chapter item) as [g|]; [|reflexivity].
  destruct (Z.leb_spec s (int_digits g)), (Z.leb_spec (int_digits g) e),
    (Z.leb_spec s' (int_digits g)), (Z.leb_spec (int_digits g) e');
    cbn [andb fst]; try reflexivity; try lia;
    repeat match goal with
           | |- context [(?a <=? ?b)%Z] => destruct (Z.leb_spec a b)
           end; cbn [andb]; try reflexivity; lia.
Qed.

Lemma filter_filter_map {A B : Type} (f : A -> option B) (p : B -> bool)
    (l : list A) :
  filter p (Fs.filter_map f l)
  = Fs.filter_map (fun x => match f x with
                            | Some c => if p c then Some c else None
                            | None => None
                            end) l.
Proof.
  induction l as [|x l IH]; [reflexivity|]. cbn [Fs.filter_map].
  destruct (f x) as [c|]; [|exact IH]. cbn [filter].
  destruct (p c); now rewrite IH.
Qed.

(** X16.  The chapters [find_chapter_folders] returns for a range are
    those it returns for any wider range that lie in the narrower one, in
    the same order: narrowing the range drops chapters and does nothing
    else. *)
Theorem narrower_range_is_a_filter (E : env) (R : Type) (base : string)
    (s e s' e' : Z) (w : world) :
  readable E base (files w) = true -> (s' <= s)%Z -> (e <= e')%Z ->
  exists wide,
    @find_chapter_folders E R base s' e' w = (Normal wide, w)
    /\ @find_chapter_folders E R base s e w
       = (Normal (filter (in_range s e) wide), w).
Proof.
  intros Hr Hs He. rewrite !find_chapter_folders_eq by exact Hr.
  eexists. split; [reflexivity|]. f_equal. f_equal.
  rewrite filter_sort_by, filter_filter_map. f_equal.
  apply filter_map_ext_in. intros item _.
  now apply chapter_of_narrow.
Qed.

Lemma narrower_range_is_a_filter_witness :
  exists wide,
    @find_chapter_folders Samples.calm unit "/m" 1 20
      (Samples.start Samples.library) = (Normal wide, Samples.start Samples.library)
    /\ @find_chapter_folders Samples.calm unit "/m" 3 10
         (Samples.start Samples.library)
       = (Normal (filter (in_range 3 10) wide), Samples.start Samples.library).
Proof.
  apply (narrower_range_is_a_filter Samples.calm unit "/m" 3 10 1 20
           (Samples.start Samples.library)); [reflexivity | lia | lia].
Defined.

End Ranges.

(** ** Folders that cannot be read *)

Module Unreadable.
Import PyStr Re OsPath Run VolumeMaker Spec Volume.
Import StrFacts ListFacts FsFacts Locator Enumerator.

(** X6.  A chapter without a page costs nothing: when its folder cannot
    be listed, [process_chapter] prints the read error and the line about
    the missing images, and when it can be listed but holds no image file
    it prints the latter only; in both cases the counters and the files
    are as before and the loop goes on. *)
Theorem pageless_chapter_is_skipped (E : env) (d : string) (st : counters)
    (n : Z) (folder : string) (w : world) :
  (readable E folder (files w) = false ->
   process_chapter E d st (n, folder) w
   = (Normal st,
      {| files := files w;
         log := (log w ++ [EvReadError folder; EvNoImages n])%list |}))
  /\ (readable E folder (files w) = true ->
      listed_pages (files w) folder = [] ->
      process_chapter E d st (n, folder) w
      = (Normal st,
         {| files := files w; log := (log w ++ [EvNoImages n])%list |})).
Proof.
  split.
  - intros Hr. unfold process_chapter. cbn [fst snd]. unfold bind.
    rewrite get_image_files_eq, Hr.
    unfold print, ret. cbn [files log]. now rewrite <- List.app_assoc.
  - intros Hr Hl. unfold process_chapter. cbn [fst snd]. unfold bind.
    rewrite get_image_files_eq, Hr, Hl. reflexivity.
Qed.

Lemma pageless_chapter_is_skipped_witness :
  process_chapter Samples.calm "/m/vol" {| page_counter := 4; total_pages := 3 |}
    (7%Z, "/m/Chapter 7") (Samples.start Samples.library)
  = (Normal {| page_counter := 4; total_pages := 3 |},
     {| files := Samples.library;
        log := [EvReadError "/m/Chapter 7"; EvNoImages 7] |})
  /\ process_chapter Samples.calm "/m/vol" {| page_counter := 4; total_pages := 3 |}
       (1%Z, "/m/Chapter 1") (Samples.start Samples.empty_chapter)
     = (Normal {| page_counter := 4; total_pages := 3 |},
        {| files := Samples.empty_chapter; log := [EvNoImages 1] |}).
Proof.
  split.
  - apply (proj1 (pageless_chapter_is_skipped Samples.calm "/m/vol"
                    {| page_counter := 4; total_pages := 3 |} 7 "/m/Chapter 7"
                    (Samples.start Samples.library))).
    reflexivity.
  - apply (proj2 (pageless_chapter_is_skipped Samples.calm "/m/vol"
                    {| page_counter := 4; total_pages := 3 |} 1 "/m/Chapter 1"
                    (Samples.start Samples.empty_chapter)));
      reflexivity.
Defined.

(** X17.  Unlike [get_image_files], [find_chapter_folders] has no handler
    around [os.listdir]: on a base path that is missing, is not a
    directory or cannot be listed it raises, having printed nothing and
    changed nothing, and returns no list. *)
Theorem unreadable_base_raises (E : env) (R : Type) (base : string)
    (s e : Z) (w : world) :
  readable E base (files w) = false ->
  exists x, @find_chapter_folders E R base s e w = (Raise x, w).
Proof.
  unfold readable, Fs.isdir. intros Hr.
  cbv [find_chapter_folders call Os.listdir bind get_files raise ret].
  destruct (Fs.lookup base (files w)) as [[c|]|]; cbn [andb negb] in *.
  - eauto.
  - destruct (listdir_fault E base); [eauto | discriminate].
  - eauto.
Qed.

Lemma unreadable_base_raises_witness :
  exists x,
    @find_chapter_folders Samples.calm unit "/nowhere" 1 5
      (Samples.start Samples.library)
    = (Raise x, Samples.start Samples.library).
Proof.
  apply (unreadable_base_raises Samples.calm unit "/nowhere" 1 5
           (Samples.start Samples.library)).
  reflexivity.
Defined.

End Unreadable.

(** ** The page loop without failures *)

Module PageLoop.
Import PyStr OsPath Run VolumeMaker Spec Volume.
Import StrFacts ListFacts FsFacts PathFacts RunFacts Enumerator Placing PlacePages.
Import Digits NumberedNames Shelf.

Lemma prefix_cases (a b c r : string) :
  a ++ b = c ++ r ->
  (exists x, a = c ++ x /\ r = x ++ b) \/ (exists x, c = a ++ x /\ b = x ++ r).
Proof.
  revert c. induction a as [|u a IH]; intros c H; cbn [append] in *.
  - right. exists c. auto.
  - destruct c as [|v c]; cbn [append] in *.
    + left. exists (String u a). auto.
    + injection H as -> H. destruct (IH c H) as [(x & -> & ->) | (x & -> & ->)];
        [left | right]; exists x; auto.
Qed.

Lemma has_sep_app (a b : string) :
  Fs.has_sep (a ++ b) = Fs.has_sep a || Fs.has_sep b.
Proof.
  induction a as [|x a IH]; cbn [append Fs.has_sep]; [reflexivity|].
  now rewrite IH, orb_assoc.
Qed.

Lemma endswith_has_sep (s : string) :
  endswith_char s sep = true -> Fs.has_sep s = true.
Proof.
  induction s as [|x s IH]; cbn [endswith_char Fs.has_sep]; [discriminate|].
  destruct s as [|y s]; [intros ->; reflexivity|].
  intros H. rewrite (IH H). apply orb_true_r.
Qed.

Lemma dir_prefix_ends (d : string) :
  d <> "" -> endswith_char (Fs.dir_prefix d) sep = true.
Proof.
  intros Hd. unfold Fs.dir_prefix, join.
  change (startswith "" (String sep "")) with false. cbv iota.
  destruct (String.eqb_spec d ""); [congruence|]. cbn [orb].
  destruct (endswith_char d sep) eqn:He.
  - now rewrite append_nil_r.
  - now rewrite endswith_char_append.
Qed.

Lemma dir_prefix_nonempty (d : string) : d <> "" -> Fs.dir_prefix d <> "".
Proof.
  intros Hd H. apply dir_prefix_ends in Hd. now rewrite H in Hd.
Qed.

Lemma dir_prefix_empty (d : string) : Fs.dir_prefix d = "" -> d = "".
Proof.
  intros H. destruct (String.eqb_spec d ""); [assumption|].
  now apply dir_prefix_nonempty in H.
Qed.

(** A file put into one directory is not an entry of another. *)
Lemma entry_name_elsewhere (folder d name : string) :
  d <> "" -> Fs.dir_prefix folder <> Fs.dir_prefix d ->
  Fs.has_sep name = false ->
  Fs.entry_name folder (Fs.dir_prefix d ++ name) = None.
Proof.
  intros Hd Hne Hname. unfold Fs.entry_name.
  destruct (strip_prefix _ _) as [r|] eqn:Hr; [|reflexivity].
  apply strip_prefix_Some in Hr.
  assert (Hsep : r = "" \/ Fs.has_sep r = true).
  { apply prefix_cases in Hr as [(x & Hx & ->) | (x & Hx & Hn)].
    - destruct x as [|u x]; [rewrite append_nil_r in Hx; congruence|].
      right. rewrite has_sep_app.
      assert (He : endswith_char (String u x) sep = true).
      { rewrite <- (endswith_char_append (Fs.dir_prefix folder)) by discriminate.
        rewrite <- Hx. now apply dir_prefix_ends. }
      now rewrite (endswith_has_sep _ He).
    - exfalso. destruct x as [|u x]; [rewrite append_nil_r in Hx; congruence|].
      assert (Hf : folder <> "").
      { intros ->. change (Fs.dir_prefix "") with "" in Hx.
        symmetry in Hx. destruct (Fs.dir_prefix d); discriminate. }
      assert (He : endswith_char (String u x) sep = true).
      { rewrite <- (endswith_char_append (Fs.dir_prefix d)) by discriminate.
        rewrite <- Hx. now apply dir_prefix_ends. }
      apply endswith_has_sep in He.
      rewrite Hn, has_sep_app, He in Hname. discriminate. }
  destruct Hsep as [-> | Hs]; [reflexivity|].
  destruct r; [reflexivity | now rewrite Hs].
Qed.

Lemma image_extension_no_sep (ext : string) :
  In ext image_extensions -> Fs.has_sep ext = false.
Proof.
  intros H. cbn [image_extensions In] in H.
  repeat (destruct H as [<- | H]; [reflexivity|]). destruct H.
Qed.

Lemma decimal_no_sep (s : string) :
  forallb_str is_decimal s = true -> Fs.has_sep s = false.
Proof.
  induction s as [|c s IH]; cbn [forallb_str Fs.has_sep]; [reflexivity|].
  intros H. apply andb_true_iff in H as [Hc Hs]. rewrite (IH Hs).
  destruct (Ascii.eqb_spec c sep) as [->|]; [discriminate | reflexivity].
Qed.

Lemma numbered_no_sep (i : nat) (ext : string) :
  In ext image_extensions -> Fs.has_sep (fmt03d i ++ ext) = false.
Proof.
  intros H. rewrite has_sep_app, decimal_no_sep by apply fmt03d_decimal.
  now apply image_extension_no_sep.
Qed.

Lemma join_numbered (d : string) (i : nat) (ext : string) :
  join d (fmt03d i ++ ext) = Fs.dir_prefix d ++ fmt03d i ++ ext.
Proof. apply join_relative, decimal_head_not_sep, numbered_head. Qed.

Lemma combine_snoc {A B : Type} (a : list A) (b : list B) (x : A) (y : B) :
  length a = length b ->
  combine (a ++ [x]) (b ++ [y]) = (combine a b ++ [(x, y)])%list.
Proof.
  revert b. induction a as [|u a IH]; intros [|v b] H; try discriminate H.
  - reflexivity.
  - cbn [app combine]. injection H as H. now rewrite IH.
Qed.

Lemma shelf_snoc (d : string) (fs : Fs.t) (l : list (string * string))
    (x : string * string) :
  shelf d fs (l ++ [x])
  = (shelf d fs l ++ [staged_copy d fs (S (length l), x)])%list.
Proof.
  unfold shelf. rewrite length_app. cbn [length].
  rewrite Nat.add_1_r, seq_S, combine_snoc by apply length_seq.
  now rewrite map_app.
Qed.

(** The entry of a directory is bound in the file system. *)
Lemma entry_is_bound (folder name : string) (fs : Fs.t) :
  In name (Fs.entries folder fs) -> Fs.lookup (join folder name) fs <> None.
Proof.
  intros H. apply in_filter_map in H as ([p n] & Hin & He).
  cbn [fst] in He. unfold Fs.entry_name in He.
  destruct (strip_prefix _ p) as [r|] eqn:Hr; [|discriminate].
  apply strip_prefix_Some in Hr.
  destruct r as [|c r]; [discriminate|].
  destruct (Fs.has_sep (String c r)) eqn:Hs; [discriminate|].
  injection He as <-.
  rewrite join_relative by now apply no_sep_head.
  rewrite <- Hr. now apply in_lookup with n.
Qed.

Lemma wp_copy2_exact {R : Type} (E : env) (src dst : string) (c : Fs.content)
    (N : unit -> world -> Prop) (Rt : R -> world -> Prop)
    (Ex : exn -> world -> Prop) (w : world) :
  copy_fault E src dst = None ->
  Fs.lookup src (files w) = Some (Fs.File c) ->
  Fs.lookup dst (files w) = None ->
  N tt {| files := (files w ++ [(dst, Fs.File c)])%list; log := log w |} ->
  wp (Os.copy2 E src dst) N Rt Ex w.
Proof.
  intros Hf Hsrc Hdst HN. destruct w as [fs lg]. cbn [files log] in *.
  unfold wp, Os.copy2, bind, get_files, put_files, raise, ret; simpl.
  rewrite Hf, Hsrc. unfold Fs.isdir. rewrite Hdst.
  destruct (String.eqb_spec src dst) as [->|Hne]; simpl; [congruence|].
  now rewrite write_fresh by exact Hdst.
Qed.

Lemma wp_get_image_files_eq {R : Type} (E : env) (folder : string)
    (N : list (string * string) -> world -> Prop) (Rt : R -> world -> Prop)
    (Ex : exn -> world -> Prop) (w : world) :
  N (pages_of E (files w) folder)
    (if readable E folder (files w) then w
     else {| files := files w;
             log := (log w ++ [EvReadError folder])%list |}) ->
  wp (get_image_files E folder) N Rt Ex w.
Proof.
  unfold wp, pages_of. rewrite get_image_files_eq.
  now destruct (readable E folder (files w)).
Qed.

Section Loop.
Variables (E : env) (d : string) (w0 : world).
Hypothesis quiet : forall src dst, copy_fault E src dst = None.
Hypothesis named : d <> "".
Hypothesis empty : forall q, inside d q = true -> Fs.lookup q (files w0) = None.

Let ext_ok (x : string * string) : Prop :=
  is_image_extension (snd (splitext (lower (fst x)))) = true.

Let src_ok (x : string * string) : Prop :=
  Fs.isfile (snd x) (files w0) = true.

Lemma shelf_files (l : list (string * string)) (p : string) (n : Fs.node) :
  Forall ext_ok l -> In (p, n) (shelf d (files w0) l) ->
  exists i ext c,
    1 <= i <= length l /\ In ext image_extensions
    /\ p = Fs.dir_prefix d ++ fmt03d i ++ ext /\ n = Fs.File c.
Proof.
  intros Hl Hin. unfold shelf in Hin.
  apply in_map_iff in Hin as ([i x] & Hx & Hin).
  pose proof (in_combine_l _ _ _ _ Hin) as Hi. apply in_seq in Hi.
  pose proof (in_combine_r _ _ _ _ Hin) as Hxl.
  rewrite Forall_forall in Hl. specialize (Hl x Hxl).
  apply is_image_extension_in in Hl.
  unfold staged_copy in Hx. cbn [fst snd] in Hx. injection Hx as <- <-.
  exists i, (snd (splitext (lower (fst x)))), (content_of (files w0) (snd x)).
  split; [lia|]. split; [exact Hl|]. split; [apply join_numbered | reflexivity].
Qed.

Lemma shelf_fresh (l : list (string * string)) (ext : string) :
  Forall ext_ok l -> In ext image_extensions ->
  Fs.lookup (join d (fmt03d (S (length l)) ++ ext))
    (files w0 ++ shelf d (files w0) l)%list = None.
Proof.
  intros Hl Hext. rewrite lookup_app, empty
    by (apply staged_inside, staged_page_path).
  destruct (Fs.lookup _ (shelf d (files w0) l)) as [n|] eqn:Hq; [|reflexivity].
  exfalso. apply lookup_in, (shelf_files l _ _ Hl) in Hq
    as (i & ext' & c & Hi & Hext' & Hp & _).
  rewrite join_numbered in Hp. apply append_inv_head in Hp.
  apply numbered_name_inj in Hp; [lia | exact Hext | exact Hext'].
Qed.

Lemma shelf_below (l : list (string * string)) (p : string) (n : Fs.node) :
  In (p, n) (shelf d (files w0) l) -> Fs.below d p = true.
Proof.
  intros Hin. unfold shelf in Hin.
  apply in_map_iff in Hin as ([i x] & Hx & _).
  unfold staged_copy in Hx. cbn [fst snd] in Hx. injection Hx as <- _.
  rewrite join_numbered. unfold Fs.below, startswith.
  now rewrite strip_prefix_app.
Qed.

Lemma shelf_fresh_only (l : list (string * string)) (ext : string) :
  Forall ext_ok l -> In ext image_extensions ->
  Fs.lookup (join d (fmt03d (S (length l)) ++ ext)) (shelf d (files w0) l)
  = None.
Proof.
  intros Hl Hext.
  destruct (Fs.lookup _ (shelf d (files w0) l)) as [n|] eqn:Hq; [|reflexivity].
  exfalso. apply lookup_in, (shelf_files l _ _ Hl) in Hq
    as (i & ext' & c & Hi & Hext' & Hp & _).
  rewrite join_numbered in Hp. apply append_inv_head in Hp.
  apply numbered_name_inj in Hp; [lia | exact Hext | exact Hext'].
Qed.

(** Each copy is found under its path. *)
Lemma shelf_consistent (l : list (string * string)) (p : string) (n : Fs.node) :
  Forall ext_ok l -> In (p, n) (shelf d (files w0) l) ->
  Fs.lookup p (shelf d (files w0) l) = Some n.
Proof.
  revert p n. induction l as [|x l IH] using rev_ind; intros p n Hl Hin;
    [destruct Hin|].
  apply Forall_app in Hl as [Hl Hx]. inversion_clear Hx as [|? ? Hx' _].
  rewrite shelf_snoc in *. rewrite lookup_app.
  apply in_app_iff in Hin as [Hin | [Hin | []]].
  - now rewrite (IH p n Hl Hin).
  - unfold staged_copy in Hin. cbn [fst snd] in Hin. injection Hin as <- <-.
    rewrite shelf_fresh_only by (auto; now apply is_image_extension_in).
    unfold staged_copy. cbn [fst snd Fs.lookup]. now rewrite String.eqb_refl.
Qed.

Lemma isdir_shelf (l : list (string * string)) (p : string) :
  Forall ext_ok l ->
  Fs.isdir p (files w0 ++ shelf d (files w0) l)%list = Fs.isdir p (files w0).
Proof.
  intros Hl. unfold Fs.isdir. rewrite lookup_app.
  destruct (Fs.lookup p (files w0)); [reflexivity|].
  destruct (Fs.lookup p (shelf d (files w0) l)) as [n|] eqn:Hq; [|reflexivity].
  apply lookup_in, (shelf_files l _ _ Hl) in Hq as (i & ext & c & _ & _ & _ & ->).
  reflexivity.
Qed.

Lemma entries_shelf (l : list (string * string)) (folder : string) :
  Forall ext_ok l -> Fs.dir_prefix folder <> Fs.dir_prefix d ->
  Fs.entries folder (files w0 ++ shelf d (files w0) l)%list
  = Fs.entries folder (files w0).
Proof.
  intros Hl Hne. unfold Fs.entries. rewrite filter_map_app.
  rewrite (proj2 (filter_map_nil_iff _ (shelf d (files w0) l)));
    [apply List.app_nil_r|].
  intros [p n] Hin. cbn [fst].
  apply (shelf_files l _ _ Hl) in Hin as (i & ext & c & _ & Hext & -> & _).
  apply entry_name_elsewhere; [exact named | exact Hne|].
  now apply numbered_no_sep.
Qed.

Lemma pages_of_shelf (l : list (string * string)) (folder : string) :
  Forall ext_ok l -> Fs.dir_prefix folder <> Fs.dir_prefix d ->
  pages_of E (files w0 ++ shelf d (files w0) l)%list folder
  = pages_of E (files w0) folder
  /\ readable E folder (files w0 ++ shelf d (files w0) l)%list
     = readable E folder (files w0).
Proof.
  intros Hl Hne.
  assert (Hr : readable E folder (files w0 ++ shelf d (files w0) l)%list
               = readable E folder (files w0))
    by (unfold readable; now rewrite isdir_shelf).
  split; [|exact Hr]. unfold pages_of. rewrite Hr.
  destruct (readable E folder (files w0)); [|reflexivity]. f_equal.
  unfold listed_pages. rewrite entries_shelf by assumption. f_equal.
  apply filter_ext_in. intros name Hin. unfold page_ok, Fs.isfile.
  rewrite lookup_app. pose proof (entry_is_bound _ _ _ Hin) as Hb.
  now destruct (Fs.lookup (join folder name) (files w0)).
Qed.

Lemma pages_ok (folder : string) :
  Forall (fun x => ext_ok x /\ src_ok x) (pages_of E (files w0) folder).
Proof.
  unfold pages_of. destruct (readable E folder (files w0)); [|constructor].
  apply Forall_forall. intros [name p] Hin.
  apply in_sort_by, in_listed_pages in Hin as (_ & Hok & ->).
  unfold page_ok in Hok. apply andb_true_iff in Hok as [Hf Hx].
  split; [|exact Hf]. unfold ext_ok. cbn [fst].
  rewrite splitext_lower. exact Hx.
Qed.

Lemma at_plan_start :
  at_plan d w0 [] {| page_counter := 1; total_pages := 0 |} w0.
Proof.
  split; [reflexivity|]. split; [now rewrite List.app_nil_r|].
  exists []. rewrite List.app_nil_r. repeat split. constructor.
Qed.

Lemma at_plan_note (l : list (string * string)) (st : counters) (w : world)
    (evs : list event) :
  at_plan d w0 l st w -> Forall no_failure evs -> placed_originals evs = [] ->
  at_plan d w0 l st {| files := files w; log := (log w ++ evs)%list |}.
Proof.
  intros (Hst & Hfs & evs0 & Hl & Hp & Hf) Hevs Hno.
  split; [exact Hst|]. split; [exact Hfs|]. exists (evs0 ++ evs)%list.
  cbn [log]. split; [now rewrite Hl, List.app_assoc|].
  split; [|now apply Forall_app].
  unfold placed_originals in *. now rewrite filter_map_app, Hp, Hno, List.app_nil_r.
Qed.

Let Never (x : exn) (w : world) : Prop := False.

Let Go (b : bool) (w : world) : Prop := False.

Lemma wp_copy_page_plan (l : list (string * string)) (st : counters)
    (x : string * string) (w : world) :
  at_plan d w0 l st w -> Forall ext_ok l -> ext_ok x -> src_ok x ->
  wp (copy_page E d st x) (at_plan d w0 (l ++ [x])%list) Go Never w.
Proof.
  intros (-> & Hfs & evs & Hl & Hp & Hf) Hok Hx Hs.
  unfold src_ok, Fs.isfile in Hs.
  destruct (Fs.lookup (snd x) (files w0)) as [[c|]|] eqn:Hsrc; try discriminate.
  unfold copy_page. cbn [page_counter].
  apply wp_try, wp_bind, (wp_copy2_exact E _ _ c).
  - apply quiet.
  - rewrite Hfs, lookup_app. now rewrite Hsrc.
  - rewrite Hfs. apply shelf_fresh; [exact Hok|].
    now apply is_image_extension_in.
  - apply wp_bind, wp_print, wp_ret. cbn [files log].
    split; [|split].
    + unfold advance. cbn [page_counter total_pages].
      rewrite length_app. cbn [length]. now rewrite !Nat.add_1_r.
    + cbn [files]. rewrite Hfs, shelf_snoc, <- List.app_assoc.
      unfold staged_copy, content_of. cbn [fst snd]. now rewrite Hsrc.
    + eexists. cbn [log]. split; [rewrite Hl, <- List.app_assoc; reflexivity|].
      split.
      * unfold placed_originals in *. rewrite filter_map_app, Hp, map_app.
        reflexivity.
      * apply Forall_app. split; [exact Hf | repeat constructor].
Qed.

Lemma wp_process_chapter_plan (l : list (string * string)) (st : counters)
    (chapter : Z * string) (w : world) :
  at_plan d w0 l st w -> Forall ext_ok l ->
  Fs.dir_prefix (snd chapter) <> Fs.dir_prefix d ->
  wp (process_chapter E d st chapter)
     (at_plan d w0 (l ++ pages_of E (files w0) (snd chapter))%list) Go Never w.
Proof.
  intros Hat Hok Hne. unfold process_chapter.
  pose proof Hat as (_ & Hfs & _).
  destruct (pages_of_shelf l (snd chapter) Hok Hne) as [Hpages Hread].
  rewrite <- Hfs in Hpages, Hread.
  apply wp_bind, wp_get_image_files_eq. rewrite Hpages, Hread.
  pose proof (pages_ok (snd chapter)) as Hpok.
  set (w1 := if readable E (snd chapter) (files w0) then w
             else {| files := files w;
                     log := (log w ++ [EvReadError (snd chapter)])%list |}).
  assert (Hat1 : at_plan d w0 l st w1).
  { unfold w1. destruct (readable E (snd chapter) (files w0)); [exact Hat|].
    apply at_plan_note; [exact Hat | repeat constructor | reflexivity]. }
  clearbody w1.
  destruct (pages_of E (files w0) (snd chapter)) as [|x pages] eqn:Hp.
  - apply wp_bind, wp_print, wp_ret. rewrite List.app_nil_r.
    apply at_plan_note; [exact Hat1 | repeat constructor | reflexivity].
  - eapply wp_mono;
      [apply (wp_for_each_prefix (copy_page E d) (x :: pages)
                (fun pre st' w' => at_plan d w0 (l ++ pre)%list st' w') Go Never)
      | auto | auto | auto].
    + intros pre y post st' w' Hsplit Hat'. rewrite List.app_assoc.
      rewrite Forall_forall in Hpok.
      assert (Hin : forall z, In z (pre ++ [y])%list -> In z (x :: pages)).
      { intros z Hz. rewrite Hsplit. apply in_app_iff in Hz as [Hz|[<-|[]]];
          apply in_app_iff; [now left | right; now left]. }
      apply wp_copy_page_plan; [exact Hat' | | |].
      * apply Forall_app. split; [exact Hok|]. apply Forall_forall.
        intros z Hz. apply Hpok, Hin, in_app_iff. now left.
      * apply Hpok, Hin, in_app_iff. right. now left.
      * apply Hpok, Hin, in_app_iff. right. now left.
    + now rewrite List.app_nil_r.
Qed.

Section Cover.
Variable cover : option string.
Hypothesis cover_ok :
  forall c, given cover = Some c ->
            Fs.isfile c (files w0) = true
            /\ is_image_extension (snd (splitext (lower c))) = true.

Let cover_part : list (string * string) :=
  match given cover with Some c => [(c, c)] | None => [] end.

Lemma cover_part_ok : Forall ext_ok cover_part.
Proof.
  unfold cover_part. destruct (given cover) as [c|]; [|constructor].
  constructor; [|constructor]. now apply cover_ok.
Qed.

Lemma wp_place_cover_plan :
  wp (place_cover E d cover {| page_counter := 1; total_pages := 0 |})
     (at_plan d w0 cover_part) Go Never w0.
Proof.
  unfold place_cover, cover_part.
  destruct (given cover) as [c|] eqn:Hg; [|apply wp_ret, at_plan_start].
  destruct (cover_ok c eq_refl) as [Hf Hx].
  unfold Fs.isfile in Hf.
  destruct (Fs.lookup c (files w0)) as [[c0|]|] eqn:Hsrc; try discriminate.
  cbn [page_counter].
  apply wp_try, wp_bind, (wp_copy2_exact E _ _ c0).
  - apply quiet.
  - exact Hsrc.
  - pose proof (shelf_fresh [] _ (Forall_nil _)
                  (proj1 (is_image_extension_in _) Hx)) as H.
    cbn [shelf length seq combine map] in H. unfold shelf in H.
    cbn [length seq combine map] in H. now rewrite List.app_nil_r in H.
  - apply wp_bind, wp_print, wp_ret. cbn [files log].
    split; [reflexivity|]. split.
    + unfold shelf, staged_copy, content_of. cbn [length seq combine map fst snd].
      now rewrite Hsrc.
    + eexists. split; [reflexivity|]. split; [reflexivity | repeat constructor].
Qed.

Lemma plan_ok (chapters : list (Z * string)) :
  Forall ext_ok
    (cover_part
     ++ concat (map (fun ch => pages_of E (files w0) (snd ch)) chapters))%list.
Proof.
  apply Forall_app. split; [apply cover_part_ok|].
  apply Forall_concat, Forall_map, Forall_forall. intros ch _.
  eapply Forall_impl; [|apply pages_ok]. now intros x [Hx _].
Qed.

(** Lines 127-175 without a failing copy. *)
Lemma wp_place_pages_plan (chapters : list (Z * string)) :
  Forall (fun ch => Fs.dir_prefix (snd ch) <> Fs.dir_prefix d) chapters ->
  wp (place_pages E d cover chapters)
     (at_plan d w0 (plan E (files w0) cover chapters)) Go Never w0.
Proof.
  intros Hch. unfold place_pages, plan. fold cover_part. apply wp_bind.
  eapply wp_mono; [apply wp_place_cover_plan | | auto | auto].
  intros st w Hat.
  eapply wp_mono;
    [apply (wp_for_each_prefix (process_chapter E d) chapters
              (fun pre st' w' =>
                 at_plan d w0
                   (cover_part
                    ++ concat (map (fun ch => pages_of E (files w0) (snd ch))
                                   pre))%list st' w') Go Never)
    | auto | auto | auto].
  - intros pre ch post st' w' Hsplit Hat'.
    rewrite map_app, concat_app. cbn [map concat].
    rewrite List.app_nil_r, List.app_assoc.
    apply wp_process_chapter_plan; [exact Hat' | apply plan_ok |].
    rewrite Forall_forall in Hch. apply Hch. rewrite Hsplit.
    apply in_app_iff. right. now left.
  - cbn [map concat]. now rewrite List.app_nil_r.
Qed.

End Cover.
End Loop.

Lemma empty_check (d : string) (fs : Fs.t) :
  forallb (fun kv => negb (inside d (fst kv))) fs = true ->
  forall q, inside d q = true -> Fs.lookup q fs = None.
Proof.
  intros H q Hq. destruct (Fs.lookup q fs) as [n|] eqn:Hl; [|reflexivity].
  apply lookup_in in Hl. rewrite forallb_forall in H.
  specialize (H _ Hl). cbn [fst] in H. now rewrite Hq in H.
Qed.

(** X7.  The page loop of [merge_chapters] (lines 127-175) when no copy
    fails.  Started on an empty staging directory, with the cover, if
    one is given, a regular file with an image extension, and with no
    chapter folder being the staging directory itself, the loop copies
    the files of the plan in their order: the cover, then for each
    chapter in the order given the pages [get_image_files] returns for it
    as the folder was before the loop.  The i-th file of the plan becomes
    the new last entry of the file system, at the staging path named by i
    in three digits and its extension in lower case, holding what the
    original holds; nothing else changes, both counters count the plan,
    and the loop neither returns early nor raises. *)
Theorem page_loop_follows_the_plan (E : env) (d : string)
    (cover : option string) (chapters : list (Z * string)) (w : world) :
  (forall src dst, copy_fault E src dst = None) ->
  d <> "" ->
  (forall q, inside d q = true -> Fs.lookup q (files w) = None) ->
  Forall (fun ch => Fs.dir_prefix (snd ch) <> Fs.dir_prefix d) chapters ->
  (forall c, given cover = Some c ->
             Fs.isfile c (files w) = true
             /\ is_image_extension (snd (splitext (lower c))) = true) ->
  exists evs,
    place_pages E d cover chapters w
    = (Normal {| page_counter := S (length (plan E (files w) cover chapters));
                 total_pages := length (plan E (files w) cover chapters) |},
       {| files := (files w
                    ++ shelf d (files w) (plan E (files w) cover chapters))%list;
          log := (log w ++ evs)%list |})
    /\ placed_originals evs = map fst (plan E (files w) cover chapters)
    /\ Forall no_failure evs.
Proof.
  intros Hq Hd He Hch Hc.
  pose proof (wp_place_pages_plan E d w Hq Hd He cover Hc chapters Hch) as H.
  unfold wp in H.
  destruct (place_pages E d cover chapters w) as [[st|b|x] [fs lg]];
    [|destruct H | destruct H].
  destruct H as (-> & Hfs & evs & Hl & Hp & Hf). cbn [files log] in *.
  exists evs. subst fs lg. auto.
Qed.

Lemma page_loop_follows_the_plan_witness :
  exists evs,
    place_pages Samples.calm "/m/vol" (Some "/c.jpg")
      [(2%Z, "/m/Chapter 2"); (10%Z, "/m/Chapter 10")]
      (Samples.start Samples.library)
    = (Normal {| page_counter := 6; total_pages := 5 |},
       {| files :=
            (Samples.library
             ++ [("/m/vol/001.jpg", Fs.File (Fs.Bytes "cover"));
                 ("/m/vol/002.jpg", Fs.File (Fs.Bytes "a"));
                 ("/m/vol/003.png", Fs.File (Fs.Bytes "b"));
                 ("/m/vol/004.jpg", Fs.File (Fs.Bytes "c"));
                 ("/m/vol/005.jpg", Fs.File (Fs.Bytes "d"))])%list;
          log := ([] ++ evs)%list |})
    /\ placed_originals evs = ["/c.jpg"; "p1.jpg"; "p2.PNG"; "9.jpg"; "10.jpg"]
    /\ Forall no_failure evs.
Proof.
  apply (page_loop_follows_the_plan Samples.calm "/m/vol" (Some "/c.jpg")
           [(2%Z, "/m/Chapter 2"); (10%Z, "/m/Chapter 10")]
           (Samples.start Samples.library)).
  - reflexivity.
  - discriminate.
  - apply empty_check. reflexivity.
  - repeat constructor; intros H; vm_compute in H; discriminate H.
  - intros c H. injection H as <-. split; reflexivity.
Defined.

End PageLoop.

(** ** The archive step without failures *)

Module ArchiveContents.
Import PyStr OsPath Run VolumeMaker Spec Volume.
Import StrFacts ListFacts FsFacts PathFacts RunFacts Placing Archive Shelf.

Lemma walk_files_write_outside (d p : string) (n : Fs.node) (fs : Fs.t) :
  Fs.below d p = false ->
  Fs.walk_files d (Fs.write p n fs) = Fs.walk_files d fs.
Proof.
  intros Hp.
  assert (Hs : strip_prefix (Fs.dir_prefix d) p = None).
  { unfold Fs.below, startswith in Hp.
    destruct (strip_prefix _ p); [discriminate | reflexivity]. }
  unfold Fs.walk_files.
  induction fs as [|[q m] fs IH]; cbn [Fs.write Fs.filter_map fst snd].
  - rewrite Hs. now destruct n.
  - destruct (String.eqb_spec q p) as [->|Hq]; cbn [Fs.filter_map fst snd].
    + rewrite Hs. now destruct n, m.
    + now rewrite IH.
Qed.

Lemma walked_is_below (d : string) (fs : Fs.t) (x : string * string) :
  In x (Fs.walk_files d fs) -> Fs.below d (fst x) = true.
Proof.
  intros H. apply in_filter_map in H as ([p n] & _ & Hx). cbn [fst snd] in Hx.
  destruct n as [c|]; [|discriminate].
  destruct (strip_prefix (Fs.dir_prefix d) p) as [[|u r]|] eqn:Hs;
    try discriminate.
  injection Hx as <-. cbn [fst]. unfold Fs.below, startswith. now rewrite Hs.
Qed.

Section Exact.
Variables (E : env) (d f cbz : string) (st : counters).
Variables (fs : Fs.t) (lg : list event).
Hypothesis no_fault : archive_fault E = NoFault.
Hypothesis staging_is_dir : Fs.lookup d fs = Some Fs.Dir.
Hypothesis cbz_not_dir : Fs.isdir cbz fs = false.
Hypothesis cbz_outside : Fs.below d cbz = false.
Hypothesis cbz_not_staging : cbz <> d.
Hypothesis walked_are_files :
  Forall (fun pr => Fs.isfile (fst pr) fs = true) (Fs.walk_files d fs).

Let walk : list (string * string) := Fs.walk_files d fs.

Let archive (ms : list (string * Fs.content)) : Fs.t :=
  Fs.write cbz (Fs.File (Fs.Cbz ms)) fs.

Let opened (names : list string) : list event :=
  (lg ++ EvCreatingCbz f :: map EvAdded names)%list.

Let Never (x : exn) (w : world) : Prop := False.

Let Go (b : bool) (w : world) : Prop := False.

Lemma wp_add_member_exact (i : nat) (x : string * string)
    (pre : list (string * string)) :
  In x walk ->
  wp (add_member E cbz i x)
     (fun _ w' => w' = {| files := archive (archived fs (pre ++ [x]));
                          log := opened (map snd (pre ++ [x])) |})
     Go Never
     {| files := archive (archived fs pre); log := opened (map snd pre) |}.
Proof.
  intros Hin. unfold add_member, Os.zip_write.
  apply wp_bind, wp_bind, wp_get_files. cbn [files].
  apply wp_bind. rewrite no_fault. apply wp_ret.
  assert (Hc : Fs.lookup cbz (archive (archived fs pre))
               = Some (Fs.File (Fs.Cbz (archived fs pre)))).
  { unfold archive. rewrite lookup_write. now rewrite String.eqb_refl. }
  assert (Hx : Fs.lookup (fst x) (archive (archived fs pre))
               = Some (Fs.File (content_of fs (fst x)))).
  { unfold archive. rewrite lookup_write.
    destruct (String.eqb_spec (fst x) cbz) as [He|_].
    - apply walked_is_below in Hin. rewrite He in Hin. congruence.
    - unfold walk in Hin. rewrite Forall_forall in walked_are_files.
      specialize (walked_are_files x Hin). unfold Fs.isfile, content_of in *.
      now destruct (Fs.lookup (fst x) fs) as [[c|]|]. }
  rewrite Hc, Hx. apply wp_put_files. cbn [log].
  apply wp_bind, wp_print, wp_ret. cbn [files log].
  unfold archive at 1. rewrite write_write. unfold opened, archived.
  now rewrite !map_app, <- List.app_assoc.
Qed.

Lemma wp_create_cbz_exact :
  wp (create_cbz E d f cbz st)
     (fun b w' =>
        b = true
        /\ w' = {| files := Fs.remove_tree d (archive (archived fs walk));
                   log := (opened (map snd walk)
                           ++ [EvSuccess (total_pages st); EvCleanup])%list |})
     Go Never {| files := fs; log := lg |}.
Proof.
  unfold create_cbz. apply wp_bind, wp_print. cbn [files log].
  apply wp_try.
  eapply wp_mono
    with (N := fun b w' =>
                 b = true
                 /\ w' = {| files := Fs.remove_tree d (archive (archived fs walk));
                            log := (opened (map snd walk)
                                    ++ [EvSuccess (total_pages st);
                                        EvCleanup])%list |})
         (Rt := Go) (Ex := Never);
    [|auto|auto|intros ? ? []].
  apply wp_bind. unfold Os.zip_open. apply wp_bind, wp_get_files.
  cbn [files]. rewrite no_fault, cbz_not_dir. apply wp_put_files. cbn [log].
  apply wp_bind, wp_get_files. cbn [files].
  rewrite walk_files_write_outside by exact cbz_outside. fold walk.
  apply wp_bind.
  eapply wp_mono;
    [apply (wp_for_each_prefix (add_member E cbz) walk
              (fun pre _ w' =>
                 w' = {| files := archive (archived fs pre);
                         log := opened (map snd pre) |}) Go Never)
    | | auto | auto].
  - intros pre x post i w' Hw ->. apply wp_add_member_exact.
    rewrite Hw. apply in_app_iff. right. now left.
  - reflexivity.
  - intros i w' ->.
    apply wp_bind, wp_print, wp_bind, wp_print. cbn [files log].
    unfold Os.rmtree. apply wp_bind, wp_bind, wp_get_files. cbn [files].
    assert (Hd : Fs.lookup d (archive (archived fs walk)) = Some Fs.Dir).
    { unfold archive. rewrite lookup_write.
      apply not_eq_sym, String.eqb_neq in cbz_not_staging.
      now rewrite cbz_not_staging. }
    rewrite Hd. apply wp_put_files, wp_ret. cbn [log].
    split; [reflexivity|]. now rewrite <- !List.app_assoc.
Qed.

End Exact.

(** X9.  The archive step of [merge_chapters] (lines 176-202) when
    nothing fails.  With the staging directory in place, the archive path
    outside it and not a directory, and every file [os.walk] meets a
    regular file, the step returns True; the archive then holds one
    member for each file inside the staging directory, in the order of
    the walk, under its path relative to the directory and with the bytes
    of the file; the staging directory and all below it are removed; and
    the lines printed are the announcement, one line for each member, the
    success with the page count, and the clean-up. *)
Theorem archive_holds_the_staged_files (E : env) (d f cbz : string)
    (st : counters) (w : world) :
  archive_fault E = NoFault ->
  Fs.lookup d (files w) = Some Fs.Dir ->
  Fs.isdir cbz (files w) = false ->
  Fs.below d cbz = false ->
  cbz <> d ->
  Forall (fun pr => Fs.isfile (fst pr) (files w) = true)
         (Fs.walk_files d (files w)) ->
  create_cbz E d f cbz st w
  = (Normal true,
     {| files :=
          Fs.remove_tree d
            (Fs.write cbz
               (Fs.File (Fs.Cbz (archived (files w) (Fs.walk_files d (files w)))))
               (files w));
        log := (log w
                ++ EvCreatingCbz f
                   :: map EvAdded (map snd (Fs.walk_files d (files w)))
                ++ [EvSuccess (total_pages st); EvCleanup])%list |}).
Proof.
  intros H1 H2 H3 H4 H5 H6. destruct w as [fs lg]. cbn [files log] in *.
  pose proof (wp_create_cbz_exact E d f cbz st fs lg H1 H2 H3 H4 H5 H6) as H.
  unfold wp in H.
  destruct (create_cbz E d f cbz st {| files := fs; log := lg |})
    as [[b|b|x] w']; [|destruct H | destruct H].
  destruct H as [-> ->]. now rewrite <- List.app_assoc.
Qed.

Lemma archive_holds_the_staged_files_witness :
  create_cbz Samples.calm "/m/vol" "vol.cbz" "/m/vol.cbz"
    {| page_counter := 3; total_pages := 2 |}
    (Samples.start Samples.library_with_leftovers)
  = (Normal true,
     {| files :=
          (Samples.library
           ++ [("/m/vol.cbz",
                Fs.File (Fs.Cbz [("001.jpg", Fs.Bytes "old");
                                 ("keep/me.txt", Fs.Bytes "mine")]))])%list;
        log := [EvCreatingCbz "vol.cbz"; EvAdded "001.jpg";
                EvAdded "keep/me.txt"; EvSuccess 2; EvCleanup] |}).
Proof.
  apply (archive_holds_the_staged_files Samples.calm "/m/vol" "vol.cbz"
           "/m/vol.cbz" {| page_counter := 3; total_pages := 2 |}
           (Samples.start Samples.library_with_leftovers));
    try reflexivity.
  - discriminate.
  - repeat constructor.
Defined.

End ArchiveContents.

(** ** From the plan to the volume *)

Module VolumeFromPlan.
Import PyStr OsPath Run VolumeMaker Spec Volume.
Import StrFacts ListFacts FsFacts PathFacts RunFacts Enumerator Placing PlacePages.
Import WholeRun Digits NumberedNames Shelf PageLoop ArchiveContents.

Lemma walk_copies (d : string) (fs : Fs.t) (c : list (nat * (string * string))) :
  Fs.walk_files d (map (staged_copy d fs) c)
  = map (fun ix => (join d (fst (member_of fs ix)), fst (member_of fs ix))) c.
Proof.
  induction c as [|[i x] c IH]; [reflexivity|].
  cbn [map]. unfold Fs.walk_files in *. cbn [Fs.filter_map].
  rewrite IH. unfold staged_copy, member_of. cbn [fst snd].
  rewrite join_numbered, strip_prefix_app.
  pose proof (fmt03d_nonempty i) as Hne.
  destruct (fmt03d i ++ snd (splitext (lower (fst x)))) as [|u r] eqn:Hn;
    [|reflexivity].
  destruct (fmt03d i); [congruence | discriminate].
Qed.

Lemma filter_none {A : Type} (p : A -> bool) (l : list A) :
  (forall x, In x l -> p x = false) -> filter p l = [].
Proof.
  induction l as [|x l IH]; intros H; [reflexivity|]. cbn [filter].
  rewrite (H x (or_introl eq_refl)). apply IH. intros y Hy. apply H. now right.
Qed.

Lemma placed_originals_cbz (evs : list event) :
  Forall cbz_event evs -> placed_originals evs = [].
Proof.
  induction 1 as [|ev evs Hev _ IH]; [reflexivity|].
  unfold placed_originals in *. cbn [Fs.filter_map].
  destruct ev; simpl in Hev; try contradiction; exact IH.
Qed.

Section Run.
Variables (E : env) (d f cbz : string) (cover : option string).
Variables (chapters : list (Z * string)) (w : world).
Hypothesis quiet : forall src dst, copy_fault E src dst = None.
Hypothesis no_fault : archive_fault E = NoFault.
Hypothesis named : d <> "".
Hypothesis staging : Fs.lookup d (files w) = Some Fs.Dir.
Hypothesis empty : forall q, inside d q = true -> Fs.lookup q (files w) = None.
Hypothesis free : Fs.lookup cbz (files w) = None.
Hypothesis outside : Fs.below d cbz = false.
Hypothesis distinct : cbz <> d.
Hypothesis apart :
  Forall (fun ch => Fs.dir_prefix (snd ch) <> Fs.dir_prefix d) chapters.
Hypothesis cover_ok :
  forall c, given cover = Some c ->
            Fs.isfile c (files w) = true
            /\ is_image_extension (snd (splitext (lower c))) = true.

Let l : list (string * string) := plan E (files w) cover chapters.
Let sh : Fs.t := shelf d (files w) l.
Let numbered_plan : list (nat * (string * string)) :=
  combine (seq 1 (length l)) l.

Lemma plan_has_extensions :
  Forall (fun x => is_image_extension (snd (splitext (lower (fst x)))) = true) l.
Proof. exact (plan_ok E w cover cover_ok chapters). Qed.

Lemma copy_is_inside (ix : nat * (string * string)) :
  inside d (join d (fst (member_of (files w) ix))) = true.
Proof. apply staged_inside, staged_page_path. Qed.

Lemma copy_is_found (ix : nat * (string * string)) :
  In ix numbered_plan ->
  Fs.lookup (join d (fst (member_of (files w) ix))) (files w ++ sh)%list
  = Some (Fs.File (snd (member_of (files w) ix))).
Proof.
  intros Hin. rewrite lookup_app, empty by apply copy_is_inside.
  apply (shelf_consistent d w l); [apply plan_has_extensions|].
  unfold sh, shelf. apply in_map_iff. exists ix. split; [reflexivity|exact Hin].
Qed.

Lemma walk_of_shelf :
  Fs.walk_files d (files w ++ sh)%list
  = map (fun ix => (join d (fst (member_of (files w) ix)),
                    fst (member_of (files w) ix))) numbered_plan.
Proof.
  unfold Fs.walk_files. rewrite filter_map_app.
  fold (Fs.walk_files d (files w)). fold (Fs.walk_files d sh).
  rewrite (walk_files_nil d (files w) empty). cbn [app].
  apply walk_copies.
Qed.

Lemma archived_is_volume :
  archived (files w ++ sh)%list (Fs.walk_files d (files w ++ sh)%list)
  = volume (files w) l.
Proof.
  rewrite walk_of_shelf. unfold archived, volume. rewrite map_map.
  apply map_ext_in. intros ix Hin. cbn [fst snd].
  unfold content_of at 1. rewrite (copy_is_found ix Hin).
  now destruct (member_of (files w) ix).
Qed.

Lemma cbz_not_on_shelf : Fs.lookup cbz (files w ++ sh)%list = None.
Proof.
  rewrite lookup_app, free.
  destruct (Fs.lookup cbz sh) as [n|] eqn:Hq; [|reflexivity].
  apply lookup_in, (shelf_below d w l) in Hq. congruence.
Qed.

Lemma files_after (ms : list (string * Fs.content)) :
  Fs.remove_tree d (Fs.write cbz (Fs.File (Fs.Cbz ms)) (files w ++ sh)%list)
  = (Fs.remove_tree d (files w) ++ [(cbz, Fs.File (Fs.Cbz ms))])%list.
Proof.
  rewrite write_fresh by apply cbz_not_on_shelf.
  unfold Fs.remove_tree. rewrite !filter_app.
  rewrite (filter_none _ sh).
  - cbn [filter fst app]. rewrite outside.
    pose proof distinct as Hne. apply String.eqb_neq in Hne.
    rewrite Hne. cbn [negb andb]. now rewrite List.app_nil_r.
  - intros [p n] Hin. cbn [fst].
    apply (shelf_below d w l) in Hin. rewrite Hin. apply andb_false_r.
Qed.

Lemma volume_from_plan :
  exists evs,
    bind (place_pages E d cover chapters)
         (fun st => create_cbz E d f cbz st) w
    = (Normal true,
       {| files := (Fs.remove_tree d (files w)
                    ++ [(cbz, Fs.File (Fs.Cbz (volume (files w) l)))])%list;
          log := (log w ++ evs)%list |})
    /\ placed_originals evs = map fst l
    /\ In (EvSuccess (length l)) evs
    /\ Forall unprompted evs.
Proof.
  pose proof (wp_place_pages_plan E d w quiet named empty cover cover_ok
                chapters apart) as HA.
  unfold wp in HA. unfold bind.
  destruct (place_pages E d cover chapters w) as [[st|b|x] [fs1 lg1]];
    [|destruct HA | destruct HA].
  destruct HA as (-> & Hfs & evs & Hl & Hp & Hf). cbn [files log] in *.
  fold l in Hfs, Hp |- *. fold sh in Hfs. subst fs1 lg1.
  assert (HB : wp (create_cbz E d f cbz
                     {| page_counter := S (length l); total_pages := length l |})
                 (fun b w' =>
                    b = true
                    /\ w' = {| files :=
                                 Fs.remove_tree d
                                   (Fs.write cbz
                                      (Fs.File
                                         (Fs.Cbz
                                            (archived (files w ++ sh)%list
                                               (Fs.walk_files d
                                                  (files w ++ sh)%list))))
                                      (files w ++ sh)%list);
                               log :=
                                 (((log w ++ evs)
                                   ++ EvCreatingCbz f
                                      :: map EvAdded
                                           (map snd
                                              (Fs.walk_files d
                                                 (files w ++ sh)%list)))
                                  ++ [EvSuccess (length l); EvCleanup])%list |})
                 (fun _ _ => False) (fun _ _ => False)
                 {| files := (files w ++ sh)%list; log := (log w ++ evs)%list |}).
  { apply wp_create_cbz_exact; auto.
    - now rewrite lookup_app, staging.
    - unfold sh. rewrite (isdir_shelf d w l _ plan_has_extensions).
      unfold Fs.isdir. now rewrite free.
    - rewrite walk_of_shelf. apply Forall_forall. intros pr Hin.
      apply in_map_iff in Hin as (ix & <- & Hin). cbn [fst].
      unfold Fs.isfile. now rewrite (copy_is_found ix Hin). }
  unfold wp in HB.
  destruct (create_cbz E d f cbz _ _) as [[b|b|x] w']; [|destruct HB | destruct HB].
  destruct HB as [-> ->]. rewrite archived_is_volume, files_after.
  eexists. split; [rewrite <- !List.app_assoc; reflexivity|]. split.
  - unfold placed_originals in *. rewrite filter_map_app, Hp.
    fold (placed_originals
            ((EvCreatingCbz f
              :: map EvAdded (map snd (Fs.walk_files d (files w ++ sh)%list)))
             ++ [EvSuccess (length l); EvCleanup])).
    rewrite placed_originals_cbz; [apply List.app_nil_r|].
    apply Forall_app. split; [|repeat constructor].
    constructor; [exact I | apply cbz_event_added].
  - split; [apply in_app_iff; right; apply in_app_iff; right; now left|].
    apply Forall_app. split.
    + eapply Forall_impl; [|exact Hf]. intros ev. destruct ev; simpl; tauto.
    + apply Forall_app. split; [|repeat constructor].
      constructor; [exact I|]. apply Forall_forall. intros ev Hin.
      apply in_map_iff in Hin as (n & <- & _). exact I.
Qed.

End Run.
(** X11.  Lines 127-209 of [merge_chapters] when nothing fails.  From a
    world in which the staging directory is there and empty, the archive
    path is free and outside it, the cover, if given, is a regular file
    with an image extension, and no chapter folder is the staging
    directory, the page loop and the archive step return True and leave
    the entries of the file system as they were but for two things: the
    staging directory is gone, and there is one new entry, the archive.
    The archive has one member for each file of the plan: the member made
    from the i-th file is named by i in three digits and the extension of
    the file in lower case, and holds the bytes of the original.  The
    copies are made in the order of the plan, the success line reports
    the length of the plan, and nothing is asked.  The order of the
    members in the archive is the order in which [os.walk] meets the
    staged files, which the code does not determine; it is not stated,
    and neither is the place of the archive among the entries. *)
Theorem volume_is_built_from_the_plan (E : env) (d f cbz : string)
    (cover : option string) (chapters : list (Z * string)) (w : world) :
  (forall src dst, copy_fault E src dst = None) ->
  archive_fault E = NoFault ->
  d <> "" ->
  Fs.lookup d (files w) = Some Fs.Dir ->
  (forall q, inside d q = true -> Fs.lookup q (files w) = None) ->
  Fs.lookup cbz (files w) = None ->
  Fs.below d cbz = false ->
  cbz <> d ->
  Forall (fun ch => Fs.dir_prefix (snd ch) <> Fs.dir_prefix d) chapters ->
  (forall c, given cover = Some c ->
             Fs.isfile c (files w) = true
             /\ is_image_extension (snd (splitext (lower c))) = true) ->
  exists ms evs w',
    bind (place_pages E d cover chapters)
         (fun st => create_cbz E d f cbz st) w
    = (Normal true, w')
    /\ Permutation ms (volume (files w) (plan E (files w) cover chapters))
    /\ Permutation (files w')
         (Fs.remove_tree d (files w) ++ [(cbz, Fs.File (Fs.Cbz ms))])%list
    /\ log w' = (log w ++ evs)%list
    /\ placed_originals evs = map fst (plan E (files w) cover chapters)
    /\ In (EvSuccess (length (plan E (files w) cover chapters))) evs
    /\ Forall unprompted evs.
Proof.
  intros Hq Hf Hn Hd He Hfree Hout Hne Hap Hc.
  destruct (volume_from_plan E d f cbz cover chapters w Hq Hf Hn Hd He Hfree
              Hout Hne Hap Hc) as (evs & Heq & H1 & H2 & H3).
  eexists _, evs, _. split; [exact Heq|]. cbn [files log].
  split; [apply Permutation_refl|]. split; [apply Permutation_refl|].
  split; [reflexivity|]. split; [exact H1|]. split; [exact H2 | exact H3].
Qed.

Lemma volume_is_built_from_the_plan_witness :
  exists ms evs w',
    bind (place_pages Samples.calm "/m/vol" (Some "/c.jpg")
            [(2%Z, "/m/Chapter 2"); (10%Z, "/m/Chapter 10")])
         (fun st => create_cbz Samples.calm "/m/vol" "vol.cbz" "/m/vol.cbz" st)
         (Samples.start (Samples.library ++ [("/m/vol", Fs.Dir)])%list)
    = (Normal true, w')
    /\ Permutation ms [("001.jpg", Fs.Bytes "cover");
                       ("002.jpg", Fs.Bytes "a");
                       ("003.png", Fs.Bytes "b");
                       ("004.jpg", Fs.Bytes "c");
                       ("005.jpg", Fs.Bytes "d")]
    /\ Permutation (files w')
         (Samples.library ++ [("/m/vol.cbz", Fs.File (Fs.Cbz ms))])%list
    /\ log w' = ([] ++ evs)%list
    /\ placed_originals evs = ["/c.jpg"; "p1.jpg"; "p2.PNG"; "9.jpg"; "10.jpg"]
    /\ In (EvSuccess 5) evs
    /\ Forall unprompted evs.
Proof.
  apply (volume_is_built_from_the_plan Samples.calm "/m/vol" "vol.cbz"
           "/m/vol.cbz" (Some "/c.jpg")
           [(2%Z, "/m/Chapter 2"); (10%Z, "/m/Chapter 10")]
           (Samples.start (Samples.library ++ [("/m/vol", Fs.Dir)])%list)).
  - reflexivity.
  - reflexivity.
  - discriminate.
  - reflexivity.
  - apply empty_check. reflexivity.
  - reflexivity.
  - reflexivity.
  - discriminate.
  - repeat constructor; intros H; vm_compute in H; discriminate H.
  - intros c H. injection H as <-. split; reflexivity.
Defined.

End VolumeFromPlan.

(** ** A run on tidy ground *)

Module TidyRun.
Import PyStr Re OsPath Run VolumeMaker Spec Volume.
Import StrFacts ListFacts FsFacts PathFacts RunFacts Locator Enumerator.
Import Placing PlacePages Preflight Prepare WholeRun.
Import Digits NumberedNames Shelf PageLoop ArchiveContents VolumeFromPlan.

Lemma entry_is_plain (folder item : string) (fs : Fs.t) :
  In item (Fs.entries folder fs) -> item <> "" /\ Fs.has_sep item = false.
Proof.
  intros H. apply in_filter_map in H as ([p n] & _ & He).
  cbn [fst] in He. unfold Fs.entry_name in He.
  destruct (strip_prefix _ p) as [[|c r]|]; try discriminate.
  destruct (Fs.has_sep (String c r)) eqn:Hs; [discriminate|].
  injection He as <-. split; [discriminate | exact Hs].
Qed.

Lemma no_sep_is_plain (name : string) :
  name <> "" -> Fs.has_sep name = false -> plain_name name = true.
Proof.
  intros Hn Hs. unfold plain_name.
  apply String.eqb_neq in Hn. rewrite Hn. cbn [negb andb].
  destruct (endswith_char name sep) eqn:He; [|reflexivity].
  apply endswith_has_sep in He. congruence.
Qed.

Lemma component_inj (a b r r' : string) :
  Fs.has_sep a = false -> Fs.has_sep b = false ->
  a ++ String sep r = b ++ String sep r' -> a = b.
Proof.
  revert b. induction a as [|u a IH]; intros [|v b] Ha Hb H;
    cbn [append Fs.has_sep] in *; try reflexivity.
  - injection H as <- _. now rewrite Ascii.eqb_refl in Hb.
  - injection H as -> _. now rewrite Ascii.eqb_refl in Ha.
  - injection H as -> H. apply orb_false_iff in Ha as [_ Ha].
    apply orb_false_iff in Hb as [_ Hb]. f_equal. now apply IH.
Qed.

Lemma filter_all {A : Type} (p : A -> bool) (l : list A) :
  (forall x, In x l -> p x = true) -> filter p l = l.
Proof.
  induction l as [|x l IH]; intros H; [reflexivity|]. cbn [filter].
  rewrite (H x (or_introl eq_refl)). f_equal. apply IH.
  intros y Hy. apply H. now right.
Qed.

Lemma wp_mkdir_parents_present {R : Type} (ps : list string)
    (N : unit -> world -> Prop) (Rt : R -> world -> Prop)
    (Ex : exn -> world -> Prop) (w : world) :
  Forall (fun a => Fs.lookup a (files w) = Some Fs.Dir) ps ->
  N tt w -> wp (Os.mkdir_parents ps) N Rt Ex w.
Proof.
  induction 1 as [|p ps Hp _ IH]; intros HN; cbn [Os.mkdir_parents].
  - now apply wp_ret.
  - apply wp_bind. unfold Os.mkdir_parent. apply wp_bind, wp_get_files.
    rewrite Hp. apply wp_ret. now apply IH.
Qed.

(** [os.makedirs] when only the last directory is missing. *)
Lemma wp_create_staging_fresh (d : string)
    (N : unit -> world -> Prop) (Rt : bool -> world -> Prop)
    (Ex : exn -> world -> Prop) (w : world) :
  Fs.lookup d (files w) = None ->
  Forall (fun a => Fs.lookup a (files w) = Some Fs.Dir) (Fs.ancestors d) ->
  N tt {| files := (files w ++ [(d, Fs.Dir)])%list;
          log := (log w ++ [EvCreatedTemp d])%list |} ->
  wp (create_staging d) N Rt Ex w.
Proof.
  intros Hd Hp HN. unfold create_staging, Os.path_exists, Fs.exists_.
  apply wp_bind, wp_bind, wp_get_files, wp_ret. rewrite Hd.
  apply wp_bind, wp_ret. apply wp_bind. unfold Os.makedirs.
  apply wp_bind, wp_mkdir_parents_present; [exact Hp|].
  apply wp_bind, wp_get_files. rewrite Hd. apply wp_put_files.
  apply wp_print. cbn [files log]. now rewrite write_fresh.
Qed.

Lemma wp_validate_cover_ok (cover : option string)
    (N : unit -> world -> Prop) (Rt : bool -> world -> Prop)
    (Ex : exn -> world -> Prop) (w : world) :
  (forall c, given cover = Some c ->
             Fs.isfile c (files w) = true
             /\ is_image_extension (snd (splitext (lower c))) = true) ->
  N tt {| files := files w;
          log := (log w ++ match given cover with
                           | Some c => [EvUsingCover c]
                           | None => []
                           end)%list |} ->
  wp (validate_cover cover) N Rt Ex w.
Proof.
  intros Hc HN. destruct w as [fs lg]. cbn [files log] in *.
  unfold wp, validate_cover, bind, Os.path_exists, get_files, print, ret,
    return_, bind.
  destruct (given cover) as [c|]; simpl.
  - destruct (Hc c eq_refl) as [Hf Hx]. unfold Fs.exists_, Fs.isfile in *.
    destruct (Fs.lookup c fs) as [[c0|]|]; try discriminate. simpl.
    rewrite Hx. exact HN.
  - now rewrite List.app_nil_r in HN.
Qed.

Lemma wp_locate_chapters_found (E : env) (base : string) (s e : Z)
    (N : list (Z * string) -> world -> Prop) (Rt : bool -> world -> Prop)
    (Ex : exn -> world -> Prop) (w : world) :
  readable E base (files w) = true ->
  found_chapters (files w) base s e <> [] ->
  N (found_chapters (files w) base s e)
    {| files := files w;
       log := (log w
               ++ [EvFound (map fst (found_chapters (files w) base s e))])%list |} ->
  wp (locate_chapters E base s e) N Rt Ex w.
Proof.
  intros Hr Hne HN. unfold locate_chapters. apply wp_bind.
  unfold wp at 1. rewrite find_chapter_folders_eq by exact Hr.
  fold (found_chapters (files w) base s e).
  destruct (found_chapters (files w) base s e) as [|x l]; [congruence|].
  apply wp_bind, wp_print, wp_ret. exact HN.
Qed.

Section Run.
Variables (E : env) (base : string) (s e : Z) (out cover : option string).
Variable w0 : world.

Let name := output_name out s e.
Let d := join base name.
Let cbz := join base (name ++ ".cbz").
Let fs0 := files w0.
Let fs2 : Fs.t := (fs0 ++ [(d, Fs.Dir)])%list.
Let chapters := found_chapters fs0 base s e.
Let l := plan E fs0 cover chapters.

Hypothesis ground : tidy E base name cover fs0.
Hypothesis found : chapters <> [].

Lemma name_is_plain : plain_name name = true.
Proof. destruct ground. now apply no_sep_is_plain. Qed.

Lemma staging_path : d = Fs.dir_prefix base ++ name.
Proof.
  destruct ground as [_ _ [_ Hs] _ _ _ _ _ _ _ _].
  apply join_relative. now apply no_sep_head.
Qed.

Lemma staging_is_named : d <> "".
Proof.
  destruct ground as [_ _ [Hn _] _ _ _ _ _ _ _ _]. rewrite staging_path.
  intros H. destruct (Fs.dir_prefix base); [now cbn in H | discriminate].
Qed.

Lemma bound_is_kept (p : string) :
  Fs.lookup p fs0 <> None -> Fs.lookup p fs2 = Fs.lookup p fs0.
Proof.
  intros H. unfold fs2. rewrite lookup_app.
  now destruct (Fs.lookup p fs0).
Qed.

Lemma entries_of_base : Fs.entries base fs2 = (Fs.entries base fs0 ++ [name])%list.
Proof.
  destruct ground as [_ _ [Hn Hs] _ _ _ _ _ _ _ _].
  unfold fs2, Fs.entries. rewrite filter_map_app. f_equal.
  cbn [Fs.filter_map fst]. unfold Fs.entry_name.
  rewrite staging_path, strip_prefix_app.
  destruct name; [congruence|]. now rewrite Hs.
Qed.

Lemma chapter_of_kept (item : string) :
  In item (Fs.entries base fs0) ->
  chapter_of fs2 base s e item = chapter_of fs0 base s e item.
Proof.
  intros Hin. unfold chapter_of, Fs.isdir.
  now rewrite (bound_is_kept _ (entry_is_bound _ _ _ Hin)).
Qed.

Lemma chapters_kept : found_chapters fs2 base s e = chapters.
Proof.
  destruct ground as [_ _ _ Hm _ _ _ _ _ _ _].
  unfold chapters, found_chapters. f_equal.
  rewrite entries_of_base, filter_map_app.
  cbn [Fs.filter_map]. unfold chapter_of at 2. rewrite Hm.
  destruct (Fs.isdir (join base name) fs2); rewrite List.app_nil_r;
    now apply filter_map_ext_in, chapter_of_kept.
Qed.

Lemma base_is_listable : readable E base fs2 = true.
Proof.
  destruct ground as [_ _ _ _ _ _ _ _ Hr _ _].
  unfold readable, Fs.isdir in *. rewrite bound_is_kept; [exact Hr|].
  destruct (Fs.lookup base fs0); [discriminate | discriminate Hr].
Qed.

(** What a chapter found in the base directory is. *)
Lemma chapter_found (ch : Z * string) :
  In ch chapters ->
  exists item,
    snd ch = Fs.dir_prefix base ++ item /\ item <> ""
    /\ Fs.has_sep item = false /\ item <> name
    /\ Fs.isdir (snd ch) fs0 = true.
Proof.
  destruct ground as [_ _ _ Hm _ _ _ _ _ _ _].
  intros Hin. unfold chapters, found_chapters in Hin.
  apply in_sort_by, in_filter_map in Hin as (item & Hi & Hc).
  destruct (entry_is_plain _ _ _ Hi) as [Hn Hs]. exists item.
  unfold chapter_of in Hc.
  destruct (Fs.isdir (join base item) fs0) eqn:Hd; [|discriminate].
  destruct (match_chapter item) as [g|] eqn:Hg; [|discriminate].
  destruct (_ && _); [|discriminate]. injection Hc as <-. cbn [snd].
  split; [apply join_relative; now apply no_sep_head|].
  split; [exact Hn|]. split; [exact Hs|]. split; [congruence | exact Hd].
Qed.

Lemma chapters_apart :
  Forall (fun ch => Fs.dir_prefix (snd ch) <> Fs.dir_prefix d) chapters.
Proof.
  destruct ground as [_ _ [Hn Hs] _ _ _ _ _ _ _ _].
  apply Forall_forall. intros ch Hin.
  destruct (chapter_found ch Hin) as (item & Hp & Hin' & His & Hne & _).
  assert (H1 : Fs.dir_prefix (snd ch) = (Fs.dir_prefix base ++ item) ++ "/").
  { rewrite Hp, <- (join_relative base item) by now apply no_sep_head.
    apply plain_dir_prefix. now apply no_sep_is_plain. }
  assert (H2 : Fs.dir_prefix d = (Fs.dir_prefix base ++ name) ++ "/").
  { rewrite <- staging_path. apply plain_dir_prefix, name_is_plain. }
  rewrite H1, H2, !append_assoc. intros H. apply append_inv_head in H.
  apply component_inj in H; auto.
Qed.

Lemma staging_is_no_entry (ch : Z * string) :
  In ch chapters -> Fs.entry_name (snd ch) d = None.
Proof.
  destruct ground as [_ _ [Hn Hs] _ _ _ _ _ _ _ _]. intros Hin.
  destruct (chapter_found ch Hin) as (item & Hp & Hin' & His & Hne & _).
  assert (H1 : Fs.dir_prefix (snd ch) = Fs.dir_prefix base ++ item ++ "/").
  { rewrite Hp, <- (join_relative base item) by now apply no_sep_head.
    rewrite plain_dir_prefix by now apply no_sep_is_plain.
    rewrite join_relative by now apply no_sep_head. apply append_assoc. }
  unfold Fs.entry_name. rewrite H1, staging_path, strip_prefix_cancel.
  destruct (strip_prefix (item ++ "/") name) as [r|] eqn:Hr; [|reflexivity].
  apply strip_prefix_Some in Hr. rewrite Hr, append_assoc, !has_sep_app in Hs.
  cbn in Hs. now rewrite orb_true_r in Hs.
Qed.

Lemma pages_kept (ch : Z * string) :
  In ch chapters -> pages_of E fs2 (snd ch) = pages_of E fs0 (snd ch).
Proof.
  intros Hin. destruct (chapter_found ch Hin) as (_ & _ & _ & _ & _ & Hd).
  assert (Hb : Fs.lookup (snd ch) fs0 <> None).
  { unfold Fs.isdir in Hd. now destruct (Fs.lookup (snd ch) fs0). }
  unfold pages_of, readable, Fs.isdir. rewrite (bound_is_kept _ Hb).
  destruct (_ && _); [|reflexivity]. f_equal. unfold listed_pages.
  assert (He : Fs.entries (snd ch) fs2 = Fs.entries (snd ch) fs0).
  { unfold fs2, Fs.entries. rewrite filter_map_app.
    cbn [Fs.filter_map fst]. rewrite (staging_is_no_entry ch Hin).
    apply List.app_nil_r. }
  rewrite He. f_equal. apply filter_ext_in. intros item Hi.
  unfold page_ok, Fs.isfile.
  now rewrite (bound_is_kept _ (entry_is_bound _ _ _ Hi)).
Qed.

Lemma plan_kept : plan E fs2 cover chapters = l.
Proof.
  unfold l, plan. do 2 f_equal. apply map_ext_in. intros ch Hin.
  now apply pages_kept.
Qed.

Lemma plan_sources : Forall (fun x => Fs.isfile (snd x) fs0 = true) l.
Proof.
  destruct ground as [_ _ _ _ _ _ _ _ _ Hc _].
  unfold l, plan. apply Forall_app. split.
  - destruct (given cover) as [c|]; [|constructor].
    constructor; [|constructor]. now apply Hc.
  - apply Forall_concat, Forall_map, Forall_forall. intros ch _.
    eapply Forall_impl; [|apply (pages_ok E w0)]. now intros x [_ Hx].
Qed.

Lemma volume_kept : volume fs2 l = volume fs0 l.
Proof.
  unfold volume. apply map_ext_in. intros [i x] Hin.
  apply in_combine_r in Hin. pose proof plan_sources as Hs.
  rewrite Forall_forall in Hs. specialize (Hs x Hin).
  unfold member_of, content_of. cbn [fst snd]. f_equal.
  rewrite bound_is_kept; [reflexivity|].
  unfold Fs.isfile in Hs. now destruct (Fs.lookup (snd x) fs0).
Qed.

Lemma ground_is_restored : Fs.remove_tree d fs2 = fs0.
Proof.
  destruct ground as [_ _ _ _ _ Ha Hb _ _ _ _].
  unfold fs2, Fs.remove_tree. rewrite filter_app. cbn [filter fst].
  rewrite String.eqb_refl. cbn [negb andb]. rewrite List.app_nil_r.
  apply filter_all. intros [p n] Hin. cbn [fst].
  pose proof (in_lookup p n fs0 Hin) as Hl.
  destruct (String.eqb_spec p d) as [->|_]; [now elim Hl|].
  destruct (Fs.below d p) eqn:Hq; [now elim Hl; apply Hb | reflexivity].
Qed.

Lemma wp_body_tidy :
  wp (merge_chapters_body E base s e out cover)
     (fun b w =>
        b = true
        /\ exists evs,
             w = {| files :=
                      (fs0
                       ++ [(cbz, Fs.File (Fs.Cbz (volume fs0 l)))])%list;
                    log := (log w0 ++ evs)%list |}
             /\ placed_originals evs = map fst l
             /\ In (EvSuccess (length l)) evs
             /\ Forall unprompted evs)
     (fun _ _ => False) (fun _ _ => False) w0.
Proof.
  pose proof ground as [Hq Hf [Hn Hs] Hm Hfree Ha Hb Hp Hr Hc _].
  fold d in Ha, Hb, Hp. fold cbz in Hfree.
  unfold merge_chapters_body. cbv zeta.
  change (match out with
          | Some name0 => name0
          | None => default_output_folder s e
          end) with name.
  fold d cbz.
  apply wp_bind, wp_confirm_overwrite;
    [intros _
    |intros c Hx _; exfalso; unfold fs0 in Hfree; congruence
    |intros Hx _; exfalso; apply Hx; exact Hfree
    |intros Hx _; exfalso; unfold fs0 in Hfree; congruence].
  apply wp_bind, wp_validate_cover_ok; [exact Hc|]. cbn [files log].
  apply wp_bind, wp_create_staging_fresh; [exact Ha | exact Hp|].
  cbn [files log]. fold fs0 fs2.
  apply wp_bind, wp_locate_chapters_found; cbn [files log];
    [apply base_is_listable | now rewrite chapters_kept|].
  rewrite chapters_kept.
  set (pre := ((match given cover with
                | Some c => [EvUsingCover c]
                | None => []
                end ++ [EvCreatedTemp d])
               ++ [EvFound (map fst chapters)])%list).
  assert (Hgo : exists evs,
             bind (place_pages E d cover chapters)
                  (fun st => create_cbz E d (name ++ ".cbz") cbz st)
                  {| files := fs2; log := (log w0 ++ pre)%list |}
             = (Normal true,
                {| files :=
                     (Fs.remove_tree d fs2
                      ++ [(cbz,
                           Fs.File
                             (Fs.Cbz (volume fs2
                                        (plan E fs2 cover chapters))))])%list;
                   log := ((log w0 ++ pre) ++ evs)%list |})
             /\ placed_originals evs = map fst (plan E fs2 cover chapters)
             /\ In (EvSuccess (length (plan E fs2 cover chapters))) evs
             /\ Forall unprompted evs).
  { apply (volume_from_plan E d (name ++ ".cbz") cbz cover chapters
             {| files := fs2; log := (log w0 ++ pre)%list |});
      cbn [files log]; auto.
    - apply staging_is_named.
    - unfold fs2. rewrite lookup_app, Ha. cbn [Fs.lookup].
      now rewrite String.eqb_refl.
    - intros q Hin. unfold inside in Hin.
      apply andb_true_iff in Hin as [Hbq Hne].
      unfold fs2. rewrite lookup_app, (Hb q Hbq). cbn [Fs.lookup].
      apply negb_true_iff in Hne. rewrite String.eqb_sym. now rewrite Hne.
    - unfold fs2. rewrite lookup_app, Hfree.
      cbn [Fs.lookup]. pose proof (cbz_neq_output base name) as Hne.
      fold d cbz in Hne. apply not_eq_sym, String.eqb_neq in Hne.
      now rewrite Hne.
    - apply plain_cbz_outside, name_is_plain.
    - apply cbz_neq_output.
    - apply chapters_apart.
    - intros c Hg. destruct (Hc c Hg) as [Hfile Hext]. split; [|exact Hext].
      unfold Fs.isfile in *. rewrite bound_is_kept; [exact Hfile|].
      now destruct (Fs.lookup c fs0). }
  destruct Hgo as (evs & Heq & Hpo & Hsucc & Hun).
  rewrite plan_kept, volume_kept, ground_is_restored in *.
  unfold wp.
  replace ((((log w0 ++ match given cover with
                        | Some c => [EvUsingCover c]
                        | None => []
                        end) ++ [EvCreatedTemp d])
            ++ [EvFound (map fst chapters)])%list)
    with ((log w0 ++ pre)%list)
    by (unfold pre; now rewrite <- !List.app_assoc).
  match goal with
  | |- match ?m ?w with _ => _ end =>
      change (m w) with
        (bind (place_pages E d cover chapters)
              (fun st => create_cbz E d (name ++ ".cbz") cbz st)
              {| files := fs2; log := (log w0 ++ pre)%list |})
  end.
  rewrite Heq. split; [reflexivity|]. exists (pre ++ evs)%list.
  split; [now rewrite List.app_assoc|].
  assert (Hpre : placed_originals pre = [] /\ Forall unprompted pre)
    by (unfold pre; destruct (given cover); split;
        [reflexivity | repeat constructor | reflexivity | repeat constructor]).
  destruct Hpre as [Hp1 Hp2]. split; [|split].
  - unfold placed_originals in *. now rewrite filter_map_app, Hp1, Hpo.
  - apply in_app_iff. now right.
  - now apply Forall_app.
Qed.

End Run.

Lemma below_check (d : string) (fs : Fs.t) :
  forallb (fun kv => negb (Fs.below d (fst kv))) fs = true ->
  forall q, Fs.below d q = true -> Fs.lookup q fs = None.
Proof.
  intros H q Hq. destruct (Fs.lookup q fs) as [n|] eqn:Hl; [|reflexivity].
  apply lookup_in in Hl. rewrite forallb_forall in H.
  specialize (H _ Hl). cbn [fst] in H. now rewrite Hq in H.
Qed.

(** X15.  A run of [merge_chapters] on tidy ground, in an outside world
    where nothing fails, with at least one chapter in the range.  It
    returns True, asks nothing, and adds exactly one entry to the file
    system, the archive, leaving every other entry as it was; the staging
    directory it made is gone again.  The copies are made in the order
    of the plan: the cover, if one is given, and then the pages of the
    chapters found, chapter by chapter in ascending order of chapter
    number and inside a chapter in the order of [get_image_files].  The
    archive has one member for each file of the plan: the member made
    from the i-th file is named by i in three digits and the extension
    of its original in lower case, and holds the bytes of the original.
    The success line reports as many pages as the archive has members.
    The order of the members in the archive is the order in which
    [os.walk] meets the staged files, which the code does not determine;
    it is not stated, and neither is the place of the archive among the
    entries. *)
Theorem tidy_run_adds_exactly_the_volume (E : env) (R : Type)
    (base : string) (s e : Z) (out cover : option string) (w0 : world) :
  tidy E base (output_name out s e) cover (files w0) ->
  found_chapters (files w0) base s e <> [] ->
  exists ms evs w,
    @merge_chapters E R base s e out cover w0 = (Normal true, w)
    /\ Permutation ms
         (volume (files w0)
            (plan E (files w0) cover (found_chapters (files w0) base s e)))
    /\ Permutation (files w)
         (files w0
          ++ [(join base (output_name out s e ++ ".cbz"),
               Fs.File (Fs.Cbz ms))])%list
    /\ log w = (log w0 ++ evs)%list
    /\ placed_originals evs
       = map fst (plan E (files w0) cover (found_chapters (files w0) base s e))
    /\ In (EvSuccess
             (length (plan E (files w0) cover
                        (found_chapters (files w0) base s e)))) evs
    /\ Forall unprompted evs.
Proof.
  intros Hg Hf.
  pose proof (wp_body_tidy E base s e out cover w0 Hg Hf) as H.
  unfold wp in H. unfold merge_chapters, call.
  destruct (merge_chapters_body E base s e out cover w0) as [[b|b|x] w];
    [|destruct H | destruct H].
  destruct H as (-> & evs & -> & H1 & H2 & H3).
  eexists _, evs, _. split; [reflexivity|]. cbn [files log].
  split; [apply Permutation_refl|]. split; [apply Permutation_refl|].
  split; [reflexivity|]. split; [exact H1|]. split; [exact H2 | exact H3].
Qed.

Lemma tidy_run_adds_exactly_the_volume_witness :
  exists ms evs w,
    @merge_chapters Samples.calm unit "/m" 2 10 (Some "vol") (Some "/c.jpg")
      (Samples.start Samples.library)
    = (Normal true, w)
    /\ Permutation ms [("001.jpg", Fs.Bytes "cover");
                       ("002.jpg", Fs.Bytes "a");
                       ("003.png", Fs.Bytes "b");
                       ("004.jpg", Fs.Bytes "c");
                       ("005.jpg", Fs.Bytes "d")]
    /\ Permutation (files w)
         (Samples.library ++ [("/m/vol.cbz", Fs.File (Fs.Cbz ms))])%list
    /\ log w = ([] ++ evs)%list
    /\ placed_originals evs = ["/c.jpg"; "p1.jpg"; "p2.PNG"; "9.jpg"; "10.jpg"]
    /\ In (EvSuccess 5) evs
    /\ Forall unprompted evs.
Proof.
  apply (tidy_run_adds_exactly_the_volume Samples.calm unit "/m" 2 10
           (Some "vol") (Some "/c.jpg") (Samples.start Samples.library)).
  - constructor.
    + reflexivity.
    + reflexivity.
    + split; [discriminate | reflexivity].
    + reflexivity.
    + reflexivity.
    + reflexivity.
    + apply below_check. reflexivity.
    + repeat constructor.
    + reflexivity.
    + intros c H. injection H as <-. split; reflexivity.
    + reflexivity.
  - discriminate.
Defined.

End TidyRun.
